(** * Carrier pricing dashboard: route matching and price estimation

  A shallow embedding of [price_estimator.py], [similar_routes.py] and
  [high_density_lane_price_estimator.py], followed by the properties of
  the specification that were checked against it.

  Conventions of the embedding.
  - A data frame is the list of its rows, in row order.
  - A nullable column is an [option]; comparisons on nullable values use
    three-valued (Kleene) logic, and [filter] keeps the rows whose
    predicate is [Some true], as the column engine does.
  - [Float64] values are idealised as exact rationals [Q].  Where the code
    can divide by zero the result is the value [NonFinite], which stands
    for the IEEE infinities and NaN and absorbs further arithmetic.
  - The square root of [stddev_cost] stays symbolic ([Sqrt v] is the real
    number whose square is [v]); nothing below needs its digits.
  - The geocoding lookup, the haversine formula (trigonometry), the
    standard deviation [np.std] and the Gaussian kernel density estimate
    are parameters of the sections that use them.  [np.std] is tested
    against zero, and the double it returns for a column need not be the
    exact root of the variance (for six prices of 199.95 it is about
    2.84e-14, not 0), so nothing is assumed about it; the constructor of
    the density estimate may raise, so it is a partial function. *)

From Stdlib Require Import ZArith QArith Qround Lqa Lia Bool List.
From Stdlib Require Import Ascii String DecimalString.
From Stdlib Require Import Orders Mergesort Sorted Permutation.
Import ListNotations.

Set Implicit Arguments.

(* ================================================================== *)
(** * Column engine primitives *)
(* ================================================================== *)

Module Frame.

(** ** Three-valued logic of nullable boolean expressions *)

Definition kleene := option bool.

Definition kand (a b : kleene) : kleene :=
  match a, b with
  | Some false, _ | _, Some false => Some false
  | Some true, Some true => Some true
  | _, _ => None
  end.

Definition kor (a b : kleene) : kleene :=
  match a, b with
  | Some true, _ | _, Some true => Some true
  | Some false, Some false => Some false
  | _, _ => None
  end.

(** [DataFrame.filter] keeps a row only when the predicate is true;
    rows where it is false or null are dropped. *)
Definition keeps (k : kleene) : bool :=
  match k with Some true => true | _ => false end.

Definition filter_rows {A} (p : A -> kleene) (df : list A) : list A :=
  filter (fun r => keeps (p r)) df.

Definition is_not_null {A} (x : option A) : kleene :=
  match x with Some _ => Some true | None => Some false end.

(** Null-propagating arithmetic on a column. *)
Definition omap {A B} (f : A -> B) (x : option A) : option B :=
  match x with Some a => Some (f a) | None => None end.

Definition omap2 {A B C} (f : A -> B -> C) (x : option A) (y : option B)
  : option C :=
  match x, y with Some a, Some b => Some (f a b) | _, _ => None end.

(** Binary comparison of a nullable column with a nullable operand. *)
Definition lift2 {A B} (f : A -> B -> bool) (x : option A) (y : option B)
  : kleene :=
  match x, y with
  | Some a, Some b => Some (f a b)
  | _, _ => None
  end.

Definition str_eq : option string -> option string -> kleene :=
  lift2 String.eqb.
Definition str_lt : option string -> option string -> kleene :=
  lift2 String.ltb.
Definition q_ne : option Q -> option Q -> kleene :=
  lift2 (fun a b => negb (Qeq_bool a b)).
Definition q_le : option Q -> option Q -> kleene :=
  lift2 Qle_bool.

(** [pl.concat_str([a, b], separator)]: null as soon as one part is. *)
Definition concat_str (sep : string) (a b : option string)
  : option string :=
  match a, b with
  | Some x, Some y => Some (x ++ sep ++ y)%string
  | _, _ => None
  end.

(** ** Postcode normalisation: [.replace(" ", "").upper()] on bytes *)

Definition to_upper (c : ascii) : ascii :=
  let n := nat_of_ascii c in
  if (97 <=? n)%nat && (n <=? 122)%nat then ascii_of_nat (n - 32) else c.

Fixpoint remove_spaces (s : string) : string :=
  match s with
  | EmptyString => EmptyString
  | String c t =>
      if Ascii.eqb c " "%char then remove_spaces t
      else String c (remove_spaces t)
  end.

Fixpoint upper (s : string) : string :=
  match s with
  | EmptyString => EmptyString
  | String c t => String (to_upper c) (upper t)
  end.

Definition clean_postcode (s : string) : string :=
  upper (remove_spaces s).

(** [s[:n]] and [.str.slice(0, n)]. *)
Definition prefix (n : nat) (s : string) : string := substring 0 n s.

(** ** Floats that may have left the finite range *)

Inductive f64 : Type :=
| Finite (q : Q)
| NonFinite.

Definition fadd (a b : f64) : f64 :=
  match a, b with
  | Finite x, Finite y => Finite (x + y)
  | _, _ => NonFinite
  end.

Definition fmul (a b : f64) : f64 :=
  match a, b with
  | Finite x, Finite y => Finite (x * y)
  | _, _ => NonFinite
  end.

Definition fdiv (a b : f64) : f64 :=
  match a, b with
  | Finite x, Finite y =>
      if Qeq_bool y 0 then NonFinite else Finite (x / y)
  | _, _ => NonFinite
  end.

Definition fsum (l : list f64) : f64 := fold_left fadd l (Finite 0).

Definition of_nat (n : nat) : Q := inject_Z (Z.of_nat n).

Definition fmean (l : list f64) : f64 :=
  fdiv (fsum l) (Finite (of_nat (List.length l))).

(** ** Aggregations over a column of rationals *)

Module QOrder <: TotalLeBool.
Definition t := Q.
Definition leb := Qle_bool.
Theorem leb_total : forall a b, leb a b = true \/ leb b a = true.
Proof.
  intros a b. unfold leb. rewrite !Qle_bool_iff.
  destruct (Qlt_le_dec a b) as [H | H]; [left; lra | right; exact H].
Qed.
End QOrder.

Module QSort := Sort QOrder.

Definition qsum (l : list Q) : Q := fold_right Qplus 0 l.

Definition mean (l : list Q) : option Q :=
  match l with
  | [] => None
  | _ => Some (qsum l / of_nat (List.length l))
  end.

(** Middle element of the sorted column, or the mean of the two middle
    elements when the length is even. *)
Definition median (l : list Q) : option Q :=
  match l with
  | [] => None
  | _ =>
      let s := QSort.sort l in
      let n := List.length l in
      if Nat.even n
      then Some ((nth (n / 2 - 1) s 0 + nth (n / 2) s 0) / 2)
      else Some (nth (n / 2) s 0)
  end.

Definition qmin (a b : Q) : Q := if Qle_bool a b then a else b.
Definition qmax (a b : Q) : Q := if Qle_bool a b then b else a.

Definition col_min (l : list Q) : option Q :=
  match l with
  | [] => None
  | x :: t => Some (fold_left qmin t x)
  end.

Definition col_max (l : list Q) : option Q :=
  match l with
  | [] => None
  | x :: t => Some (fold_left qmax t x)
  end.

(** Sum of squared deviations from the mean. *)
Definition sq_dev (l : list Q) : Q :=
  let m := qsum l / of_nat (List.length l) in
  qsum (map (fun x => (x - m) * (x - m)) l).

(** A square root, kept symbolic. *)
Inductive root : Type := Sqrt (radicand : Q).

(** [std(ddof)]: null unless more than [ddof] values are present. *)
Definition std (ddof : nat) (l : list Q) : option root :=
  if (List.length l <=? ddof)%nat then None
  else Some (Sqrt (sq_dev l / of_nat (List.length l - ddof))).

End Frame.

(* ================================================================== *)
(** * Data model *)
(* ================================================================== *)

Record datetime : Type := {
  dt_year : Z;
  dt_month : Z;
  dt_day : Z
}.

(** One row of the loaded dataset (the schema of [DataLoader.load]). *)
Record shipment : Type := {
  s_origin_postcode : option string;
  s_origin_lat : option Q;
  s_origin_lon : option Q;
  s_destination_postcode : option string;
  s_dest_lat : option Q;
  s_dest_lon : option Q;
  s_vehicle_type : option string;
  s_pickup_date : option datetime;
  s_contract_type : option string;
  s_journey_distance : option Q;
  s_load_id : option Z;
  s_shipper_price : option Q;
  s_shipper_id : option Z;
  s_carrier_price : option Q;
  s_carrier_name : option string
}.

(** One row of a tier: the projection on [required_cols]. *)
Record match_row : Type := {
  origin_postcode : option string;
  destination_postcode : option string;
  carrier_price : option Q;
  vehicle_type : option string;
  pickup_date : option datetime;
  contract_type : option string;
  shipper_price : option Q;
  carrier_name : option string;
  shipper_id : option Z
}.

(* ================================================================== *)
(** * [price_estimator.py] *)
(* ================================================================== *)

Module PriceEstimator.
Import Frame.

(** The expression of [create_route_key] on one row: when the origin is
    strictly below the destination (byte-wise lexicographic order) the
    key is origin, separator, destination; otherwise, also when the
    comparison is null, destination first. *)
Definition route_key_expr (origin dest : option string) : option string :=
  if keeps (str_lt origin dest)
  then concat_str " - " origin dest
  else concat_str " - " dest origin.

(** [create_route_key]: the frame with the column [route_key] added. *)
Definition create_route_key (df : list match_row)
  : list (match_row * option string) :=
  map (fun r =>
         (r, route_key_expr (origin_postcode r) (destination_postcode r)))
      df.

(** The filter of [estimate_price_from_df]. *)
Definition priceable (r : match_row) : kleene :=
  kand (kand (is_not_null (carrier_price r))
             (q_ne (carrier_price r) (Some 0)))
       (is_not_null (pickup_date r)).

(** A row that passed the filter: price and pickup date are present. *)
Record priced_row : Type := {
  route_key : option string;
  price : Q;
  pickup : datetime
}.

Definition cast_row (kr : match_row * option string) : list priced_row :=
  match carrier_price (fst kr), pickup_date (fst kr) with
  | Some p, Some d =>
      [ {| route_key := snd kr; price := p; pickup := d |} ]
  | _, _ => []
  end.

Definition filtered_df (df : list match_row) : list priced_row :=
  flat_map cast_row
    (filter_rows (fun kr => priceable (fst kr)) (create_route_key df)).

Definition years_ago (current_year : Z) (r : priced_row) : Z :=
  (current_year - dt_year (pickup r))%Z.

(** The column [time_weight]. *)
Definition time_weight (use_time_weighting : bool) (current_year : Z)
  (r : priced_row) : f64 :=
  if use_time_weighting
  then fdiv (Finite 1) (Finite (inject_Z (years_ago current_year r + 1)))
  else Finite 1.

Definition df_with_weight (use_time_weighting : bool) (current_year : Z)
  (df : list priced_row) : list (priced_row * f64) :=
  map (fun r => (r, time_weight use_time_weighting current_year r)) df.

(** ** [group_by(["route_key", "carrier_price"])] *)

Definition opt_str_eqb (a b : option string) : bool :=
  match a, b with
  | Some x, Some y => String.eqb x y
  | None, None => true
  | _, _ => false
  end.

Definition same_group (a b : priced_row) : bool :=
  opt_str_eqb (route_key a) (route_key b) && Qeq_bool (price a) (price b).

(** A group under construction: its first row and the later ones. *)
Definition members : Type :=
  ((priced_row * f64) * list (priced_row * f64))%type.

Fixpoint add_to_groups (r : priced_row * f64) (gs : list members)
  : list members :=
  match gs with
  | [] => [ (r, []) ]
  | g :: rest =>
      if same_group (fst r) (fst (fst g))
      then (fst g, snd g ++ [r]) :: rest
      else g :: add_to_groups r rest
  end.

(** Groups in order of first occurrence (the engine promises no order;
    every statistic taken below is insensitive to it). *)
Definition group_by (df : list (priced_row * f64)) : list members :=
  fold_left (fun gs r => add_to_groups r gs) df [].

Record group : Type := {
  g_route_key : option string;
  g_carrier_price : Q;
  volume : nat;
  avg_time_weight : f64
}.

Definition agg (g : members) : group :=
  {| g_route_key := route_key (fst (fst g));
     g_carrier_price := price (fst (fst g));
     volume := List.length (fst g :: snd g);
     avg_time_weight := fmean (map snd (fst g :: snd g)) |}.

Definition grouped (use_time_weighting : bool) (current_year : Z)
  (df : list priced_row) : list group :=
  map agg (group_by (df_with_weight use_time_weighting current_year df)).

Definition adjusted_volume (g : group) : f64 :=
  fmul (Finite (of_nat (volume g))) (avg_time_weight g).

Definition adjusted_cost (g : group) : f64 :=
  fmul (fmul (Finite (g_carrier_price g)) (Finite (of_nat (volume g))))
       (avg_time_weight g).

(** The dictionary returned by [estimate_price_from_df]; [explanation]
    is the key that [estimate_price] adds afterwards. *)
Record stats : Type := {
  volume_time_weighted_avg_cost : f64;
  avg_cost : option Q;
  median_cost : option Q;
  min_cost : option Q;
  max_cost : option Q;
  stddev_cost : option root;
  valid_count : nat;
  explanation : option string
}.

Definition select_stats (gs : list group) : stats :=
  let prices := map g_carrier_price gs in
  {| volume_time_weighted_avg_cost :=
       fdiv (fsum (map adjusted_cost gs)) (fsum (map adjusted_volume gs));
     avg_cost := mean prices;
     median_cost := median prices;
     min_cost := col_min prices;
     max_cost := col_max prices;
     stddev_cost := std 1 prices;
     valid_count := fold_right Nat.add 0%nat (map volume gs);
     explanation := None |}.

(** [estimate_price_from_df]; [current_year] is [date.today().year]. *)
Definition estimate_price_from_df (current_year : Z) (df : list match_row)
  (use_time_weighting : bool) : option stats :=
  match df with
  | [] => None
  | _ =>
      match filtered_df df with
      | [] => None
      | rows => Some (select_stats (grouped use_time_weighting current_year rows))
      end
  end.

(** [join_dfs]: vertical stacking of the frames, nothing removed. *)
Definition join_dfs (dfs : list (list match_row)) : list match_row :=
  List.concat dfs.

Definition show_nat (n : nat) : string :=
  NilEmpty.string_of_uint (Nat.to_uint n).

Definition explain (count : nat) (label : string) : string :=
  ("Estimated from " ++ show_nat count ++ " loads; (" ++ label ++ ").")%string.

Definition with_explanation (s : stats) (e : string) : stats :=
  {| volume_time_weighted_avg_cost := volume_time_weighted_avg_cost s;
     avg_cost := avg_cost s;
     median_cost := median_cost s;
     min_cost := min_cost s;
     max_cost := max_cost s;
     stddev_cost := stddev_cost s;
     valid_count := valid_count s;
     explanation := Some e |}.

Definition try_tier (current_year min_count : Z) (df : list match_row)
  (label : string) (use_time_weighting : bool) : option stats :=
  match estimate_price_from_df current_year df use_time_weighting with
  | Some s =>
      if (min_count <=? Z.of_nat (valid_count s))%Z
      then Some (with_explanation s (explain (valid_count s) label))
      else None
  | None => None
  end.

Definition default_min_count : Z := 5%Z.

Definition label_1 : string := "3-letter prefix".
Definition label_2 : string := "3-letter prefix + within 10km".
Definition label_3 : string := "3-letter prefix + within 10km + within 20km".
Definition label_4 : string :=
  "3-letter prefix + within 10km + within 20km + 2-letter prefix".

Definition estimate_price (current_year : Z)
  (matches_3 within_10 within_20 matches_2 : list match_row)
  (min_count : Z) (use_time_weighting : bool) : option stats :=
  match try_tier current_year min_count matches_3 label_1
          use_time_weighting with
  | Some result => Some result
  | None =>
  match try_tier current_year min_count
          (join_dfs [matches_3; within_10]) label_2
          use_time_weighting with
  | Some result => Some result
  | None =>
  match try_tier current_year min_count
          (join_dfs [matches_3; within_10; within_20]) label_3
          use_time_weighting with
  | Some result => Some result
  | None =>
  match try_tier current_year min_count
          (join_dfs [matches_3; within_10; within_20; matches_2]) label_4
          use_time_weighting with
  | Some result => Some result
  | None => None
  end end end end.

End PriceEstimator.

(* ================================================================== *)
(** * [similar_routes.py] *)
(* ================================================================== *)

Module SimilarRoutes.
Import Frame.

Section Matching.

(** The geocoding lookup ([None]: the [ValueError] raised after all of
    its fallbacks failed) and the real functions used by the haversine
    formula. *)
Variable get_lat_lon_from_api : string -> option (Q * Q).
Variable radians : Q -> Q.
Variable sin : Q -> Q.
Variable cos : Q -> Q.
Variable asin : Q -> Q.
Variable sqrt : Q -> Q.

Definition R : Q := 6371.

Definition square (x : Q) : Q := x * x.

(** [haversine_expr]: the first point is a pair of nullable columns, the
    second a pair of literals.  [map_elements] skips nulls. *)
Definition haversine_expr (lat1 lon1 : option Q) (lat2 lon2 : Q)
  : option Q :=
  let lat1_rad := omap radians lat1 in
  let lon1_rad := omap radians lon1 in
  let lat2_rad := Some (radians lat2) in
  let lon2_rad := Some (radians lon2) in
  let dlat := omap2 Qminus lat2_rad lat1_rad in
  let dlon := omap2 Qminus lon2_rad lon1_rad in
  let a :=
    omap2 Qplus
      (omap square (omap sin (omap (fun d => d / 2) dlat)))
      (omap2 Qmult
         (omap2 Qmult (omap cos lat1_rad) (Some (cos (radians lat2))))
         (omap square (omap sin (omap (fun d => d / 2) dlon)))) in
  let c := omap (fun x => 2 * asin (sqrt x)) a in
  omap (fun x => x * R) c.

(** A row after the two [with_columns] steps. *)
Record enriched : Type := {
  source : shipment;
  forward_origin_dist : option Q;
  forward_dest_dist : option Q;
  reverse_origin_dist : option Q;
  reverse_dest_dist : option Q;
  origin_postcode_clean : option string;
  destination_postcode_clean : option string;
  origin_prefix_3 : option string;
  dest_prefix_3 : option string;
  origin_prefix_2 : option string;
  dest_prefix_2 : option string
}.

Definition enrich (target_origin target_dest : Q * Q) (r : shipment)
  : enriched :=
  let oc := omap clean_postcode (s_origin_postcode r) in
  let dc := omap clean_postcode (s_destination_postcode r) in
  {| source := r;
     forward_origin_dist :=
       haversine_expr (s_origin_lat r) (s_origin_lon r)
         (fst target_origin) (snd target_origin);
     forward_dest_dist :=
       haversine_expr (s_dest_lat r) (s_dest_lon r)
         (fst target_dest) (snd target_dest);
     reverse_origin_dist :=
       haversine_expr (s_origin_lat r) (s_origin_lon r)
         (fst target_dest) (snd target_dest);
     reverse_dest_dist :=
       haversine_expr (s_dest_lat r) (s_dest_lon r)
         (fst target_origin) (snd target_origin);
     origin_postcode_clean := oc;
     destination_postcode_clean := dc;
     origin_prefix_3 := omap (prefix 3) oc;
     dest_prefix_3 := omap (prefix 3) dc;
     origin_prefix_2 := omap (prefix 2) oc;
     dest_prefix_2 := omap (prefix 2) dc |}.

(** [.select(required_cols)] *)
Definition select_required (e : enriched) : match_row :=
  let r := source e in
  {| origin_postcode := s_origin_postcode r;
     destination_postcode := s_destination_postcode r;
     carrier_price := s_carrier_price r;
     vehicle_type := s_vehicle_type r;
     pickup_date := s_pickup_date r;
     contract_type := s_contract_type r;
     shipper_price := s_shipper_price r;
     carrier_name := s_carrier_name r;
     shipper_id := s_shipper_id r |}.

Definition carrier_price_filter (e : enriched) : kleene :=
  kand (is_not_null (s_carrier_price (source e)))
       (q_ne (s_carrier_price (source e)) (Some 0)).

Definition vehicle_filter (vehicle_type : option string) (e : enriched)
  : kleene :=
  match vehicle_type with
  | Some v => str_eq (s_vehicle_type (source e)) (Some v)
  | None => Some true
  end.

Definition combined_filter (vehicle_type : option string) (e : enriched)
  : kleene :=
  kand (carrier_price_filter e) (vehicle_filter vehicle_type e).

(** Prefix tier: the row's prefixes equal the target's, in the given or
    in the swapped direction. *)
Definition prefix_match (row_origin row_dest : enriched -> option string)
  (origin_prefix dest_prefix : string) (e : enriched) : kleene :=
  kor (kand (str_eq (row_origin e) (Some origin_prefix))
            (str_eq (row_dest e) (Some dest_prefix)))
      (kand (str_eq (row_origin e) (Some dest_prefix))
            (str_eq (row_dest e) (Some origin_prefix))).

(** Distance tier with threshold [km]. *)
Definition within (km : Q) (e : enriched) : kleene :=
  kor (kand (q_le (forward_origin_dist e) (Some km))
            (q_le (forward_dest_dist e) (Some km)))
      (kand (q_le (reverse_origin_dist e) (Some km))
            (q_le (reverse_dest_dist e) (Some km))).

Definition tier (vehicle_type : option string) (p : enriched -> kleene)
  (df : list enriched) : list match_row :=
  map select_required
    (filter_rows (fun e => kand (combined_filter vehicle_type e) (p e)) df).

Definition tiers : Type :=
  (list match_row * list match_row * list match_row * list match_row)%type.

(** [find_similar_routes_by_postcode]; the result is
    [(matches_3_letter, within_10km, within_20km, matches_2_letter)], or
    [None] when a target postcode cannot be resolved. *)
Definition find_similar_routes_by_postcode (df : list shipment)
  (origin_postcode dest_postcode : string) (vehicle_type : option string)
  : option tiers :=
  let target_origin_postcode_clean := clean_postcode origin_postcode in
  let target_dest_postcode_clean := clean_postcode dest_postcode in
  let target_origin_prefix_3 := prefix 3 target_origin_postcode_clean in
  let target_dest_prefix_3 := prefix 3 target_dest_postcode_clean in
  let target_origin_prefix_2 := prefix 2 target_origin_postcode_clean in
  let target_dest_prefix_2 := prefix 2 target_dest_postcode_clean in
  match get_lat_lon_from_api target_origin_postcode_clean with
  | None => None
  | Some target_origin =>
  match get_lat_lon_from_api target_dest_postcode_clean with
  | None => None
  | Some target_dest =>
      let df' := map (enrich target_origin target_dest) df in
      let matches_3_letter :=
        tier vehicle_type
          (prefix_match origin_prefix_3 dest_prefix_3
             target_origin_prefix_3 target_dest_prefix_3) df' in
      let matches_2_letter :=
        tier vehicle_type
          (prefix_match origin_prefix_2 dest_prefix_2
             target_origin_prefix_2 target_dest_prefix_2) df' in
      let within_10km := tier vehicle_type (within 10) df' in
      let within_20km := tier vehicle_type (within 20) df' in
      Some (matches_3_letter, within_10km, within_20km, matches_2_letter)
  end end.

End Matching.
End SimilarRoutes.

(* ================================================================== *)
(** * [high_density_lane_price_estimator.py] *)
(* ================================================================== *)

Module HighDensity.
Import Frame.

(** The columns of the frame that [identify_optimal_price] reads. *)
Record observation : Type := {
  o_route_key : option string;
  o_vehicle_type : option string;
  o_carrier_price : option Q
}.

(** [df[df[col] == value]]: a null cell never equals the value. *)
Definition column_equals (col : observation -> option string)
  (value : string) (df : list observation) : list observation :=
  filter (fun r => match col r with
                   | Some s => String.eqb s value
                   | None => false
                   end) df.

(** The guard [if value:] on an optional string: neither [None] nor
    the empty string. *)
Definition filter_if_given (col : observation -> option string)
  (value : option string) (df : list observation) : list observation :=
  match value with
  | None | Some EmptyString => df
  | Some v => column_equals col v df
  end.

(** [.dropna().values] *)
Definition dropna (col : list (option Q)) : list Q :=
  flat_map (fun x => match x with Some v => [v] | None => [] end) col.

(** [np.percentile(l, q)] with linear interpolation between the two
    closest ranks. *)
Definition percentile (l : list Q) (q : Q) : Q :=
  let s := QSort.sort l in
  let n := List.length l in
  let virtual := q / 100 * of_nat (n - 1) in
  let lo := Z.to_nat (Qfloor virtual) in
  let hi := Nat.min (S lo) (n - 1) in
  let gamma := virtual - inject_Z (Qfloor virtual) in
  nth lo s 0 + gamma * (nth hi s 0 - nth lo s 0).

(** [scipy.stats.iqr] *)
Definition iqr (l : list Q) : Q := percentile l 75 - percentile l 25.

(** [spread == 0] *)
Definition spread_is_zero (spread : Q) : bool := Qeq_bool spread 0.

(** What a call of the estimator does: it raises, or it returns a price
    or [None]. *)
Inductive estimate : Type :=
| Raised
| Returned (price : option Q).

(** [np.linspace(start, stop, num)] *)
Definition linspace (start stop : Q) (num : nat) : list Q :=
  let step := (stop - start) / of_nat (num - 1) in
  map (fun i => of_nat i * step + start) (seq 0 num).

(** [scipy.signal.find_peaks(x)] without conditions: the indices of all
    local maxima in increasing order.  A maximum is a sample, or a flat
    run of samples, strictly above the sample before and the sample
    after it; a flat run is reported by its middle index, rounded down;
    the first and the last sample are never maxima.

    [scan i prev rise xs] reads the samples [xs] that start at index [i],
    where [prev] is the sample at [i - 1] and [rise] is the index at which
    the current flat run began if the curve rose into it. *)
Fixpoint scan (i : nat) (prev : Q) (rise : option nat) (xs : list Q)
  : list nat :=
  match xs with
  | [] => []
  | x :: rest =>
      if Qle_bool x prev
      then
        if Qle_bool prev x
        then scan (S i) x rise rest
        else
          match rise with
          | Some start =>
              ((start + (i - 1)) / 2)%nat :: scan (S i) x None rest
          | None => scan (S i) x None rest
          end
      else scan (S i) x (Some i) rest
  end.

Definition find_peaks (x : list Q) : list nat :=
  match x with
  | [] => []
  | x0 :: rest => scan 1 x0 None rest
  end.

(** [value >= density_threshold]; the threshold is a quotient, infinite
    when its divisor is zero, and no value reaches an infinite one. *)
Definition reaches (density_threshold : f64) (value : Q) : bool :=
  match density_threshold with
  | Finite t => Qle_bool t value
  | NonFinite => false
  end.

(** The loop over the peaks: the first one at or above the threshold. *)
Fixpoint first_valid_peak (density : list Q) (density_threshold : f64)
  (peaks : list nat) : option nat :=
  match peaks with
  | [] => None
  | idx :: rest =>
      if reaches density_threshold (nth idx density 0)
      then Some idx
      else first_valid_peak density density_threshold rest
  end.

(** [a // b] on floats: the floor of the quotient; an infinity or NaN
    when the divisor is zero. *)
Definition floor_divide (a b : Q) : f64 :=
  if Qeq_bool b 0 then NonFinite
  else Finite (inject_Z (Qfloor (a / b))).

(** [(price // target_bandwidth) * target_bandwidth]; NaN for a null
    price, and for a zero bandwidth, where an infinity or NaN is
    multiplied by zero. *)
Definition cost_group (target_bandwidth : Q) (price : option Q) : f64 :=
  match price with
  | Some p =>
      fmul (floor_divide p target_bandwidth) (Finite target_bandwidth)
  | None => NonFinite
  end.

(** The values of a column of bin values that are not NaN, which are
    the ones [.value_counts()] counts. *)
Definition not_nan (col : list f64) : list Q :=
  flat_map (fun x => match x with Finite v => [v] | NonFinite => [] end) col.

(** Run lengths of a sorted column: each value with its number of
    occurrences. *)
Fixpoint tally (l : list Q) : list (Q * nat) :=
  match l with
  | [] => []
  | x :: t =>
      match tally t with
      | (y, n) :: rest =>
          if Qeq_bool x y then (x, S n) :: rest
          else (x, 1%nat) :: (y, n) :: rest
      | [] => [ (x, 1%nat) ]
      end
  end.

(** [.value_counts().sort_index()]: the counts, by increasing value. *)
Definition value_counts_sorted (l : list Q) : list (Q * nat) :=
  tally (QSort.sort l).

(** [.idxmax()]: the label of the first row holding the largest count. *)
Fixpoint idxmax_from (best : Q * nat) (l : list (Q * nat)) : Q :=
  match l with
  | [] => fst best
  | c :: rest =>
      if (snd best <? snd c)%nat
      then idxmax_from c rest
      else idxmax_from best rest
  end.

Definition idxmax (l : list (Q * nat)) : option Q :=
  match l with
  | [] => None
  | c :: rest => Some (idxmax_from c rest)
  end.

Section Density.

(** [np.std costs]: the double that numpy computes for the population
    standard deviation of the column. *)
Variable np_std : list Q -> Q.

(** [gaussian_kde costs target_bandwidth spread] is
    [gaussian_kde(costs, bw_method=target_bandwidth / spread)]: the
    density curve, or nothing when the constructor raises (as it does,
    depending on the library version, for a zero bandwidth or for a
    column without variance). *)
Variable gaussian_kde : list Q -> Q -> Q -> option (Q -> Q).

Definition identify_optimal_price (df : list observation)
  (route_key vehicle_type : option string) (target_bandwidth : Q)
  : estimate :=
  let df := filter_if_given o_route_key route_key df in
  let df := filter_if_given o_vehicle_type vehicle_type df in
  let costs := dropna (map o_carrier_price df) in
  if (List.length costs <? 5)%nat then Returned None
  else
    let cost_std := np_std costs in
    let cost_iqr := iqr costs in
    let spread := if Qle_bool cost_iqr 0 then cost_std else cost_iqr in
    if spread_is_zero spread then Returned None
    else
      match gaussian_kde costs target_bandwidth spread with
      | None => Raised
      | Some kde =>
      match col_min costs, col_max costs with
      | Some lo, Some hi =>
          let cost_range := linspace lo hi 1000 in
          let density := map kde cost_range in
          let peaks := find_peaks density in
          match col_min cost_range, col_max cost_range with
          | Some range_min, Some range_max =>
              let density_threshold :=
                fdiv (Finite ((1 # 10) * of_nat (List.length costs)))
                     (Finite (range_max - range_min)) in
              match first_valid_peak density density_threshold peaks with
              | Some idx => Returned (Some (nth idx cost_range 0))
              | None =>
                  let cost_groups :=
                    map (fun r =>
                           cost_group target_bandwidth (o_carrier_price r))
                        df in
                  Returned
                    (idxmax (value_counts_sorted (not_nan cost_groups)))
              end
          | _, _ => Returned None
          end
      | _, _ => Returned None
      end
      end.

End Density.
End HighDensity.

(* ================================================================== *)
(** * [similar_routes.py]: the geocoding lookup *)
(* ================================================================== *)

Module Geocoding.
Import Frame.

(** The dictionary [postcode_cache]: the entry stored last for a key is
    the one a lookup finds. *)
Definition cache : Type := list (string * (Q * Q)).

Fixpoint lookup (k : string) (c : cache) : option (Q * Q) :=
  match c with
  | [] => None
  | (k', v) :: rest => if String.eqb k k' then Some v else lookup k rest
  end.

Definition store (k : string) (v : Q * Q) (c : cache) : cache :=
  (k, v) :: c.

(** What a call can observe and change: the cache, and the URLs
    requested so far, oldest first. *)
Record world : Type := {
  postcode_cache : cache;
  requests : list string
}.

(** A returned value or a raised [ValueError] with its message. *)
Inductive outcome (A : Type) : Type :=
| Return (a : A)
| Raise (message : string).

Arguments Return {A} a.
Arguments Raise {A} message.

Section Api.

(** The answer of the service to a URL, as [fetch_lat_lon] reads it:
    the coordinates when the status is 200 and the result is not empty.
    The answers are taken as fixed while the calls considered run. *)
Variable http : string -> option (Q * Q).

Definition fetch_lat_lon (url : string) (w : world)
  : option (Q * Q) * world :=
  (http url,
   {| postcode_cache := postcode_cache w;
      requests := requests w ++ [url] |}).

Definition postcodes_url (postcode : string) : string :=
  ("https://api.postcodes.io/postcodes/" ++ postcode)%string.

Definition outcodes_url (outcode : string) : string :=
  ("https://api.postcodes.io/outcodes/" ++ outcode)%string.

Definition not_found (postcode : string) : string :=
  ("Postcode '" ++ postcode
   ++ "' not found after all fallback attempts.")%string.

Definition get_lat_lon_from_api (postcode : string) (w : world)
  : outcome (Q * Q) * world :=
  let postcode := clean_postcode postcode in
  match lookup postcode (postcode_cache w) with
  | Some v => (Return v, w)
  | None =>
      let '(lat_lon, w) :=
        if (4 <? String.length postcode)%nat
        then
          let '(lat_lon, w) := fetch_lat_lon (postcodes_url postcode) w in
          match lat_lon with
          | None =>
              if (4 <=? String.length postcode)%nat
              then fetch_lat_lon (outcodes_url (prefix 4 postcode)) w
              else (None, w)
          | Some _ => (lat_lon, w)
          end
        else (None, w) in
      let '(lat_lon, w) :=
        match lat_lon with
        | None =>
            if (3 <=? String.length postcode)%nat
            then fetch_lat_lon (outcodes_url (prefix 3 postcode)) w
            else (None, w)
        | Some _ => (lat_lon, w)
        end in
      match lat_lon with
      | Some v =>
          (Return v,
           {| postcode_cache := store postcode v (postcode_cache w);
              requests := requests w |})
      | None => (Raise (not_found postcode), w)
      end
  end.

End Api.
End Geocoding.

(* ================================================================== *)
(** * [data_loader.py]: filling in missing postcodes *)
(* ================================================================== *)

Module DataLoader.
Import Frame.

Section Fill.

(** [self.postcode_cache.get], keyed by rounded coordinates, and
    Python's [round(x, ndigits)]. *)
Variable postcode_cache : Q * Q -> option string.
Variable round : Q -> nat -> Q.

(** The value appended to [updated_postcodes] for one row. *)
Definition updated_postcode (rounding_dp : nat) (lat lon : option Q)
  (current_postcode : option string) : option string :=
  match current_postcode with
  | Some p =>
      if (3 <? String.length p)%nat then Some p
      else
        match lat, lon with
        | Some la, Some lo =>
            postcode_cache (round la rounding_dp, round lo rounding_dp)
        | _, _ => None
        end
  | None =>
      match lat, lon with
      | Some la, Some lo =>
          postcode_cache (round la rounding_dp, round lo rounding_dp)
      | _, _ => None
      end
  end.

(** A postcode column of the dataset with its coordinate columns. *)
Record place : Type := {
  lat_col : shipment -> option Q;
  lon_col : shipment -> option Q;
  postcode_col : shipment -> option string;
  with_postcode : option string -> shipment -> shipment
}.

Definition origin : place :=
  {| lat_col := s_origin_lat;
     lon_col := s_origin_lon;
     postcode_col := s_origin_postcode;
     with_postcode := fun p r =>
       {| s_origin_postcode := p;
          s_origin_lat := s_origin_lat r;
          s_origin_lon := s_origin_lon r;
          s_destination_postcode := s_destination_postcode r;
          s_dest_lat := s_dest_lat r;
          s_dest_lon := s_dest_lon r;
          s_vehicle_type := s_vehicle_type r;
          s_pickup_date := s_pickup_date r;
          s_contract_type := s_contract_type r;
          s_journey_distance := s_journey_distance r;
          s_load_id := s_load_id r;
          s_shipper_price := s_shipper_price r;
          s_shipper_id := s_shipper_id r;
          s_carrier_price := s_carrier_price r;
          s_carrier_name := s_carrier_name r |} |}.

Definition destination : place :=
  {| lat_col := s_dest_lat;
     lon_col := s_dest_lon;
     postcode_col := s_destination_postcode;
     with_postcode := fun p r =>
       {| s_origin_postcode := s_origin_postcode r;
          s_origin_lat := s_origin_lat r;
          s_origin_lon := s_origin_lon r;
          s_destination_postcode := p;
          s_dest_lat := s_dest_lat r;
          s_dest_lon := s_dest_lon r;
          s_vehicle_type := s_vehicle_type r;
          s_pickup_date := s_pickup_date r;
          s_contract_type := s_contract_type r;
          s_journey_distance := s_journey_distance r;
          s_load_id := s_load_id r;
          s_shipper_price := s_shipper_price r;
          s_shipper_id := s_shipper_id r;
          s_carrier_price := s_carrier_price r;
          s_carrier_name := s_carrier_name r |} |}.

(** [fill_postcodes_from_cache_polars]: the postcode column replaced by
    the updated postcodes, row by row. *)
Definition fill_postcodes_from_cache_polars (df : list shipment)
  (col : place) (rounding_dp : nat) : list shipment :=
  map (fun row =>
         with_postcode col
           (updated_postcode rounding_dp (lat_col col row) (lon_col col row)
              (postcode_col col row))
           row)
      df.

Definition LATITUDE_DECIMAL_PLACE_ROUNDING : nat := 2.

(** [_fill_missing_postcodes]: origin first, then destination. *)
Definition _fill_missing_postcodes (df : list shipment) : list shipment :=
  let df :=
    fill_postcodes_from_cache_polars df origin
      LATITUDE_DECIMAL_PLACE_ROUNDING in
  fill_postcodes_from_cache_polars df destination
    LATITUDE_DECIMAL_PLACE_ROUNDING.

End Fill.
End DataLoader.

(* ================================================================== *)
(** * [app.py]: what a submitted search shows *)
(* ================================================================== *)

Module App.
Import Frame.

(** [pickup_date >= one_year_ago] on the calendar date; null for a null
    pickup date. *)
Definition date_leb (a b : datetime) : bool :=
  if (dt_year a <? dt_year b)%Z then true
  else if (dt_year b <? dt_year a)%Z then false
  else if (dt_month a <? dt_month b)%Z then true
  else if (dt_month b <? dt_month a)%Z then false
  else (dt_day a <=? dt_day b)%Z.

Definition since (one_year_ago : datetime) (r : match_row) : kleene :=
  lift2 (fun d c => date_leb c d) (pickup_date r) (Some one_year_ago).

(** [to_pandas] of a tier, as [identify_optimal_price] reads it; the
    frame has no route key column. *)
Definition to_pandas (df : list match_row) : list HighDensity.observation :=
  map (fun r =>
         {| HighDensity.o_route_key := None;
            HighDensity.o_vehicle_type := vehicle_type r;
            HighDensity.o_carrier_price := carrier_price r |})
      df.

(** What the page shows after the form is submitted. *)
Inductive page : Type :=
| EnterBothPostcodes
| LookupFailed
| Results (matches_3_letter_recent : list match_row)
          (optimal_price : option Q)
| ErrorShown
| NotEnoughRecentMatches
| NoDataAvailable.

Section Submit.

Variable get_lat_lon_from_api : string -> option (Q * Q).
Variables radians sin cos asin sqrt : Q -> Q.
Variable np_std : list Q -> Q.
Variable gaussian_kde : list Q -> Q -> Q -> option (Q -> Q).

Definition all_vehicle_types : string := "All vehicle types".

Definition default_target_bandwidth : Q := 5.

(** The dataset handed to the search. *)
Definition df_filtered (df : list shipment) (selected_vehicle_type : string)
  : list shipment :=
  if String.eqb selected_vehicle_type all_vehicle_types then df
  else
    filter_rows
      (fun r => str_eq (s_vehicle_type r) (Some selected_vehicle_type)) df.

Definition on_submit (df : list shipment) (one_year_ago : datetime)
  (origin_postcode dest_postcode selected_vehicle_type : string) : page :=
  match origin_postcode, dest_postcode with
  | EmptyString, _ | _, EmptyString => EnterBothPostcodes
  | _, _ =>
      match SimilarRoutes.find_similar_routes_by_postcode
              get_lat_lon_from_api radians sin cos asin sqrt
              (df_filtered df selected_vehicle_type)
              origin_postcode dest_postcode None with
      | None => LookupFailed
      | Some (matches_3_letter, within_10km, within_20km, matches_2_letter) =>
          let matches_3_letter_recent :=
            filter_rows (since one_year_ago) matches_3_letter in
          if (25 <=? List.length matches_3_letter_recent)%nat
          then
            match HighDensity.identify_optimal_price np_std gaussian_kde
                    (to_pandas matches_3_letter_recent) None None
                    default_target_bandwidth with
            | HighDensity.Returned optimal_price =>
                Results matches_3_letter_recent optimal_price
            | HighDensity.Raised => ErrorShown
            end
          else if (0 <? List.length matches_3_letter_recent)%nat
          then NotEnoughRecentMatches
          else NoDataAvailable
      end
  end.

End Submit.
End App.

(* ================================================================== *)
(** * Sample data *)
(* ================================================================== *)

Module Samples.
Import Frame.
Local Open Scope string_scope.

Definition on_day (y : Z) : datetime :=
  {| dt_year := y; dt_month := 6%Z; dt_day := 15%Z |}.

(** A tier row with the given postcodes, price and pickup year. *)
Definition load (o d : string) (p : Q) (y : Z) : match_row :=
  {| origin_postcode := Some o;
     destination_postcode := Some d;
     carrier_price := Some p;
     vehicle_type := Some "Van";
     pickup_date := Some (on_day y);
     contract_type := None;
     shipper_price := None;
     carrier_name := None;
     shipper_id := None |}.

(** The same lane written with and without spacing and capitals. *)
Definition spaced : match_row := load "AB1 2CD" "EF3 4GH" 100 2025.
Definition packed : match_row := load "ab12cd" "EF34GH" 100 2025.

(** Two loads at 100 and one at 200 on one lane. *)
Definition lane : list match_row :=
  [ load "AB1 2CD" "EF3 4GH" 100 2025;
    load "AB1 2CD" "EF3 4GH" 100 2025;
    load "EF3 4GH" "AB1 2CD" 200 2025 ].

(** A load whose pickup lies in the year after the current one. *)
Definition booked_ahead : match_row := load "AB1 2CD" "EF3 4GH" 100 2027.

Definition no_price : match_row :=
  {| origin_postcode := Some "AB1 2CD";
     destination_postcode := Some "EF3 4GH";
     carrier_price := None;
     vehicle_type := Some "Van";
     pickup_date := Some (on_day 2025);
     contract_type := None;
     shipper_price := None;
     carrier_name := None;
     shipper_id := None |}.

(** A dataset row with the given postcodes and coordinates. *)
Definition shipped (o d : string) (origin dest : option Q * option Q)
  (p : Q) : shipment :=
  {| s_origin_postcode := Some o;
     s_origin_lat := fst origin;
     s_origin_lon := snd origin;
     s_destination_postcode := Some d;
     s_dest_lat := fst dest;
     s_dest_lon := snd dest;
     s_vehicle_type := Some "Van";
     s_pickup_date := Some (on_day 2025);
     s_contract_type := None;
     s_journey_distance := None;
     s_load_id := None;
     s_shipper_price := None;
     s_shipper_id := None;
     s_carrier_price := Some p;
     s_carrier_name := None |}.

(** A geocoder that knows two places, and stand-ins for the real
    functions of the haversine formula (the identity). *)
Definition two_places (postcode : string) : option (Q * Q) :=
  if String.eqb postcode "AB12CD" then Some (57, -2)
  else if String.eqb postcode "EF34GH" then Some (51, 0)
  else None.

Definition same (x : Q) : Q := x.

(** A load between the two places with its coordinates, and the same
    load with the origin latitude missing. *)
Definition located : shipment :=
  shipped "AB1 2CD" "EF3 4GH" (Some 57, Some (-2)) (Some 51, Some 0) 100.
Definition unlocated : shipment :=
  shipped "ab1 2cd" "ef3 4gh" (None, Some (-2)) (Some 51, Some 0) 120.


(** Observations for the density-peak estimator.  A box kernel stands
    in for the Gaussian density: the number of prices within one
    bandwidth of the point; it cannot be built for a zero bandwidth.
    The population variance stands in for [np.std], its square root: in
    exact arithmetic it vanishes on the same columns, and the box kernel
    does not read the spread. *)
Definition priced (p : Q) : HighDensity.observation :=
  {| HighDensity.o_route_key := None;
     HighDensity.o_vehicle_type := Some "Van";
     HighDensity.o_carrier_price := Some p |}.

Definition box_kernel (costs : list Q) (target_bandwidth : Q)
  (spread : Q) : option (Q -> Q) :=
  if Qeq_bool target_bandwidth 0 then None
  else
    Some (fun x =>
            of_nat (List.length
                      (filter (fun c => Qle_bool (c - target_bandwidth) x
                                        && Qle_bool x (c + target_bandwidth))
                              costs))).

Definition variance (l : list Q) : Q :=
  sq_dev l / of_nat (List.length l).

(** Clusters at 120 (two prices) and at 180 (four prices). *)
Definition two_modes : list HighDensity.observation :=
  map priced [100; 120; 120; 150; 180; 180; 180; 180; 200].

(** Prices piled up at both ends of the range: the curve has no inner
    maximum. *)
Definition no_modes : list HighDensity.observation :=
  map priced [100; 100; 100; 110; 200; 200; 200; 200; 200; 200].

Definition three_prices : list HighDensity.observation :=
  map priced [100; 110; 120].

Definition identical_prices : list HighDensity.observation :=
  map priced [250; 250; 250; 250; 250; 250].

(** The sample search: both loads, looked up from the first place to
    the second; and the two loads as tier rows. *)
Definition sample_search : option SimilarRoutes.tiers :=
  SimilarRoutes.find_similar_routes_by_postcode
    two_places same same same same same
    [located; unlocated] "ab1 2cd" "EF3 4GH" None.

Definition located_row : match_row := load "AB1 2CD" "EF3 4GH" 100 2025.
Definition unlocated_row : match_row := load "ab1 2cd" "ef3 4gh" 120 2025.

(** A geocoding service that knows two outcodes and no full postcode,
    and a world in which nothing was cached or requested yet. *)
Definition service (url : string) : option (Q * Q) :=
  if String.eqb url (Geocoding.outcodes_url "AB12") then Some (57, -2)
  else if String.eqb url (Geocoding.outcodes_url "EF3") then Some (51, 0)
  else None.

Definition fresh : Geocoding.world :=
  {| Geocoding.postcode_cache := []; Geocoding.requests := [] |}.

(** Twenty-five loads between the two places: five at 100, fifteen at
    150 and five at 200; and what the search keeps of each load. *)
Definition busy_prices : list Q :=
  repeat 100 5 ++ repeat 150 15 ++ repeat 200 5.

Definition busy : list shipment :=
  map (shipped "AB1 2CD" "EF3 4GH" (Some 57, Some (-2)) (Some 51, Some 0))
      busy_prices.

Definition busy_rows : list match_row :=
  map (fun p => load "AB1 2CD" "EF3 4GH" p 2025) busy_prices.

(** A coordinate cache with one entry, and rounding to the nearest
    multiple of [10^-ndigits] as a stand-in for [round]. *)
Definition one_place (key : Q * Q) : option string :=
  if Qeq_bool (fst key) 57 && Qeq_bool (snd key) (-2) then Some "AB1 2CD"
  else None.

Definition nearest (x : Q) (ndigits : nat) : Q :=
  let scale := inject_Z (10 ^ Z.of_nat ndigits) in
  inject_Z (Qfloor (x * scale + (1 # 2))) / scale.

(** Loads whose origin postcode is an outcode only: one with coordinates
    the cache knows, one without coordinates. *)
Definition outcode_known : shipment :=
  shipped "AB1" "EF3 4GH" (Some (57001 # 1000), Some (-2)) (Some 51, Some 0)
    100.
Definition outcode_unlocated : shipment :=
  shipped "AB1" "EF3 4GH" (None, Some (-2)) (Some 51, Some 0) 100.

End Samples.

(* ================================================================== *)
(** * Vocabulary of the statements *)
(* ================================================================== *)

Import Frame.

Section Vocabulary.

Import PriceEstimator HighDensity.

(** ** Route keys *)

(** The smaller and the larger of two strings in byte order. *)
Definition str_min (a b : string) : string :=
  if String.leb a b then a else b.
Definition str_max (a b : string) : string :=
  if String.leb a b then b else a.

(** ** Rows and groups of the per-tier statistic *)

(** A row counts towards the statistic when its carrier price is present
    and not zero and its pickup date is present. *)
Definition qualifying (r : match_row) : Prop :=
  exists p d,
    carrier_price r = Some p /\ ~ p == 0 /\ pickup_date r = Some d.

Definition unpriceable (r : match_row) : Prop :=
  carrier_price r = None
  \/ (exists p, carrier_price r = Some p /\ p == 0)
  \/ pickup_date r = None.

(** The rows kept by the filter, as rows of the input. *)
Definition kept (df : list match_row) : list match_row :=
  filter (fun r => keeps (priceable r)) df.

(** Number of rows held by a list of groups. *)
Definition held (gs : list members) : nat :=
  fold_right Nat.add 0%nat (map (fun g => S (List.length (snd g))) gs).

(** The representatives of the groups: one row per group. *)
Definition reps (gs : list members) : list priced_row :=
  map (fun g => fst (fst g)) gs.

(** No two representatives share a key. *)
Definition distinct_keys (l : list priced_row) : Prop :=
  ForallOrdPairs (fun a b => same_group a b = false) l.

(** Two groups have the same key. *)
Definition same_key (g h : group) : Prop :=
  g_route_key g = g_route_key h /\ g_carrier_price g == g_carrier_price h.

(** Equality of nullable rationals, up to the representation of the
    fraction. *)
Definition opt_Qeq (a b : option Q) : Prop :=
  match a, b with
  | Some x, Some y => x == y
  | None, None => True
  | _, _ => False
  end.

(** Every value of the first column occurs in the second. *)
Definition covered (l1 l2 : list Q) : Prop :=
  forall x, In x l1 -> exists y, In y l2 /\ x == y.

(** ** Pools of the tiered fallback *)

Section Pools.

Variable current_year : Z.
Variable min_count : Z.
Variable use_time_weighting : bool.

(** A pool of rows meets the threshold when its statistic exists and
    its [valid_count] is at least the minimum count. *)
Definition meets_threshold (df : list match_row) : Prop :=
  exists s,
    estimate_price_from_df current_year df use_time_weighting = Some s
    /\ (min_count <= Z.of_nat (valid_count s))%Z.

(** The first pool of a list for which [try_tier] succeeds. *)
Fixpoint first_tier (pools : list (list match_row * string))
  : option stats :=
  match pools with
  | [] => None
  | (df, label) :: rest =>
      match try_tier current_year min_count df label use_time_weighting with
      | Some result => Some result
      | None => first_tier rest
      end
  end.

End Pools.

(** The four pools with their labels, in the order of evaluation. *)
Definition combinations (matches_3 within_10 within_20 matches_2
                         : list match_row)
  : list (list match_row * string) :=
  [ (matches_3, label_1);
    (matches_3 ++ within_10, label_2);
    (matches_3 ++ within_10 ++ within_20, label_3);
    (matches_3 ++ within_10 ++ within_20 ++ matches_2, label_4) ].

(** ** Matching tiers *)

Definition has_null_coordinate (r : shipment) : Prop :=
  s_origin_lat r = None \/ s_origin_lon r = None
  \/ s_dest_lat r = None \/ s_dest_lon r = None.

(** The filter of a distance tier: base filter and distance predicate. *)
Definition distance_filter (vehicle_type : option string) (km : Q)
  (e : SimilarRoutes.enriched) : kleene :=
  kand (SimilarRoutes.combined_filter vehicle_type e)
       (SimilarRoutes.within km e).

(** ** Density-peak estimator *)

(** The non-null carrier prices left after the optional filters. *)
Definition selected_costs (df : list observation)
  (route_key vehicle_type : option string) : list Q :=
  dropna (map o_carrier_price
            (filter_if_given o_vehicle_type vehicle_type
               (filter_if_given o_route_key route_key df))).

(** The interquartile range when it is positive, else the standard
    deviation as [np_std] computes it. *)
Definition spread_of (np_std : list Q -> Q) (costs : list Q) : Q :=
  if Qle_bool (iqr costs) 0 then np_std costs else iqr costs.

(** The bins of width [w] start at the integer multiples of [w]; the bin
    with left edge [b] holds the prices from [b] up to, but not
    including, [b + w]. *)
Definition bin_edge (w b : Q) : Prop :=
  exists k : Z, b == inject_Z k * w.

Definition in_bin (w b x : Q) : bool :=
  Qle_bool b x && negb (Qle_bool (b + w) x).

Definition bin_count (w b : Q) (costs : list Q) : nat :=
  List.length (filter (in_bin w b) costs).

(** The bin values that the fallback counts: those of the rows left
    after the optional filters that are not NaN. *)
Definition cost_groups (target_bandwidth : Q) (df : list observation)
  (route_key vehicle_type : option string) : list Q :=
  not_nan (map (fun r => cost_group target_bandwidth (o_carrier_price r))
               (filter_if_given o_vehicle_type vehicle_type
                  (filter_if_given o_route_key route_key df))).

(** The bin value of a price for a bandwidth that is not zero. *)
Definition floor_multiple (w p : Q) : Q :=
  inject_Z (Qfloor (p / w)) * w.

(** All values of a column equal [c]. *)
Definition all_equal (c : Q) (l : list Q) : Prop :=
  forall x, In x l -> x == c.

(** Number of occurrences of a value in a column. *)
Definition occurrences (v : Q) (l : list Q) : nat :=
  List.length (filter (Qeq_bool v) l).

(** The samples [l .. r] of the curve form a flat run that the curve
    rises into and falls out of. *)
Definition flat_top (x : list Q) (l r : nat) : Prop :=
  (0 < l)%nat /\ (l <= r)%nat /\ (r + 1 < List.length x)%nat
  /\ nth (l - 1) x 0 < nth l x 0
  /\ nth (r + 1) x 0 < nth r x 0
  /\ forall k, (l <= k <= r)%nat -> nth k x 0 == nth l x 0.

(** A local maximum of the curve, reported by the middle of its flat
    run. *)
Definition local_maximum (x : list Q) (p : nat) : Prop :=
  exists l r, flat_top x l r /\ p = ((l + r) / 2)%nat.

(** The least index that [scan] can still report: the start of the
    pending flat run, or the current index when none is pending. *)
Definition scan_floor (i : nat) (rise : option nat) : nat :=
  match rise with Some start => start | None => i end.

(** What [scan] knows about the part of the curve [w] it has read: the
    samples [xs] left to read start at index [i], and [prev] is the
    sample before them. *)
Definition scan_state (w : list Q) (i : nat) (prev : Q) (xs : list Q)
  : Prop :=
  (0 < i)%nat
  /\ (forall k, nth (i + k) w 0 = nth k xs 0)
  /\ List.length w = (i + List.length xs)%nat
  /\ prev = nth (i - 1) w 0.

(** A pending rise at [st]: the curve rose into [st] and stayed flat up
    to the sample before [i]. *)
Definition pending (w : list Q) (i : nat) (rise : option nat) : Prop :=
  forall st, rise = Some st ->
    (0 < st < i)%nat
    /\ nth (st - 1) w 0 < nth st w 0
    /\ forall k, (st <= k < i)%nat -> nth k w 0 == nth st w 0.

End Vocabulary.

(* ================================================================== *)
(** * Vocabulary of the further properties *)
(* ================================================================== *)

Section FurtherVocabulary.

Import PriceEstimator HighDensity Geocoding.

(** ** Geocoding lookup *)

(** The URLs a lookup of a cleaned postcode falls back through. *)
Definition attempts (postcode : string) : list string :=
  (if (4 <? String.length postcode)%nat
   then [postcodes_url postcode; outcodes_url (prefix 4 postcode)]
   else [])
  ++ (if (3 <=? String.length postcode)%nat
      then [outcodes_url (prefix 3 postcode)]
      else []).

(** Asking the URLs in turn up to the first answer: the answer, and the
    URLs asked. *)
Fixpoint try_urls (http : string -> option (Q * Q)) (urls : list string)
  : option (Q * Q) * list string :=
  match urls with
  | [] => (None, [])
  | u :: rest =>
      match http u with
      | Some v => (Some v, [u])
      | None => let '(r, asked) := try_urls http rest in (r, u :: asked)
      end
  end.

(** What the service alone says about a cleaned postcode. *)
Definition resolve (http : string -> option (Q * Q)) (postcode : string)
  : option (Q * Q) :=
  fst (try_urls http (attempts postcode)).

(** Every cached entry is what the service says. *)
Definition coherent (http : string -> option (Q * Q)) (c : cache) : Prop :=
  forall k v, lookup k c = Some v -> resolve http k = Some v.

(** ** Weighted average *)

(** The finite float [a] has the value [q]. *)
Definition has_value (a : f64) (q : Q) : Prop :=
  exists x, a = Finite x /\ x == q.

(** The rows of a group under construction. *)
Definition rows_of (g : members) : list (priced_row * f64) :=
  fst g :: snd g.

(** Sum of the prices, each multiplied by its weight, and sum of the
    weights, over rows with rational weights. *)
Definition weighted_prices (l : list (Q * Q)) : Q :=
  qsum (map (fun pw => fst pw * snd pw) l).
Definition total_weight (l : list (Q * Q)) : Q := qsum (map snd l).

(** The value of a float, read as 0 when it is not finite. *)
Definition value_of (a : f64) : Q :=
  match a with Finite q => q | NonFinite => 0 end.

(** A weighted row as the pair of its price and its weight. *)
Definition rated (x : priced_row * f64) : Q * Q :=
  (price (fst x), value_of (snd x)).

(** The weight is a positive finite number. *)
Definition positive_weight (a : f64) : Prop :=
  exists q, a = Finite q /\ 0 < q.

(** The rows of a group have the key of its first row. *)
Definition uniform (g : members) : Prop :=
  forall x, In x (rows_of g) -> same_group (fst x) (fst (fst g)) = true.

(** ** Loading *)

(** Two rows agree in every column but the two postcodes. *)
Definition same_but_postcodes (r r' : shipment) : Prop :=
  s_origin_lat r' = s_origin_lat r
  /\ s_origin_lon r' = s_origin_lon r
  /\ s_dest_lat r' = s_dest_lat r
  /\ s_dest_lon r' = s_dest_lon r
  /\ s_vehicle_type r' = s_vehicle_type r
  /\ s_pickup_date r' = s_pickup_date r
  /\ s_contract_type r' = s_contract_type r
  /\ s_journey_distance r' = s_journey_distance r
  /\ s_load_id r' = s_load_id r
  /\ s_shipper_price r' = s_shipper_price r
  /\ s_shipper_id r' = s_shipper_id r
  /\ s_carrier_price r' = s_carrier_price r
  /\ s_carrier_name r' = s_carrier_name r.

(** A postcode of more than three characters. *)
Definition long_postcode (p : option string) : Prop :=
  exists s, p = Some s /\ (3 < String.length s)%nat.

(** The cache entry for a pair of coordinates rounded to two places;
    none when a coordinate is missing. *)
Definition cached_postcode (postcode_cache : Q * Q -> option string)
  (round : Q -> nat -> Q) (lat lon : option Q) : option string :=
  match lat, lon with
  | Some la, Some lo => postcode_cache (round la 2%nat, round lo 2%nat)
  | _, _ => None
  end.

(** What the two passes of the loader do to one row. *)
Definition filled_row (postcode_cache : Q * Q -> option string)
  (round : Q -> nat -> Q) (r : shipment) : shipment :=
  let updated := DataLoader.updated_postcode postcode_cache round 2 in
  DataLoader.with_postcode DataLoader.destination
    (updated (s_dest_lat r) (s_dest_lon r) (s_destination_postcode r))
    (DataLoader.with_postcode DataLoader.origin
       (updated (s_origin_lat r) (s_origin_lon r) (s_origin_postcode r))
       r).

End FurtherVocabulary.

(* ================================================================== *)
(** * Properties of the three-valued logic *)
(* ================================================================== *)

Lemma keeps_true (k : kleene) : keeps k = true <-> k = Some true.
Proof.
  destruct k as [[|]|]; simpl; split; intros H; congruence.
Qed.

Lemma kand_true (a b : kleene) :
  kand a b = Some true <-> a = Some true /\ b = Some true.
Proof.
  destruct a as [[|]|], b as [[|]|]; simpl;
    (split; [intros H; split | intros [H1 H2]]); congruence.
Qed.

Lemma kor_true (a b : kleene) :
  kor a b = Some true <-> a = Some true \/ b = Some true.
Proof.
  destruct a as [[|]|], b as [[|]|]; simpl;
    (split; [intros H | intros [H | H]]); auto; congruence.
Qed.

(* ================================================================== *)
(** * Properties of the route key *)
(* ================================================================== *)

(** Swapping the two postcodes leaves the key expression unchanged. *)
Lemma route_key_expr_comm (a b : option string) :
  PriceEstimator.route_key_expr a b = PriceEstimator.route_key_expr b a.
Proof.
  destruct a as [a|], b as [b|]; try reflexivity.
  unfold PriceEstimator.route_key_expr, str_lt, lift2, String.ltb; simpl.
  rewrite (String.compare_antisym b a).
  destruct (String.compare a b) eqn:E; simpl; try reflexivity.
  apply String.compare_eq_iff in E. now subst.
Qed.

Lemma route_key_expr_ordered (a b : string) :
  PriceEstimator.route_key_expr (Some a) (Some b)
  = Some (str_min a b ++ " - " ++ str_max a b)%string.
Proof.
  unfold PriceEstimator.route_key_expr, str_lt, lift2, str_min, str_max,
    String.ltb, String.leb; simpl.
  destruct (String.compare a b) eqn:E; simpl; try reflexivity.
  apply String.compare_eq_iff in E. now subst.
Qed.

(** C7. The route key is symmetric: computed from origin [a] and
    destination [b] it equals the key computed from origin [b] and
    destination [a], for all postcodes, null ones included. *)
Theorem route_key_symmetric (a b : option string) :
  PriceEstimator.route_key_expr a b = PriceEstimator.route_key_expr b a.
Proof. apply route_key_expr_comm. Qed.

(** C8, as stated, fails: two records whose postcodes differ only in
    spacing and case (they normalise to the same strings) receive
    different route keys, because the key is built from the stored
    postcodes. *)
Lemma route_key_not_normalised :
  omap clean_postcode (origin_postcode Samples.spaced)
  = omap clean_postcode (origin_postcode Samples.packed)
  /\ omap clean_postcode (destination_postcode Samples.spaced)
     = omap clean_postcode (destination_postcode Samples.packed)
  /\ map snd (PriceEstimator.create_route_key [Samples.spaced])
     = [Some "AB1 2CD - EF3 4GH"%string]
  /\ map snd (PriceEstimator.create_route_key [Samples.packed])
     = [Some "EF34GH - ab12cd"%string]
  /\ map snd (PriceEstimator.create_route_key [Samples.spaced])
     <> map snd (PriceEstimator.create_route_key [Samples.packed]).
Proof.
  repeat split; try reflexivity.
  vm_compute. discriminate.
Qed.

(** C8, amended.  The route key of a record is built from its two
    postcodes as stored, without normalisation: the smaller string in
    byte-wise lexicographic order, the separator " - ", the larger
    string; it is null when a postcode is null.  Hence two records with
    the same stored postcodes, in the same or in swapped roles, receive
    the same route key. *)
Theorem route_key_from_stored_postcodes :
  (forall df : list match_row,
      map snd (PriceEstimator.create_route_key df)
      = map (fun r => PriceEstimator.route_key_expr
                        (origin_postcode r) (destination_postcode r)) df)
  /\ (forall a b : string,
         PriceEstimator.route_key_expr (Some a) (Some b)
         = Some (str_min a b ++ " - " ++ str_max a b)%string)
  /\ (forall a : option string,
         PriceEstimator.route_key_expr a None = None
         /\ PriceEstimator.route_key_expr None a = None)
  /\ (forall r1 r2 : match_row,
         (origin_postcode r1 = origin_postcode r2
          /\ destination_postcode r1 = destination_postcode r2)
         \/ (origin_postcode r1 = destination_postcode r2
             /\ destination_postcode r1 = origin_postcode r2) ->
         map snd (PriceEstimator.create_route_key [r1])
         = map snd (PriceEstimator.create_route_key [r2])).
Proof.
  split; [| split; [| split]].
  - intros df. unfold PriceEstimator.create_route_key.
    rewrite map_map. reflexivity.
  - apply route_key_expr_ordered.
  - intros [a|]; split; reflexivity.
  - intros r1 r2 [[Ho Hd] | [Ho Hd]]; simpl; rewrite Ho, Hd.
    + reflexivity.
    + now rewrite route_key_expr_comm.
Qed.

(** The amended statement at two loads of one lane in opposite
    directions. *)
Lemma route_key_from_stored_postcodes_witness :
  map snd (PriceEstimator.create_route_key
             [Samples.load "EF3 4GH" "AB1 2CD" 200 2025])
  = map snd (PriceEstimator.create_route_key
               [Samples.load "AB1 2CD" "EF3 4GH" 100 2025]).
Proof.
  apply (proj2 (proj2 (proj2 route_key_from_stored_postcodes))).
  right. split; reflexivity.
Defined.

(* ================================================================== *)
(** * Properties of the per-tier statistic *)
(* ================================================================== *)

Lemma priceable_spec (r : match_row) :
  keeps (PriceEstimator.priceable r) = true <-> qualifying r.
Proof.
  unfold PriceEstimator.priceable, qualifying.
  rewrite keeps_true, !kand_true.
  destruct (carrier_price r) as [p|], (pickup_date r) as [d|]; simpl.
  - destruct (Qeq_bool p 0) eqn:E; simpl.
    + apply Qeq_bool_iff in E. split.
      * intros [[_ H] _]. discriminate.
      * intros (p' & d' & Hp & Hn & _). injection Hp as <-. tauto.
    + apply Qeq_bool_neq in E. split.
      * intros _. exists p, d. auto.
      * auto.
  - split; [intros [_ H] | intros (? & ? & _ & _ & H)]; discriminate.
  - split; [intros [[H _] _] | intros (? & ? & H & _)]; discriminate.
  - split; [intros [[H _] _] | intros (? & ? & H & _)]; discriminate.
Qed.

Lemma unpriceable_spec (r : match_row) :
  keeps (PriceEstimator.priceable r) = false <-> unpriceable r.
Proof.
  unfold PriceEstimator.priceable, unpriceable.
  destruct (carrier_price r) as [p|], (pickup_date r) as [d|]; simpl.
  - destruct (Qeq_bool p 0) eqn:E; simpl.
    + apply Qeq_bool_iff in E. split; [| reflexivity].
      intros _. right. left. exists p. auto.
    + apply Qeq_bool_neq in E. split; [discriminate |].
      intros [H | [(p' & Hp & Hz) | H]]; try discriminate.
      injection Hp as <-. tauto.
  - destruct (Qeq_bool p 0); simpl; split; auto.
  - split; auto.
  - split; auto.
Qed.

Lemma filtered_df_cons (r : match_row) (df : list match_row) :
  PriceEstimator.filtered_df (r :: df)
  = (if keeps (PriceEstimator.priceable r)
     then PriceEstimator.cast_row
            (r, PriceEstimator.route_key_expr
                  (origin_postcode r) (destination_postcode r))
     else [])
    ++ PriceEstimator.filtered_df df.
Proof.
  unfold PriceEstimator.filtered_df, filter_rows,
    PriceEstimator.create_route_key; simpl.
  destruct (keeps (PriceEstimator.priceable r)); reflexivity.
Qed.

Lemma cast_row_priceable (r : match_row) (k : option string) :
  keeps (PriceEstimator.priceable r) = true ->
  exists p d,
    carrier_price r = Some p /\ pickup_date r = Some d
    /\ PriceEstimator.cast_row (r, k)
       = [ {| PriceEstimator.route_key := k;
              PriceEstimator.price := p;
              PriceEstimator.pickup := d |} ].
Proof.
  intros H. apply priceable_spec in H. destruct H as (p & d & Hp & _ & Hd).
  exists p, d. unfold PriceEstimator.cast_row; simpl.
  rewrite Hp, Hd. auto.
Qed.

(** The filter and the cast keep one typed row per kept input row. *)
Lemma filtered_df_length (df : list match_row) :
  List.length (PriceEstimator.filtered_df df) = List.length (kept df).
Proof.
  induction df as [| r df IH]; [reflexivity |].
  rewrite filtered_df_cons, length_app, IH. unfold kept; simpl.
  destruct (keeps (PriceEstimator.priceable r)) eqn:E; [| reflexivity].
  destruct (cast_row_priceable r
              (PriceEstimator.route_key_expr
                 (origin_postcode r) (destination_postcode r)) E)
    as (p & d & _ & _ & ->).
  reflexivity.
Qed.

Lemma filtered_df_prices (df : list match_row) :
  map (fun r => Some (PriceEstimator.price r)) (PriceEstimator.filtered_df df)
  = map carrier_price (kept df).
Proof.
  induction df as [| r df IH]; [reflexivity |].
  rewrite filtered_df_cons, map_app, IH. unfold kept; simpl.
  destruct (keeps (PriceEstimator.priceable r)) eqn:E; [| reflexivity].
  destruct (cast_row_priceable r
              (PriceEstimator.route_key_expr
                 (origin_postcode r) (destination_postcode r)) E)
    as (p & d & Hp & _ & ->).
  simpl. now rewrite Hp.
Qed.

Lemma kept_nil_iff (df : list match_row) :
  kept df = [] <-> forall r, In r df -> unpriceable r.
Proof.
  unfold kept. split.
  - intros H r Hr. apply unpriceable_spec.
    destruct (keeps (PriceEstimator.priceable r)) eqn:E; [| reflexivity].
    assert (Hin : In r (filter (fun r => keeps (PriceEstimator.priceable r)) df))
      by (apply filter_In; auto).
    rewrite H in Hin. destruct Hin.
  - intros H. induction df as [| r df IH]; [reflexivity |].
    simpl. assert (Hr : unpriceable r) by (apply H; left; reflexivity).
    apply unpriceable_spec in Hr. rewrite Hr.
    apply IH. intros r' Hr'. apply H. right. exact Hr'.
Qed.

Lemma estimate_price_from_df_none (cy : Z) (df : list match_row) (tw : bool) :
  PriceEstimator.estimate_price_from_df cy df tw = None <-> kept df = [].
Proof.
  unfold PriceEstimator.estimate_price_from_df.
  destruct df as [| r df]; [split; reflexivity |].
  pose proof (filtered_df_length (r :: df)) as L.
  destruct (PriceEstimator.filtered_df (r :: df)) as [| x l];
    destruct (kept (r :: df)) as [| y k]; simpl in L; try discriminate;
    split; intros; auto; discriminate.
Qed.

(** C9. [estimate_price_from_df] returns no estimate on the empty
    dataset and on every dataset in which each row lacks a carrier
    price, has a zero carrier price, or lacks a pickup date; it returns
    an estimate in every other case.  The function is total, so no
    exception stands in for a result. *)
Theorem no_estimate_without_priceable_rows
  (current_year : Z) (df : list match_row) (use_time_weighting : bool) :
  (forall r, In r df -> unpriceable r) <->
  PriceEstimator.estimate_price_from_df current_year df use_time_weighting
  = None.
Proof.
  rewrite estimate_price_from_df_none. symmetry. apply kept_nil_iff.
Qed.

(** C9 on the empty dataset and on a dataset whose only row has a null
    price. *)
Lemma no_estimate_without_priceable_rows_witness :
  PriceEstimator.estimate_price_from_df 2026 [] true = None
  /\ PriceEstimator.estimate_price_from_df 2026 [Samples.no_price] false
     = None.
Proof.
  split.
  - apply (proj1 (no_estimate_without_priceable_rows 2026 [] true)).
    intros r [].
  - apply (proj1 (no_estimate_without_priceable_rows
                    2026 [Samples.no_price] false)).
    intros r [<- | []]. left. reflexivity.
Defined.

Lemma filtered_df_In (df : list match_row) (r : PriceEstimator.priced_row) :
  In r (PriceEstimator.filtered_df df) ->
  exists m,
    In m df /\ qualifying m
    /\ carrier_price m = Some (PriceEstimator.price r)
    /\ pickup_date m = Some (PriceEstimator.pickup r)
    /\ PriceEstimator.route_key r
       = PriceEstimator.route_key_expr
           (origin_postcode m) (destination_postcode m).
Proof.
  induction df as [| m df IH]; [intros [] |].
  rewrite filtered_df_cons, in_app_iff. intros [H | H].
  - destruct (keeps (PriceEstimator.priceable m)) eqn:E; [| destruct H].
    destruct (cast_row_priceable m
                (PriceEstimator.route_key_expr
                   (origin_postcode m) (destination_postcode m)) E)
      as (p & d & Hp & Hd & Hc).
    rewrite Hc in H. destruct H as [<- | []].
    exists m. simpl.
    split; [left; reflexivity |].
    split; [now apply priceable_spec |].
    auto.
  - destruct (IH H) as (m' & Hin & Hrest).
    exists m'. split; [right; exact Hin | exact Hrest].
Qed.

Lemma inject_Z_eq_bool_zero (z : Z) :
  Qeq_bool (inject_Z z) 0 = (z =? 0)%Z.
Proof.
  unfold Qeq_bool; simpl. now rewrite Z.mul_1_r.
Qed.

(** C5, as stated, fails: a qualifying row picked up in the year after
    the current one has [years_ago = -1], which is negative, and its
    weight is the quotient of one by zero. *)
Lemma years_ago_negative_for_later_pickup :
  exists r,
    PriceEstimator.filtered_df [Samples.booked_ahead] = [r]
    /\ PriceEstimator.df_with_weight true 2026 [r]
       = [(r, PriceEstimator.time_weight true 2026 r)]
    /\ PriceEstimator.years_ago 2026 r = (-1)%Z
    /\ ~ (0 <= PriceEstimator.years_ago 2026 r)%Z
    /\ PriceEstimator.time_weight true 2026 r = NonFinite.
Proof.
  eexists. split; [reflexivity |].
  repeat split; try reflexivity.
  vm_compute. intros H. apply H. reflexivity.
Qed.

(** C5, amended.  Every row of the weighted frame stems from a
    qualifying input row.  With time weighting, a row whose pickup year
    is not after the current calendar year has the weight
    [1 / (years_ago + 1)], where [years_ago], the current calendar year
    minus the pickup year, is a non-negative integer, 0 for a pickup in
    the current year.  In general the weight is the float quotient of 1
    by [years_ago + 1], and [years_ago] is non-negative only for those
    rows.  Without time weighting every weight is 1. *)
Theorem time_weight_of_qualifying_rows
  (current_year : Z) (use_time_weighting : bool) (df : list match_row)
  (r : PriceEstimator.priced_row) (w : f64) :
  In (r, w)
     (PriceEstimator.df_with_weight use_time_weighting current_year
        (PriceEstimator.filtered_df df)) ->
  let years_ago := PriceEstimator.years_ago current_year r in
  let pickup_year := dt_year (PriceEstimator.pickup r) in
  (exists m, In m df /\ qualifying m
             /\ pickup_date m = Some (PriceEstimator.pickup r))
  /\ (use_time_weighting = false -> w = Finite 1)
  /\ (use_time_weighting = true ->
      w = fdiv (Finite 1) (Finite (inject_Z (years_ago + 1)))
      /\ years_ago = (current_year - pickup_year)%Z
      /\ ((pickup_year <= current_year)%Z <-> (0 <= years_ago)%Z)
      /\ ((pickup_year <= current_year)%Z ->
          w = Finite (1 / inject_Z (years_ago + 1)))
      /\ (pickup_year = current_year -> years_ago = 0%Z)).
Proof.
  intros Hin years_ago pickup_year.
  unfold PriceEstimator.df_with_weight in Hin.
  apply in_map_iff in Hin. destruct Hin as (r' & Heq & Hr').
  injection Heq as -> <-.
  split; [| split].
  - destruct (filtered_df_In _ _ Hr') as (m & Hm & Hq & _ & Hd & _).
    exists m. auto.
  - intros ->. reflexivity.
  - intros ->. unfold PriceEstimator.time_weight.
    subst years_ago pickup_year. unfold PriceEstimator.years_ago.
    repeat split; try lia.
    + intros Hle. unfold fdiv. rewrite inject_Z_eq_bool_zero.
      destruct (Z.eqb_spec
                  (current_year - dt_year (PriceEstimator.pickup r) + 1) 0);
        [lia | reflexivity].
Qed.

(** The amended C5 at a load picked up one year before the current
    year: its weight is one half. *)
Lemma time_weight_of_qualifying_rows_witness :
  exists r,
    dt_year (PriceEstimator.pickup r) = 2025%Z
    /\ PriceEstimator.years_ago 2026 r = 1%Z
    /\ Finite (1 / inject_Z (PriceEstimator.years_ago 2026 r + 1))
       = Finite (1 / inject_Z 2).
Proof.
  pose (r := {| PriceEstimator.route_key := Some "AB1 2CD - EF3 4GH"%string;
                PriceEstimator.price := 100;
                PriceEstimator.pickup := Samples.on_day 2025 |}).
  exists r.
  assert (Hin : In (r, Finite (1 / inject_Z 2))
                  (PriceEstimator.df_with_weight true 2026
                     (PriceEstimator.filtered_df [Samples.spaced])))
    by (left; reflexivity).
  pose proof (time_weight_of_qualifying_rows 2026 true [Samples.spaced]
                r (Finite (1 / inject_Z 2)) Hin) as H.
  destruct H as (_ & _ & H). destruct (H eq_refl) as (_ & Hy & _ & Hw & _).
  split; [reflexivity |]. split; [exact Hy |].
  symmetry. apply Hw. simpl. lia.
Defined.

(* ================================================================== *)
(** * Properties of the matching tiers *)
(* ================================================================== *)

Section MatchingFacts.

Variable get_lat_lon_from_api : string -> option (Q * Q).
Variables radians sin cos asin sqrt : Q -> Q.

Local Abbreviation haversine_expr :=
  (SimilarRoutes.haversine_expr radians sin cos asin sqrt).
Local Abbreviation enrich := (SimilarRoutes.enrich radians sin cos asin sqrt).
Local Abbreviation find_similar_routes_by_postcode :=
  (SimilarRoutes.find_similar_routes_by_postcode
     get_lat_lon_from_api radians sin cos asin sqrt).

Lemma q_le_monotone (x : option Q) (a b : Q) :
  a <= b -> q_le x (Some a) = Some true -> q_le x (Some b) = Some true.
Proof.
  intros Hab. destruct x as [x|]; simpl; [| discriminate].
  intros H. injection H as H. apply Qle_bool_iff in H.
  f_equal. apply Qle_bool_iff. lra.
Qed.

(** Widening the threshold keeps every row of a distance tier. *)
Lemma within_monotone (a b : Q) (e : SimilarRoutes.enriched) :
  a <= b ->
  SimilarRoutes.within a e = Some true ->
  SimilarRoutes.within b e = Some true.
Proof.
  intros Hab. unfold SimilarRoutes.within.
  rewrite !kor_true, !kand_true.
  intros [[H1 H2] | [H1 H2]]; [left | right];
    split; eapply q_le_monotone; eauto.
Qed.

Lemma distance_filter_monotone (vt : option string) (a b : Q)
  (e : SimilarRoutes.enriched) :
  a <= b ->
  keeps (distance_filter vt a e) = true ->
  keeps (distance_filter vt b e) = true.
Proof.
  intros Hab. unfold distance_filter.
  rewrite !keeps_true, !kand_true.
  intros [Hc Hw]. split; [exact Hc |].
  eapply within_monotone; eauto.
Qed.

Lemma find_similar_routes_inv (df : list shipment) (o d : string)
  (vt : option string) (t : SimilarRoutes.tiers) :
  find_similar_routes_by_postcode df o d vt = Some t ->
  exists target_origin target_dest,
    get_lat_lon_from_api (clean_postcode o) = Some target_origin
    /\ get_lat_lon_from_api (clean_postcode d) = Some target_dest
    /\ t = (SimilarRoutes.tier vt
              (SimilarRoutes.prefix_match
                 SimilarRoutes.origin_prefix_3 SimilarRoutes.dest_prefix_3
                 (prefix 3 (clean_postcode o)) (prefix 3 (clean_postcode d)))
              (map (enrich target_origin target_dest) df),
            SimilarRoutes.tier vt (SimilarRoutes.within 10)
              (map (enrich target_origin target_dest) df),
            SimilarRoutes.tier vt (SimilarRoutes.within 20)
              (map (enrich target_origin target_dest) df),
            SimilarRoutes.tier vt
              (SimilarRoutes.prefix_match
                 SimilarRoutes.origin_prefix_2 SimilarRoutes.dest_prefix_2
                 (prefix 2 (clean_postcode o)) (prefix 2 (clean_postcode d)))
              (map (enrich target_origin target_dest) df)).
Proof.
  unfold SimilarRoutes.find_similar_routes_by_postcode.
  destruct (get_lat_lon_from_api (clean_postcode o)) as [to|]; [| discriminate].
  destruct (get_lat_lon_from_api (clean_postcode d)) as [td|]; [| discriminate].
  intros H. injection H as <-. exists to, td. auto.
Qed.

(** C6. Every record that satisfies the within-10km tier predicate
    under the base filter also satisfies the within-20km tier predicate,
    whatever the target coordinates and the distance function are; so
    the 20 km tier returned by [find_similar_routes_by_postcode] contains
    every row of the 10 km tier. *)
Theorem within_10km_implies_within_20km :
  (forall (target_origin target_dest : Q * Q) (vehicle_type : option string)
          (r : shipment),
      let e := enrich target_origin target_dest r in
      keeps (distance_filter vehicle_type 10 e) = true ->
      keeps (distance_filter vehicle_type 20 e) = true)
  /\ (forall (df : list shipment) (origin dest : string)
             (vehicle_type : option string) m3 w10 w20 m2,
         find_similar_routes_by_postcode df origin dest vehicle_type
         = Some (m3, w10, w20, m2) ->
         forall x, In x w10 -> In x w20).
Proof.
  split.
  - intros to td vt r e. apply distance_filter_monotone. lra.
  - intros df o d vt m3 w10 w20 m2 H x.
    apply find_similar_routes_inv in H.
    destruct H as (to & td & _ & _ & H). injection H as _ -> -> _.
    unfold SimilarRoutes.tier, filter_rows. rewrite !in_map_iff.
    intros (e & He & Hin). exists e. split; [exact He |].
    apply filter_In in Hin. apply filter_In.
    destruct Hin as [Hin Hk]. split; [exact Hin |].
    apply (distance_filter_monotone vt (a := 10) (b := 20)); [lra | exact Hk].
Qed.

Lemma haversine_expr_null (lat1 lon1 : option Q) (lat2 lon2 : Q) :
  lat1 = None \/ lon1 = None -> haversine_expr lat1 lon1 lat2 lon2 = None.
Proof.
  intros [H | H]; subst; [destruct lon1 | destruct lat1]; reflexivity.
Qed.

Lemma q_le_null (b : option Q) : q_le None b = None.
Proof. reflexivity. Qed.

Lemma kand_null_l (b : kleene) : kand None b <> Some true.
Proof. destruct b as [[|]|]; discriminate. Qed.

Lemma kand_null_r (a : kleene) : kand a None <> Some true.
Proof. destruct a as [[|]|]; discriminate. Qed.

(** A row with a missing coordinate satisfies no distance predicate:
    each of the two directions needs one distance from the row's origin
    and one from its destination. *)
Lemma within_null_coordinate (target_origin target_dest : Q * Q)
  (km : Q) (r : shipment) :
  has_null_coordinate r ->
  SimilarRoutes.within km (enrich target_origin target_dest r) <> Some true.
Proof.
  intros Hnull. unfold SimilarRoutes.within; simpl.
  rewrite kor_true.
  assert (Ho : s_origin_lat r = None \/ s_origin_lon r = None
               \/ (s_dest_lat r = None \/ s_dest_lon r = None))
    by exact Hnull.
  destruct Ho as [Ho | [Ho | Hd]].
  - rewrite !(haversine_expr_null _ _ (or_introl Ho)), !q_le_null.
    intros [H | H]; revert H; apply kand_null_l.
  - rewrite !(haversine_expr_null _ _ (or_intror Ho)), !q_le_null.
    intros [H | H]; revert H; apply kand_null_l.
  - rewrite !(haversine_expr_null _ _ Hd),
      !q_le_null.
    intros [H | H]; revert H; apply kand_null_r.
Qed.

Lemma distance_filter_null_coordinate (target_origin target_dest : Q * Q)
  (vt : option string) (km : Q) (r : shipment) :
  has_null_coordinate r ->
  keeps (distance_filter vt km (enrich target_origin target_dest r)) = false.
Proof.
  intros Hnull.
  destruct (keeps (distance_filter vt km (enrich target_origin target_dest r)))
    eqn:E; [| reflexivity].
  apply keeps_true in E. unfold distance_filter in E.
  apply kand_true in E. destruct E as [_ E].
  now apply within_null_coordinate in E.
Qed.

Lemma tier_In (vt : option string) (p : SimilarRoutes.enriched -> kleene)
  (df : list SimilarRoutes.enriched) (e : SimilarRoutes.enriched) :
  In e df ->
  SimilarRoutes.combined_filter vt e = Some true ->
  p e = Some true ->
  In (SimilarRoutes.select_required e) (SimilarRoutes.tier vt p df).
Proof.
  intros Hin Hc Hp. unfold SimilarRoutes.tier, filter_rows.
  apply in_map. apply filter_In. split; [exact Hin |].
  apply keeps_true. apply kand_true. auto.
Qed.

(** C10. The rows kept for the within-10km and the within-20km tier all
    have their four coordinates: a record of the dataset with a null
    origin or destination latitude or longitude is dropped by the filter
    of both tiers.  Its coordinates play no part in the prefix tiers:
    such a record is in the 3-letter (2-letter) tier as soon as it
    passes the base filter and its prefixes match. *)
Theorem null_coordinates_only_in_prefix_tiers
  (df : list shipment) (origin dest : string) (vehicle_type : option string)
  (m3 w10 w20 m2 : list match_row) :
  find_similar_routes_by_postcode df origin dest vehicle_type
  = Some (m3, w10, w20, m2) ->
  exists target_origin target_dest,
    let rows := map (enrich target_origin target_dest) df in
    let kept_10 := filter_rows (distance_filter vehicle_type 10) rows in
    let kept_20 := filter_rows (distance_filter vehicle_type 20) rows in
    w10 = map SimilarRoutes.select_required kept_10
    /\ w20 = map SimilarRoutes.select_required kept_20
    /\ (forall e, In e kept_10 \/ In e kept_20 ->
                  In (SimilarRoutes.source e) df
                  /\ ~ has_null_coordinate (SimilarRoutes.source e))
    /\ (forall r, In r df -> has_null_coordinate r ->
                  let e := enrich target_origin target_dest r in
                  SimilarRoutes.combined_filter vehicle_type e = Some true ->
                  (SimilarRoutes.prefix_match
                     SimilarRoutes.origin_prefix_3 SimilarRoutes.dest_prefix_3
                     (prefix 3 (clean_postcode origin))
                     (prefix 3 (clean_postcode dest)) e = Some true ->
                   In (SimilarRoutes.select_required e) m3)
                  /\ (SimilarRoutes.prefix_match
                        SimilarRoutes.origin_prefix_2 SimilarRoutes.dest_prefix_2
                        (prefix 2 (clean_postcode origin))
                        (prefix 2 (clean_postcode dest)) e = Some true ->
                      In (SimilarRoutes.select_required e) m2)).
Proof.
  intros H. apply find_similar_routes_inv in H.
  destruct H as (to & td & _ & _ & H). injection H as -> -> -> ->.
  exists to, td. cbv zeta.
  split; [reflexivity |]. split; [reflexivity |]. split.
  - assert (G : forall km e,
               In e (filter_rows (distance_filter vehicle_type km)
                       (map (enrich to td) df)) ->
               In (SimilarRoutes.source e) df
               /\ ~ has_null_coordinate (SimilarRoutes.source e)).
    { intros km e Hin. unfold filter_rows in Hin.
      apply filter_In in Hin. destruct Hin as [Hin Hk].
      apply in_map_iff in Hin. destruct Hin as (r & <- & Hr).
      simpl. split; [exact Hr |].
      intros Hnull.
      rewrite (distance_filter_null_coordinate to td vehicle_type km Hnull)
        in Hk.
      discriminate. }
    intros e [Hin | Hin]; eapply G; eauto.
  - intros r Hr _ Hc. split; intros Hp.
    + apply tier_In; auto. now apply in_map.
    + apply tier_In; auto. now apply in_map.
Qed.

End MatchingFacts.

Lemma sample_search_tiers :
  Samples.sample_search
  = Some ([Samples.located_row; Samples.unlocated_row],
          [Samples.located_row],
          [Samples.located_row],
          [Samples.located_row; Samples.unlocated_row]).
Proof. vm_compute. reflexivity. Qed.

(** C6 on the sample search: the located load is in the 10 km tier and
    hence in the 20 km tier. *)
Lemma within_10km_implies_within_20km_witness :
  exists m3 w10 w20 m2,
    Samples.sample_search = Some (m3, w10, w20, m2)
    /\ In Samples.located_row w10
    /\ In Samples.located_row w20.
Proof.
  exists [Samples.located_row; Samples.unlocated_row],
         [Samples.located_row], [Samples.located_row],
         [Samples.located_row; Samples.unlocated_row].
  assert (H : In Samples.located_row [Samples.located_row])
    by (left; reflexivity).
  split; [exact sample_search_tiers |]. split; [exact H |].
  exact (proj2 (within_10km_implies_within_20km
                  Samples.two_places Samples.same Samples.same
                  Samples.same Samples.same Samples.same)
           [Samples.located; Samples.unlocated] "ab1 2cd"%string
           "EF3 4GH"%string None
           [Samples.located_row; Samples.unlocated_row]
           [Samples.located_row] [Samples.located_row]
           [Samples.located_row; Samples.unlocated_row]
           sample_search_tiers Samples.located_row H).
Defined.

(** C10 on the sample search: the load without origin latitude is in
    the 3-letter and in the 2-letter tier, and in neither distance tier,
    although it lies where the located load does. *)
Lemma null_coordinates_only_in_prefix_tiers_witness :
  exists m3 w10 w20 m2,
    Samples.sample_search = Some (m3, w10, w20, m2)
    /\ has_null_coordinate Samples.unlocated
    /\ In Samples.unlocated_row m3
    /\ In Samples.unlocated_row m2
    /\ ~ In Samples.unlocated_row w10
    /\ ~ In Samples.unlocated_row w20.
Proof.
  exists [Samples.located_row; Samples.unlocated_row],
         [Samples.located_row], [Samples.located_row],
         [Samples.located_row; Samples.unlocated_row].
  assert (Hin : In Samples.unlocated [Samples.located; Samples.unlocated])
    by (right; left; reflexivity).
  assert (Hnull : has_null_coordinate Samples.unlocated)
    by (left; reflexivity).
  destruct (null_coordinates_only_in_prefix_tiers
              Samples.two_places Samples.same Samples.same
              Samples.same Samples.same Samples.same
              [Samples.located; Samples.unlocated] "ab1 2cd" "EF3 4GH" None
              sample_search_tiers)
    as (to & td & _ & _ & _ & H).
  destruct (H Samples.unlocated Hin Hnull eq_refl) as [H3 H2].
  split; [exact sample_search_tiers |]. split; [exact Hnull |].
  split; [exact (H3 eq_refl) |]. split; [exact (H2 eq_refl) |].
  split; intros [E | []]; discriminate E.
Defined.

(* ================================================================== *)
(** * Properties of the grouping *)
(* ================================================================== *)

Section GroupingFacts.

Import PriceEstimator.

Lemma opt_str_eqb_refl (a : option string) : opt_str_eqb a a = true.
Proof. destruct a as [a|]; simpl; [apply String.eqb_refl | reflexivity]. Qed.

Lemma opt_str_eqb_eq (a b : option string) :
  opt_str_eqb a b = true <-> a = b.
Proof.
  destruct a as [a|], b as [b|]; simpl; split; intros H;
    try discriminate; try reflexivity.
  - apply String.eqb_eq in H. now subst.
  - injection H as ->. apply String.eqb_refl.
Qed.

Lemma same_group_spec (a b : priced_row) :
  same_group a b = true <-> route_key a = route_key b /\ price a == price b.
Proof.
  unfold same_group.
  rewrite andb_true_iff, opt_str_eqb_eq, Qeq_bool_iff. tauto.
Qed.

Lemma same_group_refl (a : priced_row) : same_group a a = true.
Proof. apply same_group_spec. split; reflexivity. Qed.

Lemma same_group_sym (a b : priced_row) : same_group a b = same_group b a.
Proof.
  destruct (same_group a b) eqn:E1, (same_group b a) eqn:E2; auto.
  - apply same_group_spec in E1. destruct E1 as [H1 H2].
    assert (same_group b a = true)
      by (apply same_group_spec; split; [auto | now symmetry]).
    congruence.
  - apply same_group_spec in E2. destruct E2 as [H1 H2].
    assert (same_group a b = true)
      by (apply same_group_spec; split; [auto | now symmetry]).
    congruence.
Qed.

Lemma add_to_groups_held (r : priced_row * f64) (gs : list members) :
  held (add_to_groups r gs) = S (held gs).
Proof.
  induction gs as [| g gs IH]; [reflexivity |].
  simpl. destruct (same_group (fst r) (fst (fst g))).
  - unfold held; simpl. rewrite length_app; simpl. lia.
  - unfold held in *; simpl. rewrite IH. lia.
Qed.

Lemma fold_add_held (df : list (priced_row * f64)) (gs : list members) :
  held (fold_left (fun gs r => add_to_groups r gs) df gs)
  = (List.length df + held gs)%nat.
Proof.
  revert gs. induction df as [| r df IH]; intros gs; [reflexivity |].
  simpl. rewrite IH, add_to_groups_held. lia.
Qed.

Lemma group_by_held (df : list (priced_row * f64)) :
  held (group_by df) = List.length df.
Proof.
  unfold group_by. rewrite fold_add_held. unfold held; simpl. lia.
Qed.

Lemma volume_sum_held (gs : list members) :
  fold_right Nat.add 0%nat (map volume (map agg gs)) = held gs.
Proof.
  unfold held. rewrite map_map. reflexivity.
Qed.

Lemma reps_add_to_groups (r : priced_row * f64) (gs : list members) :
  reps (add_to_groups r gs)
  = if existsb (fun a => same_group (fst r) a) (reps gs)
    then reps gs
    else reps gs ++ [fst r].
Proof.
  induction gs as [| g gs IH]; [reflexivity |].
  simpl. destruct (same_group (fst r) (fst (fst g))); simpl; [reflexivity |].
  unfold reps in *; simpl. rewrite IH.
  destruct (existsb _ _); reflexivity.
Qed.

Lemma distinct_keys_snoc (l : list priced_row) (r : priced_row) :
  distinct_keys l ->
  existsb (fun a => same_group r a) l = false ->
  distinct_keys (l ++ [r]).
Proof.
  unfold distinct_keys. induction 1 as [| a l Ha Hl IH]; intros Hex; simpl.
  - constructor; constructor.
  - simpl in Hex. apply orb_false_iff in Hex. destruct Hex as [Hra Hex].
    constructor.
    + apply Forall_app. split; [exact Ha |].
      constructor; [| constructor]. now rewrite same_group_sym.
    + now apply IH.
Qed.

Lemma fold_add_reps (df : list (priced_row * f64)) (gs : list members) :
  distinct_keys (reps gs) ->
  let gs' := fold_left (fun gs r => add_to_groups r gs) df gs in
  distinct_keys (reps gs')
  /\ (forall a, In a (reps gs') -> In a (reps gs) \/ In a (map fst df))
  /\ (forall a, In a (reps gs) -> In a (reps gs'))
  /\ (forall a, In a (map fst df) ->
                exists b, In b (reps gs') /\ same_group a b = true).
Proof.
  revert gs. induction df as [| r df IH]; intros gs Hd; simpl.
  - split; [exact Hd |]. split; [auto |]. split; [auto |]. intros a [].
  - assert (Hd' : distinct_keys (reps (add_to_groups r gs))).
    { rewrite reps_add_to_groups.
      destruct (existsb _ _) eqn:E; [exact Hd |].
      now apply distinct_keys_snoc. }
    assert (Hsub : forall a, In a (reps gs) ->
                             In a (reps (add_to_groups r gs))).
    { intros a Ha. rewrite reps_add_to_groups.
      destruct (existsb _ _); [exact Ha |].
      apply in_app_iff. now left. }
    destruct (IH _ Hd') as (H1 & H2 & H3 & H4).
    split; [exact H1 |]. split; [| split].
    + intros a Ha. apply H2 in Ha. rewrite reps_add_to_groups in Ha.
      destruct (existsb _ _); destruct Ha as [Ha | Ha]; auto.
      apply in_app_iff in Ha. destruct Ha as [Ha | [<- | []]]; auto.
    + intros a Ha. apply H3, Hsub, Ha.
    + intros a [<- | Ha]; [| now apply H4].
      destruct (existsb (fun b => same_group (fst r) b) (reps gs)) eqn:E.
      * apply existsb_exists in E. destruct E as (b & Hb & Hs).
        exists b. split; [apply H3, Hsub, Hb | exact Hs].
      * exists (fst r). split; [| apply same_group_refl].
        apply H3. rewrite reps_add_to_groups, E.
        apply in_app_iff. right. left. reflexivity.
Qed.

(** The groups of a frame: pairwise distinct keys, each represented by
    a row of the frame, and every row of the frame falls in one. *)
Lemma group_by_reps (df : list (priced_row * f64)) :
  distinct_keys (reps (group_by df))
  /\ (forall a, In a (reps (group_by df)) -> In a (map fst df))
  /\ (forall a, In a (map fst df) ->
                exists b, In b (reps (group_by df)) /\ same_group a b = true).
Proof.
  destruct (@fold_add_reps df []) as (H1 & H2 & _ & H4).
  - constructor.
  - split; [exact H1 |]. split; [| exact H4].
    intros a Ha. destruct (H2 a Ha) as [[] | H]. exact H.
Qed.

Lemma grouped_prices (tw : bool) (cy : Z) (rows : list priced_row) :
  map g_carrier_price (grouped tw cy rows)
  = map price (reps (group_by (df_with_weight tw cy rows))).
Proof.
  unfold grouped, reps. rewrite !map_map. reflexivity.
Qed.

Lemma df_with_weight_rows (tw : bool) (cy : Z) (rows : list priced_row) :
  map fst (df_with_weight tw cy rows) = rows.
Proof.
  unfold df_with_weight. rewrite map_map; simpl. apply map_id.
Qed.

Lemma valid_count_rows (tw : bool) (cy : Z) (rows : list priced_row) :
  valid_count (select_stats (grouped tw cy rows)) = List.length rows.
Proof.
  unfold select_stats, grouped; simpl.
  rewrite volume_sum_held, group_by_held.
  unfold df_with_weight. apply length_map.
Qed.

End GroupingFacts.

(* ================================================================== *)
(** * Properties of the column aggregations *)
(* ================================================================== *)

Lemma qmin_cases (a b : Q) :
  (qmin a b = a \/ qmin a b = b) /\ qmin a b <= a /\ qmin a b <= b.
Proof.
  unfold qmin. destruct (Qle_bool a b) eqn:E.
  - apply Qle_bool_iff in E. repeat split; auto; lra.
  - assert (~ a <= b) by (rewrite <- Qle_bool_iff; congruence).
    repeat split; auto; lra.
Qed.

Lemma qmax_cases (a b : Q) :
  (qmax a b = a \/ qmax a b = b) /\ a <= qmax a b /\ b <= qmax a b.
Proof.
  unfold qmax. destruct (Qle_bool a b) eqn:E.
  - apply Qle_bool_iff in E. repeat split; auto; lra.
  - assert (~ a <= b) by (rewrite <- Qle_bool_iff; congruence).
    repeat split; auto; lra.
Qed.

Lemma fold_qmin_spec (t : list Q) (x : Q) :
  In (fold_left qmin t x) (x :: t)
  /\ forall y, In y (x :: t) -> fold_left qmin t x <= y.
Proof.
  revert x. induction t as [| a t IH]; intros x; simpl.
  - split; [auto |]. intros y [<- | []]. lra.
  - destruct (IH (qmin x a)) as [Hin Hle].
    destruct (qmin_cases x a) as (Hc & Hx & Ha).
    split.
    + destruct Hin as [Hin | Hin]; [| auto].
      rewrite <- Hin. destruct Hc as [-> | ->]; auto.
    + intros y [<- | [<- | Hy]].
      * assert (fold_left qmin t (qmin x a) <= qmin x a)
          by (apply Hle; left; reflexivity). lra.
      * assert (fold_left qmin t (qmin x a) <= qmin x a)
          by (apply Hle; left; reflexivity). lra.
      * apply Hle. right. exact Hy.
Qed.

Lemma fold_qmax_spec (t : list Q) (x : Q) :
  In (fold_left qmax t x) (x :: t)
  /\ forall y, In y (x :: t) -> y <= fold_left qmax t x.
Proof.
  revert x. induction t as [| a t IH]; intros x; simpl.
  - split; [auto |]. intros y [<- | []]. lra.
  - destruct (IH (qmax x a)) as [Hin Hle].
    destruct (qmax_cases x a) as (Hc & Hx & Ha).
    split.
    + destruct Hin as [Hin | Hin]; [| auto].
      rewrite <- Hin. destruct Hc as [-> | ->]; auto.
    + intros y [<- | [<- | Hy]].
      * assert (qmax x a <= fold_left qmax t (qmax x a))
          by (apply Hle; left; reflexivity). lra.
      * assert (qmax x a <= fold_left qmax t (qmax x a))
          by (apply Hle; left; reflexivity). lra.
      * apply Hle. right. exact Hy.
Qed.

(** The minimum of a column is one of its values and a lower bound. *)
Lemma col_min_spec (l : list Q) (m : Q) :
  col_min l = Some m -> In m l /\ forall y, In y l -> m <= y.
Proof.
  destruct l as [| x t]; simpl; [discriminate |].
  intros H. injection H as <-. apply fold_qmin_spec.
Qed.

Lemma col_max_spec (l : list Q) (m : Q) :
  col_max l = Some m -> In m l /\ forall y, In y l -> y <= m.
Proof.
  destruct l as [| x t]; simpl; [discriminate |].
  intros H. injection H as <-. apply fold_qmax_spec.
Qed.

Lemma covered_nil (l : list Q) : covered l [] -> l = [].
Proof.
  destruct l as [| x l]; [reflexivity |].
  intros H. destruct (H x (or_introl eq_refl)) as (y & [] & _).
Qed.

(** Columns with the same values have the same minimum and maximum. *)
Lemma col_min_covered (l1 l2 : list Q) :
  covered l1 l2 -> covered l2 l1 -> opt_Qeq (col_min l1) (col_min l2).
Proof.
  intros H12 H21.
  destruct (col_min l1) as [m1|] eqn:E1, (col_min l2) as [m2|] eqn:E2; simpl.
  - apply col_min_spec in E1, E2.
    destruct E1 as [I1 L1], E2 as [I2 L2].
    destruct (H12 _ I1) as (y & Hy & Ey).
    destruct (H21 _ I2) as (x & Hx & Ex).
    apply L2 in Hy. apply L1 in Hx. lra.
  - destruct l2; [| discriminate]. apply covered_nil in H12.
    subst. discriminate.
  - destruct l1; [| discriminate]. apply covered_nil in H21.
    subst. discriminate.
  - exact I.
Qed.

Lemma col_max_covered (l1 l2 : list Q) :
  covered l1 l2 -> covered l2 l1 -> opt_Qeq (col_max l1) (col_max l2).
Proof.
  intros H12 H21.
  destruct (col_max l1) as [m1|] eqn:E1, (col_max l2) as [m2|] eqn:E2; simpl.
  - apply col_max_spec in E1, E2.
    destruct E1 as [I1 L1], E2 as [I2 L2].
    destruct (H12 _ I1) as (y & Hy & Ey).
    destruct (H21 _ I2) as (x & Hx & Ex).
    apply L2 in Hy. apply L1 in Hx. lra.
  - destruct l2; [| discriminate]. apply covered_nil in H12.
    subst. discriminate.
  - destruct l1; [| discriminate]. apply covered_nil in H21.
    subst. discriminate.
  - exact I.
Qed.

(* ================================================================== *)
(** * The statistics of [estimate_price_from_df] *)
(* ================================================================== *)

Section StatisticsFacts.

Import PriceEstimator.

Lemma ForallOrdPairs_map {A B} (f : A -> B) (R : B -> B -> Prop)
  (l : list A) :
  ForallOrdPairs (fun a b => R (f a) (f b)) l ->
  ForallOrdPairs R (map f l).
Proof.
  induction 1 as [| a l Ha Hl IH]; simpl; constructor.
  - apply Forall_map. exact Ha.
  - exact IH.
Qed.

Lemma estimate_price_from_df_some (cy : Z) (df : list match_row) (tw : bool)
  (s : stats) :
  estimate_price_from_df cy df tw = Some s ->
  s = select_stats (grouped tw cy (filtered_df df)).
Proof.
  unfold estimate_price_from_df. destruct df as [| r df]; [discriminate |].
  destruct (filtered_df (r :: df)); [discriminate |].
  intros H. injection H as <-. reflexivity.
Qed.

(** The count of a returned statistic is the number of qualifying rows,
    each counted as often as it occurs. *)
Lemma valid_count_kept (cy : Z) (df : list match_row) (tw : bool) (s : stats) :
  estimate_price_from_df cy df tw = Some s ->
  valid_count s = List.length (kept df).
Proof.
  intros H. apply estimate_price_from_df_some in H. subst s.
  rewrite valid_count_rows. apply filtered_df_length.
Qed.

Lemma grouped_keys (tw : bool) (cy : Z) (rows : list priced_row) :
  let groups := grouped tw cy rows in
  ForallOrdPairs (fun g h => ~ same_key g h) groups
  /\ (forall g, In g groups ->
                exists r, In r rows /\ g_route_key g = route_key r
                          /\ g_carrier_price g = price r)
  /\ (forall r, In r rows ->
                exists g, In g groups /\ g_route_key g = route_key r
                          /\ g_carrier_price g == price r).
Proof.
  destruct (group_by_reps (df_with_weight tw cy rows)) as (H1 & H2 & H3).
  rewrite df_with_weight_rows in H2, H3.
  unfold grouped. cbv zeta. split; [| split].
  - apply ForallOrdPairs_map. unfold distinct_keys, reps in H1.
    remember (group_by (df_with_weight tw cy rows)) as gs eqn:E.
    clear E H2 H3.
    induction gs as [| g gs IH]; [constructor |].
    simpl in H1. inversion H1 as [| a l Ha Hl]; subst.
    constructor; [| now apply IH].
    rewrite Forall_forall in *. intros h Hh [K1 K2].
    assert (Hs : same_group (fst (fst g)) (fst (fst h)) = false)
      by (apply Ha; apply in_map_iff; exists h; auto).
    assert (same_group (fst (fst g)) (fst (fst h)) = true)
      by (apply same_group_spec; split; assumption).
    congruence.
  - intros g Hg. apply in_map_iff in Hg. destruct Hg as (m & <- & Hm).
    exists (fst (fst m)). split; [| split; reflexivity].
    apply H2. unfold reps. apply in_map_iff. exists m. auto.
  - intros r Hr. destruct (H3 r Hr) as (b & Hb & Hs).
    unfold reps in Hb. apply in_map_iff in Hb. destruct Hb as (m & <- & Hm).
    exists (agg m). split; [now apply in_map |].
    apply same_group_spec in Hs. destruct Hs as [K1 K2]. simpl.
    split; [now symmetry | now symmetry].
Qed.

End StatisticsFacts.

(** C2, as stated, fails.  On two loads at 100 and one at 200 on one
    lane the reported mean and median are 150, the mean and the median
    of the two distinct prices; over the three qualifying rows the mean
    is 400/3 and the median is 100.  The count is 3. *)
Lemma avg_cost_counts_each_price_once :
  exists s,
    PriceEstimator.estimate_price_from_df 2026 Samples.lane false = Some s
    /\ map PriceEstimator.price (PriceEstimator.filtered_df Samples.lane)
       = [100; 100; 200]
    /\ PriceEstimator.avg_cost s = Some (300 # 2)
    /\ mean [100; 100; 200] = Some (400 # 3)
    /\ ~ opt_Qeq (PriceEstimator.avg_cost s) (mean [100; 100; 200])
    /\ PriceEstimator.median_cost s = Some (300 # 2)
    /\ median [100; 100; 200] = Some 100
    /\ ~ opt_Qeq (PriceEstimator.median_cost s) (median [100; 100; 200])
    /\ PriceEstimator.valid_count s = 3%nat.
Proof.
  eexists. split; [reflexivity |].
  repeat (split; [reflexivity |]).
  split; [vm_compute; discriminate |].
  repeat (split; [reflexivity |]).
  split; [vm_compute; discriminate | reflexivity].
Qed.

(** C2, amended.  In [estimate_price_from_df] the mean, the median and
    the sample standard deviation (divisor n - 1) of the carrier price
    are taken over the groups, in which every distinct pair of route key
    and price present among the qualifying rows occurs once; minimum
    and maximum, taken over the groups as well, equal those over all
    qualifying rows; and [valid_count], the sum of the group volumes, is
    the number of qualifying rows. *)
Theorem statistics_over_price_groups
  (current_year : Z) (df : list match_row) (use_time_weighting : bool)
  (s : PriceEstimator.stats) :
  PriceEstimator.estimate_price_from_df current_year df use_time_weighting
  = Some s ->
  let rows := PriceEstimator.filtered_df df in
  let groups := PriceEstimator.grouped use_time_weighting current_year rows in
  let group_prices := map PriceEstimator.g_carrier_price groups in
  let row_prices := map PriceEstimator.price rows in
  let n := List.length group_prices in
  map Some row_prices = map carrier_price (kept df)
  /\ ForallOrdPairs (fun g h => ~ same_key g h) groups
  /\ (forall g, In g groups ->
        exists r, In r rows
                  /\ PriceEstimator.g_route_key g = PriceEstimator.route_key r
                  /\ PriceEstimator.g_carrier_price g = PriceEstimator.price r)
  /\ (forall r, In r rows ->
        exists g, In g groups
                  /\ PriceEstimator.g_route_key g = PriceEstimator.route_key r
                  /\ PriceEstimator.g_carrier_price g == PriceEstimator.price r)
  /\ PriceEstimator.avg_cost s = mean group_prices
  /\ PriceEstimator.median_cost s = median group_prices
  /\ PriceEstimator.stddev_cost s
     = (if (n <=? 1)%nat then None
        else Some (Sqrt (sq_dev group_prices / of_nat (n - 1))))
  /\ PriceEstimator.min_cost s = col_min group_prices
  /\ PriceEstimator.max_cost s = col_max group_prices
  /\ opt_Qeq (PriceEstimator.min_cost s) (col_min row_prices)
  /\ opt_Qeq (PriceEstimator.max_cost s) (col_max row_prices)
  /\ PriceEstimator.valid_count s
     = fold_right Nat.add 0%nat (map PriceEstimator.volume groups)
  /\ PriceEstimator.valid_count s = List.length (kept df).
Proof.
  intros H rows groups group_prices row_prices n.
  pose proof (valid_count_kept _ _ _ H) as Hcount.
  apply estimate_price_from_df_some in H. subst s.
  destruct (grouped_keys use_time_weighting current_year rows)
    as (K1 & K2 & K3).
  assert (C1 : covered group_prices row_prices).
  { intros x Hx. apply in_map_iff in Hx. destruct Hx as (g & <- & Hg).
    destruct (K2 g Hg) as (r & Hr & _ & Hp).
    exists (PriceEstimator.price r). split; [now apply in_map |].
    rewrite Hp. reflexivity. }
  assert (C2 : covered row_prices group_prices).
  { intros x Hx. apply in_map_iff in Hx. destruct Hx as (r & <- & Hr).
    destruct (K3 r Hr) as (g & Hg & _ & Hp).
    exists (PriceEstimator.g_carrier_price g).
    split; [now apply in_map | now symmetry]. }
  split; [unfold row_prices; rewrite <- filtered_df_prices, map_map; reflexivity |].
  split; [exact K1 |]. split; [exact K2 |]. split; [exact K3 |].
  split; [reflexivity |]. split; [reflexivity |]. split; [reflexivity |].
  split; [reflexivity |]. split; [reflexivity |].
  split; [now apply col_min_covered |].
  split; [now apply col_max_covered |].
  split; [reflexivity | exact Hcount].
Qed.

(** The amended C2 on the lane with two loads at 100 and one at 200. *)
Lemma statistics_over_price_groups_witness :
  exists s,
    PriceEstimator.estimate_price_from_df 2026 Samples.lane false = Some s
    /\ PriceEstimator.avg_cost s = mean [100; 200]
    /\ opt_Qeq (PriceEstimator.min_cost s) (col_min [100; 100; 200])
    /\ PriceEstimator.valid_count s = 3%nat.
Proof.
  eexists. split; [reflexivity |].
  pose proof (statistics_over_price_groups 2026 Samples.lane false eq_refl)
    as H.
  cbv zeta in H.
  destruct H as (_ & _ & _ & _ & Ha & _ & _ & _ & _ & Hmin & _ & _ & Hc).
  split; [exact Ha |]. split; [exact Hmin | exact Hc].
Defined.

(* ================================================================== *)
(** * The tiered fallback of [estimate_price] *)
(* ================================================================== *)

Section FallbackFacts.

Import PriceEstimator.

Variable current_year : Z.
Variable min_count : Z.
Variable use_time_weighting : bool.

Local Abbreviation meets :=
  (meets_threshold current_year min_count use_time_weighting).
Local Abbreviation search :=
  (first_tier current_year min_count use_time_weighting).

Lemma try_tier_some (df : list match_row) (label : string) (r : stats) :
  try_tier current_year min_count df label use_time_weighting = Some r <->
  exists s,
    estimate_price_from_df current_year df use_time_weighting = Some s
    /\ (min_count <= Z.of_nat (valid_count s))%Z
    /\ r = with_explanation s (explain (valid_count s) label).
Proof.
  unfold try_tier.
  destruct (estimate_price_from_df current_year df use_time_weighting)
    as [s|].
  - destruct (Z.leb_spec min_count (Z.of_nat (valid_count s))) as [L | L].
    + split.
      * intros H. injection H as <-. exists s. auto.
      * intros (s' & Hs & _ & ->). injection Hs as <-. reflexivity.
    + split; [discriminate |].
      intros (s' & Hs & Hle & _). injection Hs as <-. lia.
  - split; [discriminate | intros (s' & Hs & _); discriminate].
Qed.

Lemma try_tier_none (df : list match_row) (label : string) :
  try_tier current_year min_count df label use_time_weighting = None <->
  ~ meets df.
Proof.
  unfold meets_threshold. split.
  - intros H (s & Hs & Hle).
    assert (K : try_tier current_year min_count df label use_time_weighting
                = Some (with_explanation s (explain (valid_count s) label)))
      by (apply try_tier_some; exists s; auto).
    congruence.
  - intros H.
    destruct (try_tier current_year min_count df label use_time_weighting)
      as [r|] eqn:E; [| reflexivity].
    apply try_tier_some in E. destruct E as (s & Hs & Hle & _).
    exfalso. apply H. exists s. auto.
Qed.

Lemma first_tier_none (pools : list (list match_row * string)) :
  search pools = None <->
  forall df label, In (df, label) pools -> ~ meets df.
Proof.
  induction pools as [| [df label] rest IH]; simpl.
  - split; [intros _ ? ? [] | reflexivity].
  - destruct (try_tier current_year min_count df label use_time_weighting)
      as [r|] eqn:E.
    + split; [discriminate |]. intros H. exfalso.
      assert (K : ~ meets df) by (eapply H; left; reflexivity).
      apply (try_tier_none df label) in K. congruence.
    + rewrite IH. apply try_tier_none in E. split.
      * intros H d l [K | K]; [injection K as <- <-; exact E | eauto].
      * intros H d l K. eapply H. right. exact K.
Qed.

Lemma first_tier_some (pools : list (list match_row * string)) (r : stats) :
  search pools = Some r <->
  exists k df label s,
    nth_error pools k = Some (df, label)
    /\ (forall j dfj lj, (j < k)%nat -> nth_error pools j = Some (dfj, lj) ->
                         ~ meets dfj)
    /\ estimate_price_from_df current_year df use_time_weighting = Some s
    /\ (min_count <= Z.of_nat (valid_count s))%Z
    /\ r = with_explanation s (explain (valid_count s) label).
Proof.
  revert r. induction pools as [| [df label] rest IH]; intros r; simpl.
  - split; [discriminate |].
    intros (k & d & l & s & H & _). destruct k; discriminate.
  - destruct (try_tier current_year min_count df label use_time_weighting)
      as [r0|] eqn:E.
    + split.
      * intros H. injection H as <-. apply try_tier_some in E.
        destruct E as (s & Hs & Hle & Hr).
        exists 0%nat, df, label, s. simpl.
        split; [reflexivity |]. split; [intros; lia | auto].
      * intros (k & d & l & s & Hk & Hfirst & Hs & Hle & Hr).
        destruct k as [| k].
        -- simpl in Hk. injection Hk as <- <-.
           assert (K : try_tier current_year min_count df label
                         use_time_weighting = Some r)
             by (apply try_tier_some; exists s; auto).
           congruence.
        -- exfalso.
           assert (K : ~ meets df)
             by (apply (Hfirst 0%nat df label); [lia | reflexivity]).
           apply (try_tier_none df label) in K. congruence.
    + rewrite IH. apply try_tier_none in E. split.
      * intros (k & d & l & s & Hk & Hfirst & Hrest).
        exists (S k), d, l, s. split; [exact Hk |]. split; [| exact Hrest].
        intros j dj lj Hj Hn. destruct j as [| j].
        -- simpl in Hn. injection Hn as <- <-. exact E.
        -- simpl in Hn. apply (Hfirst j dj lj); [lia | exact Hn].
      * intros (k & d & l & s & Hk & Hfirst & Hs & Hle & Hr).
        destruct k as [| k].
        -- simpl in Hk. injection Hk as <- <-.
           exfalso. apply E. exists s. auto.
        -- exists k, d, l, s. split; [exact Hk |]. split; [| auto].
           intros j dj lj Hj Hn. apply (Hfirst (S j) dj lj); [lia | exact Hn].
Qed.

Lemma join_dfs_app (m3 w10 w20 m2 : list match_row) :
  join_dfs [m3; w10] = m3 ++ w10
  /\ join_dfs [m3; w10; w20] = m3 ++ w10 ++ w20
  /\ join_dfs [m3; w10; w20; m2] = m3 ++ w10 ++ w20 ++ m2.
Proof.
  unfold join_dfs; simpl. rewrite !app_nil_r. auto.
Qed.

(** [estimate_price] walks through the four pools in order. *)
Lemma estimate_price_first_tier (m3 w10 w20 m2 : list match_row) :
  estimate_price current_year m3 w10 w20 m2 min_count use_time_weighting
  = search (combinations m3 w10 w20 m2).
Proof.
  unfold estimate_price, combinations.
  destruct (join_dfs_app m3 w10 w20 m2) as (-> & -> & ->).
  simpl.
  repeat match goal with
         | |- context [try_tier ?a ?b ?c ?d ?e] =>
             destruct (try_tier a b c d e); try reflexivity
         end.
Qed.

Lemma kept_app (a b : list match_row) :
  List.length (kept (a ++ b))
  = (List.length (kept a) + List.length (kept b))%nat.
Proof.
  unfold kept. rewrite filter_app, length_app. reflexivity.
Qed.

End FallbackFacts.

(** C1. [estimate_price] evaluates four pools in order: the 3-letter
    rows; these followed by the within-10km rows; then also the
    within-20km rows; then also the 2-letter rows.  Each pool is the
    concatenation of its tiers, nothing removed, so the count of a pool
    is the sum of the counts of its parts and a row present in several
    tiers counts once per tier.  The result is the statistic of the
    first pool whose [valid_count] reaches the minimum count (5 by
    default), with the explanation built from that count and the label
    of the pool; it is [None] exactly when no pool reaches the minimum
    count. *)
Theorem estimate_price_first_sufficient_pool
  (current_year : Z)
  (matches_3 within_10 within_20 matches_2 : list match_row)
  (min_count : Z) (use_time_weighting : bool) :
  let result :=
    PriceEstimator.estimate_price current_year
      matches_3 within_10 within_20 matches_2 min_count use_time_weighting in
  let pools := combinations matches_3 within_10 within_20 matches_2 in
  let meets := meets_threshold current_year min_count use_time_weighting in
  (PriceEstimator.join_dfs [matches_3; within_10] = matches_3 ++ within_10
   /\ PriceEstimator.join_dfs [matches_3; within_10; within_20]
      = matches_3 ++ within_10 ++ within_20
   /\ PriceEstimator.join_dfs [matches_3; within_10; within_20; matches_2]
      = matches_3 ++ within_10 ++ within_20 ++ matches_2)
  /\ (forall df s,
         PriceEstimator.estimate_price_from_df current_year df
           use_time_weighting = Some s ->
         PriceEstimator.valid_count s = List.length (kept df))
  /\ (forall a b,
         List.length (kept (a ++ b))
         = (List.length (kept a) + List.length (kept b))%nat)
  /\ (forall r,
         result = Some r <->
         exists k df label s,
           nth_error pools k = Some (df, label)
           /\ (forall j dfj lj,
                  (j < k)%nat -> nth_error pools j = Some (dfj, lj) ->
                  ~ meets dfj)
           /\ PriceEstimator.estimate_price_from_df current_year df
                use_time_weighting = Some s
           /\ (min_count <= Z.of_nat (PriceEstimator.valid_count s))%Z
           /\ r = PriceEstimator.with_explanation s
                    ("Estimated from "
                     ++ PriceEstimator.show_nat (PriceEstimator.valid_count s)
                     ++ " loads; (" ++ label ++ ").")%string)
  /\ (result = None <-> forall df label, In (df, label) pools -> ~ meets df)
  /\ PriceEstimator.default_min_count = 5%Z.
Proof.
  intros result pools meets.
  split; [apply join_dfs_app |].
  split; [intros df s; apply valid_count_kept |].
  split; [apply kept_app |].
  subst result. rewrite estimate_price_first_tier.
  split; [intros r; apply first_tier_some |].
  split; [apply first_tier_none | reflexivity].
Qed.

(** C1 on a lane whose three 3-letter rows are also its within-10km
    rows: the first pool holds 3 rows, short of 5; the second holds each
    row twice and wins with a count of 6. *)
Lemma estimate_price_first_sufficient_pool_witness :
  exists r,
    PriceEstimator.estimate_price 2026 Samples.lane Samples.lane [] []
      PriceEstimator.default_min_count false = Some r
    /\ PriceEstimator.valid_count r = 6%nat
    /\ PriceEstimator.explanation r
       = Some "Estimated from 6 loads; (3-letter prefix + within 10km)."%string.
Proof.
  destruct (estimate_price_first_sufficient_pool 2026
              Samples.lane Samples.lane [] []
              PriceEstimator.default_min_count false)
    as (_ & _ & _ & H & _).
  eexists. split.
  - apply H. exists 1%nat. do 3 eexists.
    split; [reflexivity |]. split; [| split; [reflexivity |]].
    + intros j dfj lj Hj Hn (s & Hs & Hle).
      assert (j = 0%nat) by lia. subst j.
      injection Hn as <- _.
      injection Hs as <-. revert Hle. vm_compute. intros K. apply K.
      reflexivity.
    + split; [vm_compute; discriminate | reflexivity].
  - split; reflexivity.
Defined.

(* ================================================================== *)
(** * Properties of peak detection *)
(* ================================================================== *)

Section PeakFacts.

Import HighDensity.

Lemma half_sum_bounds (a b : nat) :
  (a <= b)%nat -> (a <= (a + b) / 2 <= b)%nat.
Proof.
  intros H. split.
  - apply Nat.div_le_lower_bound; lia.
  - apply Nat.Div0.div_le_upper_bound; lia.
Qed.

Lemma scan_sorted (xs : list Q) (i : nat) (prev : Q) (rise : option nat) :
  (0 < i)%nat ->
  (forall start, rise = Some start -> (start < i)%nat) ->
  Forall (fun p => (scan_floor i rise <= p)%nat) (scan i prev rise xs)
  /\ StronglySorted lt (scan i prev rise xs).
Proof.
  revert i prev rise. induction xs as [| x xs IH]; intros i prev rise Hi Hr.
  - cbn [scan]. split; constructor.
  - cbn [scan]. destruct (Qle_bool x prev).
    + destruct (Qle_bool prev x).
      * destruct (IH (S i) x rise) as [F Hs]; [lia | |].
        { intros st E. specialize (Hr st E). lia. }
        split; [| exact Hs].
        eapply Forall_impl; [| exact F]. intros p Hp.
        destruct rise as [st|]; simpl in *; [exact Hp | lia].
      * destruct (IH (S i) x None) as [F Hs]; [lia | discriminate |].
        simpl in F. destruct rise as [st|].
        -- specialize (Hr st eq_refl).
           destruct (@half_sum_bounds st (i - 1)) as [L U]; [lia |].
           split.
           ++ constructor; [exact L |].
              eapply Forall_impl; [| exact F]. cbv beta.
              unfold scan_floor. intros p Hp. lia.
           ++ constructor; [exact Hs |].
              eapply Forall_impl; [| exact F]. cbv beta.
              intros p Hp. lia.
        -- split; [| exact Hs].
           eapply Forall_impl; [| exact F]. simpl. intros p Hp. lia.
    + destruct (IH (S i) x (Some i)) as [F Hs]; [lia | |].
      { intros st E. injection E as <-. lia. }
      split; [| exact Hs].
      eapply Forall_impl; [| exact F]. simpl. intros p Hp.
      destruct rise as [st|]; simpl.
      * specialize (Hr st eq_refl). lia.
      * exact Hp.
Qed.

(** The peaks come in strictly increasing order of index. *)
Lemma find_peaks_sorted (x : list Q) : StronglySorted lt (find_peaks x).
Proof.
  destruct x as [| x0 rest]; [constructor |].
  apply scan_sorted; [lia | discriminate].
Qed.

(** Every reported index is an inner index of the curve. *)
Lemma scan_range (xs : list Q) (i : nat) (prev : Q) (rise : option nat) :
  (0 < i)%nat ->
  (forall start, rise = Some start -> (start < i)%nat) ->
  Forall (fun p => (p < i + List.length xs - 1)%nat) (scan i prev rise xs).
Proof.
  revert i prev rise. induction xs as [| x xs IH]; intros i prev rise Hi Hr.
  - constructor.
  - cbn [scan]. destruct (Qle_bool x prev).
    + destruct (Qle_bool prev x).
      * eapply Forall_impl; [| apply IH; [lia |]].
        -- simpl. intros p Hp. lia.
        -- intros st E. specialize (Hr st E). lia.
      * assert (F : Forall (fun p => (p < i + List.length (x :: xs) - 1)%nat)
                      (scan (S i) x None xs)).
        { eapply Forall_impl; [| apply IH; [lia | discriminate]].
          simpl. intros p Hp. lia. }
        destruct rise as [st|]; [| exact F].
        constructor; [| exact F].
        specialize (Hr st eq_refl).
        destruct (@half_sum_bounds st (i - 1)) as [L U]; [lia |].
        cbn [List.length]. lia.
    + eapply Forall_impl; [| apply IH; [lia |]].
      * simpl. intros p Hp. lia.
      * intros st E. injection E as <-. lia.
Qed.

Lemma find_peaks_range (x : list Q) (p : nat) :
  In p (find_peaks x) -> (0 < p < List.length x - 1)%nat.
Proof.
  destruct x as [| x0 rest]; simpl; [intros [] |].
  intros Hin. split.
  - destruct (@scan_sorted rest 1%nat x0 None) as [F _];
      [lia | discriminate |].
    rewrite Forall_forall in F. specialize (F p Hin). simpl in F. lia.
  - assert (F : Forall (fun q => (q < 1 + List.length rest - 1)%nat)
                  (scan 1 x0 None rest))
      by (apply scan_range; [lia | discriminate]).
    rewrite Forall_forall in F. specialize (F p Hin). lia.
Qed.

(** The loop returns the first peak of the list that reaches the
    threshold, and nothing when no peak does. *)
Lemma first_valid_peak_some (density : list Q) (thr : f64) (peaks : list nat)
  (idx : nat) :
  first_valid_peak density thr peaks = Some idx <->
  exists before after,
    peaks = before ++ idx :: after
    /\ reaches thr (nth idx density 0) = true
    /\ forall j, In j before -> reaches thr (nth j density 0) = false.
Proof.
  induction peaks as [| p peaks IH]; simpl.
  - split; [discriminate |].
    intros (b & a & H & _). destruct b; discriminate.
  - destruct (reaches thr (nth p density 0)) eqn:E.
    + split.
      * intros H. injection H as <-. exists [], peaks.
        split; [reflexivity |]. split; [exact E |]. intros j [].
      * intros (b & a & H & Hq & Hb). destruct b as [| q b].
        -- simpl in H. injection H as -> _. reflexivity.
        -- simpl in H. injection H as <- _.
           rewrite (Hb p) in E; [discriminate | left; reflexivity].
    + rewrite IH. split.
      * intros (b & a & -> & Hq & Hb). exists (p :: b), a.
        split; [reflexivity |]. split; [exact Hq |].
        intros j [<- | Hj]; auto.
      * intros (b & a & H & Hq & Hb). destruct b as [| q b].
        -- simpl in H. injection H as <- _. congruence.
        -- simpl in H. injection H as <- ->. exists b, a.
           split; [reflexivity |]. split; [exact Hq |].
           intros j Hj. apply Hb. right. exact Hj.
Qed.

Lemma first_valid_peak_none (density : list Q) (thr : f64)
  (peaks : list nat) :
  first_valid_peak density thr peaks = None <->
  forall j, In j peaks -> reaches thr (nth j density 0) = false.
Proof.
  induction peaks as [| p peaks IH]; simpl.
  - split; [intros _ j [] | reflexivity].
  - destruct (reaches thr (nth p density 0)) eqn:E.
    + split; [discriminate |].
      intros H. rewrite (H p) in E; [discriminate | auto].
    + rewrite IH. split.
      * intros H j [<- | Hj]; auto.
      * intros H j Hj. apply H. right. exact Hj.
Qed.

Lemma first_valid_peak_threshold (density : list Q) (t1 t2 : f64)
  (peaks : list nat) :
  (forall v, reaches t1 v = reaches t2 v) ->
  first_valid_peak density t1 peaks = first_valid_peak density t2 peaks.
Proof.
  intros Ht. induction peaks as [| p peaks IH]; simpl; [reflexivity |].
  rewrite IH, Ht. reflexivity.
Qed.

Lemma Qle_bool_ext (a b v : Q) : a == b -> Qle_bool a v = Qle_bool b v.
Proof.
  intros E. destruct (Qle_bool a v) eqn:E1, (Qle_bool b v) eqn:E2; auto.
  - apply Qle_bool_iff in E1. rewrite E in E1.
    apply Qle_bool_iff in E1. congruence.
  - apply Qle_bool_iff in E2. rewrite <- E in E2.
    apply Qle_bool_iff in E2. congruence.
Qed.

Lemma Qeq_bool_ext (a b c : Q) : a == b -> Qeq_bool a c = Qeq_bool b c.
Proof.
  intros E. destruct (Qeq_bool a c) eqn:E1, (Qeq_bool b c) eqn:E2; auto.
  - apply Qeq_bool_iff in E1. rewrite E in E1.
    apply Qeq_bool_iff in E1. congruence.
  - apply Qeq_bool_iff in E2. rewrite <- E in E2.
    apply Qeq_bool_iff in E2. congruence.
Qed.

(** The threshold depends on the divisor up to equality of rationals. *)
Lemma reaches_fdiv (a d1 d2 v : Q) :
  d1 == d2 ->
  reaches (fdiv (Finite a) (Finite d1)) v
  = reaches (fdiv (Finite a) (Finite d2)) v.
Proof.
  intros E. unfold fdiv. rewrite (Qeq_bool_ext 0 E).
  destruct (Qeq_bool d2 0); [reflexivity |].
  simpl. apply Qle_bool_ext. now rewrite E.
Qed.

(** In a strictly increasing list, what precedes an element is below
    it and what follows is above. *)
Lemma sorted_split (before after : list nat) (i j : nat) :
  StronglySorted lt (before ++ i :: after) ->
  In j (before ++ i :: after) ->
  In j before \/ (i <= j)%nat.
Proof.
  intros S Hj. apply in_app_iff in Hj. destruct Hj as [Hj | [<- | Hj]]; auto.
  right. induction before as [| b before IH]; simpl in S.
  - inversion S as [| ? ? _ F]; subst. rewrite Forall_forall in F.
    specialize (F j Hj). lia.
  - inversion S; subst. auto.
Qed.

End PeakFacts.

(** ** The peaks are the local maxima *)

Section PeakShape.

Import HighDensity.

Lemma Qle_bool_false (a b : Q) : Qle_bool a b = false -> b < a.
Proof.
  intros H. destruct (Qlt_le_dec b a) as [L | L]; [exact L |].
  apply Qle_bool_iff in L. congruence.
Qed.

Lemma scan_state_next (w : list Q) (i : nat) (prev x : Q) (xs : list Q) :
  scan_state w i prev (x :: xs) ->
  x = nth i w 0 /\ scan_state w (S i) x xs.
Proof.
  intros (Hi & Hn & Hl & Hp).
  assert (Hx : x = nth i w 0).
  { specialize (Hn 0%nat). rewrite Nat.add_0_r in Hn. simpl in Hn. auto. }
  split; [exact Hx |]. split; [lia |]. split; [| split].
  - intros k. specialize (Hn (S k)). simpl in Hn.
    rewrite <- Hn. f_equal. lia.
  - simpl in Hl. lia.
  - simpl. rewrite Nat.sub_0_r. exact Hx.
Qed.

Lemma scan_sound (w xs : list Q) (i : nat) (prev : Q) (rise : option nat) :
  scan_state w i prev xs -> pending w i rise ->
  forall p, In p (scan i prev rise xs) -> local_maximum w p.
Proof.
  revert i prev rise. induction xs as [| x xs IH]; intros i prev rise Hs Hr p.
  - intros [].
  - destruct (scan_state_next Hs) as [Hx Hs'].
    destruct Hs as (Hi & Hn & Hl & Hp).
    cbn [scan]. destruct (Qle_bool x prev) eqn:E1.
    + apply Qle_bool_iff in E1. destruct (Qle_bool prev x) eqn:E2.
      * apply Qle_bool_iff in E2. apply (IH _ _ _ Hs').
        intros st Est. destruct (Hr st Est) as (B & R & F).
        split; [lia |]. split; [exact R |].
        intros k Hk. destruct (Nat.eq_dec k i) as [-> | Hne].
        -- rewrite <- Hx.
           assert (prev == nth st w 0) by (rewrite Hp; apply F; lia).
           lra.
        -- apply F. lia.
      * apply Qle_bool_false in E2.
        assert (Hrest : In p (scan (S i) x None xs) -> local_maximum w p).
        { apply (IH _ _ _ Hs'). intros st Est. discriminate. }
        destruct rise as [st|]; [| exact Hrest].
        intros [<- | Hin]; [| auto].
        destruct (Hr st eq_refl) as (B & R & F).
        exists st, (i - 1)%nat. split; [| reflexivity].
        split; [lia |]. split; [lia |]. split; [simpl in Hl; lia |].
        split; [exact R |]. split.
        -- replace (i - 1 + 1)%nat with i by lia. rewrite <- Hx, <- Hp.
           exact E2.
        -- intros k Hk. apply F. lia.
    + apply Qle_bool_false in E1. apply (IH _ _ _ Hs').
      intros st Est. injection Est as <-.
      split; [lia |]. split.
      * rewrite <- Hx, <- Hp. exact E1.
      * intros k Hk. assert (k = i) by lia. subst k. reflexivity.
Qed.

Lemma scan_complete (w xs : list Q) (i : nat) (prev : Q) (rise : option nat)
  (l r : nat) :
  scan_state w i prev xs -> flat_top w l r ->
  (i <= l)%nat \/ (rise = Some l /\ (l < i <= r + 1)%nat) ->
  In ((l + r) / 2)%nat (scan i prev rise xs).
Proof.
  intros Hs (Hl0 & Hlr & Hrn & Hup & Hdown & Hflat).
  revert i prev rise Hs. induction xs as [| x xs IH]; intros i prev rise Hs Hc.
  - destruct Hs as (Hi & Hn & Hl & Hp). simpl in Hl. exfalso.
    destruct Hc as [Hc | [_ Hc]]; lia.
  - destruct (scan_state_next Hs) as [Hx Hs'].
    destruct Hs as (Hi & Hn & Hl & Hp).
    cbn [scan]. destruct Hc as [Hc | [-> Hc]].
    + destruct (Nat.eq_dec i l) as [-> | Hne].
      * assert (E : Qle_bool x prev = false).
        { destruct (Qle_bool x prev) eqn:E; [| reflexivity].
          apply Qle_bool_iff in E. rewrite Hx, Hp in E. lra. }
        rewrite E. apply (IH _ _ _ Hs'). right. split; [reflexivity | lia].
      * assert (Hnext : forall rise', In ((l + r) / 2)%nat
                                         (scan (S i) x rise' xs)).
        { intros rise'. apply (IH _ _ _ Hs'). left. lia. }
        destruct (Qle_bool x prev); [| apply Hnext].
        destruct (Qle_bool prev x); [apply Hnext |].
        destruct rise; [right |]; apply Hnext.
    + assert (Hprev : prev == nth l w 0) by (rewrite Hp; apply Hflat; lia).
      destruct (Nat.eq_dec i (r + 1)) as [-> | Hne].
      * assert (Hr : nth r w 0 == nth l w 0) by (apply Hflat; lia).
        assert (E1 : Qle_bool x prev = true)
          by (apply Qle_bool_iff; rewrite Hx; lra).
        assert (E2 : Qle_bool prev x = false).
        { destruct (Qle_bool prev x) eqn:E; [| reflexivity].
          apply Qle_bool_iff in E. rewrite Hx in E. lra. }
        rewrite E1, E2. left. f_equal. f_equal. lia.
      * assert (Hi' : nth i w 0 == nth l w 0) by (apply Hflat; lia).
        assert (E1 : Qle_bool x prev = true)
          by (apply Qle_bool_iff; rewrite Hx; lra).
        assert (E2 : Qle_bool prev x = true)
          by (apply Qle_bool_iff; rewrite Hx; lra).
        rewrite E1, E2. apply (IH _ _ _ Hs'). right.
        split; [reflexivity | lia].
Qed.

(** [find_peaks] reports exactly the local maxima of the curve. *)
Lemma find_peaks_local_maximum (x : list Q) (p : nat) :
  In p (find_peaks x) <-> local_maximum x p.
Proof.
  destruct x as [| x0 rest].
  - simpl. split; [intros [] |].
    intros (l & r & (_ & _ & H & _) & _). simpl in H. lia.
  - assert (Hs : scan_state (x0 :: rest) 1 x0 rest).
    { split; [lia |]. split; [intros k; reflexivity |].
      split; reflexivity. }
    simpl. split.
    + apply (scan_sound Hs). intros st E. discriminate.
    + intros (l & r & Hf & ->). apply (scan_complete (rise := None) Hs Hf).
      left. destruct Hf as (H & _). lia.
Qed.

End PeakShape.

(* ================================================================== *)
(** * Properties of the binned fallback *)
(* ================================================================== *)

Section BinFacts.

Import HighDensity.

Lemma occurrences_cons (v x : Q) (l : list Q) :
  occurrences v (x :: l)
  = ((if Qeq_bool v x then 1 else 0) + occurrences v l)%nat.
Proof.
  unfold occurrences; simpl. destruct (Qeq_bool v x); reflexivity.
Qed.

Lemma occurrences_Qeq (v w : Q) (l : list Q) :
  v == w -> occurrences v l = occurrences w l.
Proof.
  intros H. induction l as [| x l IH]; [reflexivity |].
  rewrite !occurrences_cons, IH.
  assert (E : Qeq_bool v x = Qeq_bool w x).
  { destruct (Qeq_bool v x) eqn:E1, (Qeq_bool w x) eqn:E2; auto.
    - apply Qeq_bool_iff in E1. rewrite H in E1.
      apply Qeq_bool_iff in E1. congruence.
    - apply Qeq_bool_iff in E2. rewrite <- H in E2.
      apply Qeq_bool_iff in E2. congruence. }
  rewrite E. reflexivity.
Qed.

Lemma occurrences_perm (v : Q) (l1 l2 : list Q) :
  Permutation l1 l2 -> occurrences v l1 = occurrences v l2.
Proof.
  induction 1; rewrite ?occurrences_cons in *; lia.
Qed.

(** A value below every element of a column does not occur in it. *)
Lemma occurrences_below (v : Q) (l : list Q) :
  (forall x, In x l -> v < x) -> occurrences v l = 0%nat.
Proof.
  induction l as [| x l IH]; intros H; [reflexivity |].
  rewrite occurrences_cons, IH.
  - assert (v < x) by (apply H; left; reflexivity).
    destruct (Qeq_bool v x) eqn:E; [| reflexivity].
    apply Qeq_bool_iff in E. lra.
  - intros y Hy. apply H. right. exact Hy.
Qed.

(** The tally of a sorted column: strictly increasing values, each with
    its number of occurrences, and every value of the column among
    them. *)
Lemma tally_sorted (l : list Q) :
  StronglySorted (fun a b => Qle_bool a b = true) l ->
  StronglySorted (fun a b => fst a < fst b) (tally l)
  /\ (forall c, In c (tally l) ->
                In (fst c) l /\ snd c = occurrences (fst c) l)
  /\ (forall x, In x l -> exists c, In c (tally l) /\ fst c == x).
Proof.
  induction 1 as [| x t St IH Hx].
  - simpl. split; [constructor |]. split; intros ? [].
  - destruct IH as (T1 & T2 & T3).
    rewrite Forall_forall in Hx.
    assert (Hle : forall y, In y t -> x <= y)
      by (intros y Hy; apply Qle_bool_iff; auto).
    simpl. destruct (tally t) as [| [y n] rest] eqn:Et.
    + assert (t = []).
      { destruct t as [| z t]; [reflexivity |].
        destruct (T3 z (or_introl eq_refl)) as (c & [] & _). }
      subst t. split; [repeat constructor |]. split.
      * intros c [<- | []]. simpl. split; [auto |].
        rewrite occurrences_cons, Qeq_bool_refl. reflexivity.
      * intros z [<- | []]. exists (x, 1%nat). simpl. split; [auto | reflexivity].
    + inversion T1 as [| ? ? T1' F1]; subst. rewrite Forall_forall in F1.
      destruct (T2 (y, n) (or_introl eq_refl)) as [Hy Hn]. simpl in Hy, Hn.
      assert (Hxy : x <= y) by auto.
      destruct (Qeq_bool x y) eqn:E.
      * apply Qeq_bool_iff in E. split; [| split].
        -- constructor; [exact T1' |].
           apply Forall_forall. intros c Hc. simpl.
           specialize (F1 c Hc). simpl in F1. lra.
        -- intros c [<- | Hc]; simpl.
           ++ split; [auto |].
              rewrite occurrences_cons, Qeq_bool_refl.
              rewrite (occurrences_Qeq t E), <- Hn. reflexivity.
           ++ destruct (T2 c (or_intror Hc)) as [K1 K2].
              split; [auto |]. rewrite occurrences_cons, <- K2.
              specialize (F1 c Hc). simpl in F1.
              destruct (Qeq_bool (fst c) x) eqn:E'; [| reflexivity].
              apply Qeq_bool_iff in E'. lra.
        -- intros z [<- | Hz].
           ++ exists (x, S n). split; [left; reflexivity | reflexivity].
           ++ destruct (T3 z Hz) as (c & [<- | Hc] & Hcz).
              ** exists (x, S n). split; [left; reflexivity |].
                 simpl in *. lra.
              ** exists c. split; [right; exact Hc | exact Hcz].
      * apply Qeq_bool_neq in E. assert (Hlt : x < y) by lra.
        assert (Hall : forall z, In z t -> x < z).
        { intros z Hz. destruct (T3 z Hz) as (c & [<- | Hc] & Hcz).
          - simpl in Hcz. lra.
          - specialize (F1 c Hc). simpl in F1. lra. }
        split; [| split].
        -- constructor; [exact T1 |].
           constructor; [exact Hlt |].
           apply Forall_forall. intros c Hc. simpl.
           specialize (F1 c Hc). simpl in F1. lra.
        -- intros c [<- | Hc]; simpl.
           ++ split; [auto |].
              rewrite occurrences_cons, Qeq_bool_refl.
              rewrite (occurrences_below t Hall). reflexivity.
           ++ destruct (T2 c Hc) as [K1 K2].
              split; [auto |]. rewrite occurrences_cons, <- K2.
              destruct (Qeq_bool (fst c) x) eqn:E'; [| reflexivity].
              apply Qeq_bool_iff in E'. specialize (Hall _ K1). lra.
        -- intros z [<- | Hz].
           ++ exists (x, 1%nat). split; [left; reflexivity | reflexivity].
           ++ destruct (T3 z Hz) as (c & Hc & Hcz).
              exists c. split; [right; exact Hc | exact Hcz].
Qed.

End BinFacts.

Section BinChoiceFacts.

Import HighDensity.

(** [idxmax_from] returns the first entry with the largest count. *)
Lemma idxmax_from_spec (l : list (Q * nat)) (best : Q * nat) :
  exists before e after,
    best :: l = before ++ e :: after
    /\ idxmax_from best l = fst e
    /\ (snd best <= snd e)%nat
    /\ (forall c, In c before -> (snd c < snd e)%nat)
    /\ (forall c, In c after -> (snd c <= snd e)%nat).
Proof.
  revert best. induction l as [| c l IH]; intros best; simpl.
  - exists [], best, []. simpl. repeat split; auto; intros ? [].
  - destruct (Nat.ltb_spec (snd best) (snd c)) as [L | L].
    + destruct (IH c) as (b & e & a & H & Hr & Hb & H1 & H2).
      exists (best :: b), e, a. simpl. rewrite H.
      split; [reflexivity |]. split; [exact Hr |]. split; [lia |].
      split; [| exact H2].
      intros d [<- | Hd]; [lia | auto].
    + destruct (IH best) as (b & e & a & H & Hr & Hb & H1 & H2).
      destruct b as [| b0 b].
      * simpl in H. injection H as <- <-.
        exists [], best, (c :: l). simpl.
        split; [reflexivity |]. split; [exact Hr |]. split; [lia |].
        split; [intros ? [] |].
        intros d [<- | Hd]; [lia | auto].
      * simpl in H. injection H as <- ->.
        exists (best :: c :: b), e, a. simpl.
        split; [reflexivity |]. split; [exact Hr |]. split; [exact Hb |].
        split; [| exact H2].
        assert (snd best < snd e)%nat by (apply H1; left; reflexivity).
        intros d [<- | [<- | Hd]]; [lia | lia |].
        apply H1. right. exact Hd.
Qed.

Lemma sorted_after {A} (R : A -> A -> Prop) (before after : list A) (e : A) :
  StronglySorted R (before ++ e :: after) -> Forall (R e) after.
Proof.
  induction before as [| b before IH]; simpl; intros H.
  - now inversion H.
  - inversion H; subst. auto.
Qed.

Lemma Qle_bool_transitive :
  Transitive (fun a b : Q => is_true (Qle_bool a b)).
Proof.
  intros a b c H1 H2. unfold is_true in *.
  rewrite Qle_bool_iff in *. lra.
Qed.

(** The label chosen from the sorted counts of a non-empty column is a
    value of the column with the largest number of occurrences, and the
    smallest of the values with that number. *)
Lemma idxmax_value_counts (l : list Q) :
  l <> [] ->
  exists b,
    idxmax (value_counts_sorted l) = Some b
    /\ In b l
    /\ forall x, In x l ->
                 (occurrences x l <= occurrences b l)%nat
                 /\ (occurrences x l = occurrences b l -> b <= x).
Proof.
  intros Hne. unfold value_counts_sorted.
  pose proof (Frame.QSort.Permuted_sort l) as P.
  pose proof (Frame.QSort.StronglySorted_sort l Qle_bool_transitive) as S.
  destruct (tally_sorted S) as (T1 & T2 & T3).
  destruct (tally (Frame.QSort.sort l)) as [| c rest] eqn:Et.
  - exfalso. destruct l as [| x l]; [congruence |].
    assert (Hx : In x (Frame.QSort.sort (x :: l)))
      by (eapply Permutation_in; [exact P | left; reflexivity]).
    destruct (T3 x Hx) as (d & [] & _).
  - simpl. destruct (idxmax_from_spec rest c)
      as (before & e & after & H & Hr & _ & H1 & H2).
    rewrite H in T1, T2, T3.
    assert (He : In e (before ++ e :: after))
      by (apply in_app_iff; right; left; reflexivity).
    destruct (T2 e He) as [K1 K2].
    rewrite <- (occurrences_perm (fst e) P) in K2.
    exists (fst e). split; [now rewrite Hr |]. split.
    + eapply Permutation_in; [symmetry; exact P | exact K1].
    + intros x Hx.
      assert (Hx' : In x (Frame.QSort.sort l))
        by (eapply Permutation_in; [exact P | exact Hx]).
      destruct (T3 x Hx') as (d & Hd & Hdx).
      destruct (T2 d Hd) as [_ D2].
      rewrite <- (occurrences_perm (fst d) P), (occurrences_Qeq l Hdx) in D2.
      rewrite <- D2, <- K2.
      apply in_app_iff in Hd. destruct Hd as [Hd | [<- | Hd]].
      * specialize (H1 d Hd). split; [lia | intros; lia].
      * split; [lia |]. intros _. lra.
      * specialize (H2 d Hd). split; [exact H2 |]. intros _.
        pose proof (sorted_after _ _ _ T1) as F.
        rewrite Forall_forall in F. specialize (F d Hd). simpl in F. lra.
Qed.

(** For a positive width, the bin value of a price is the left edge of
    the bin that holds the price. *)
Lemma cost_group_left_edge (target_bandwidth price : Q) :
  0 < target_bandwidth ->
  floor_multiple target_bandwidth price <= price
  /\ price < floor_multiple target_bandwidth price + target_bandwidth.
Proof.
  intros Hw. unfold floor_multiple.
  pose proof (Qfloor_le (price / target_bandwidth)) as L.
  pose proof (Qlt_floor (price / target_bandwidth)) as U.
  rewrite inject_Z_plus in U.
  assert (E : price == price / target_bandwidth * target_bandwidth)
    by (field; lra).
  set (k := inject_Z (Qfloor (price / target_bandwidth))) in *.
  set (q := price / target_bandwidth) in *.
  split.
  - rewrite E. apply Qmult_le_compat_r; lra.
  - rewrite E.
    setoid_replace (k * target_bandwidth + target_bandwidth)
      with ((k + 1) * target_bandwidth) by ring.
    apply Qmult_lt_compat_r; [exact Hw | exact U].
Qed.

Lemma cost_group_finite (target_bandwidth price : Q) :
  ~ target_bandwidth == 0 ->
  cost_group target_bandwidth (Some price)
  = Finite (floor_multiple target_bandwidth price).
Proof.
  intros Hw. unfold cost_group, floor_divide.
  destruct (Qeq_bool target_bandwidth 0) eqn:E; [| reflexivity].
  apply Qeq_bool_iff in E. contradiction.
Qed.

Lemma cost_group_zero (target_bandwidth : Q) (price : option Q) :
  target_bandwidth == 0 -> cost_group target_bandwidth price = NonFinite.
Proof.
  intros Hw. unfold cost_group, floor_divide.
  apply Qeq_bool_iff in Hw. rewrite Hw. now destruct price.
Qed.

(** For a bandwidth that is not zero every price has a bin value; for a
    zero bandwidth none has. *)
Lemma cost_groups_finite (target_bandwidth : Q) (df : list observation)
  (route_key vehicle_type : option string) :
  ~ target_bandwidth == 0 ->
  cost_groups target_bandwidth df route_key vehicle_type
  = map (floor_multiple target_bandwidth)
        (selected_costs df route_key vehicle_type).
Proof.
  intros Hw. unfold cost_groups, selected_costs, not_nan, dropna.
  induction (filter_if_given o_vehicle_type vehicle_type
               (filter_if_given o_route_key route_key df)) as [| r l IH];
    [reflexivity |].
  cbn [map flat_map]. rewrite IH.
  destruct (o_carrier_price r) as [p|].
  - rewrite (cost_group_finite p Hw). reflexivity.
  - reflexivity.
Qed.

Lemma cost_groups_zero (target_bandwidth : Q) (df : list observation)
  (route_key vehicle_type : option string) :
  target_bandwidth == 0 ->
  cost_groups target_bandwidth df route_key vehicle_type = [].
Proof.
  intros Hw. unfold cost_groups, not_nan.
  induction (filter_if_given o_vehicle_type vehicle_type
               (filter_if_given o_route_key route_key df)) as [| r l IH];
    [reflexivity |].
  cbn [map flat_map]. rewrite IH, (cost_group_zero _ Hw). reflexivity.
Qed.

Lemma floor_unique (q : Q) (k : Z) :
  inject_Z k <= q -> q < inject_Z k + 1 -> Qfloor q = k.
Proof.
  intros L U.
  assert (A : (k <= Qfloor q)%Z).
  { rewrite <- (Qfloor_Z k). apply Qfloor_resp_le. exact L. }
  assert (B : (Qfloor q < k + 1)%Z).
  { rewrite Zlt_Qlt, inject_Z_plus. pose proof (Qfloor_le q) as F.
    change (inject_Z 1) with 1. lra. }
  lia.
Qed.

Lemma in_bin_spec (w b x : Q) :
  in_bin w b x = true <-> b <= x /\ x < b + w.
Proof.
  unfold in_bin. rewrite andb_true_iff, negb_true_iff, Qle_bool_iff.
  split; intros [H1 H2]; (split; [exact H1 |]).
  - now apply Qle_bool_false.
  - destruct (Qle_bool (b + w) x) eqn:E; [| reflexivity].
    apply Qle_bool_iff in E. lra.
Qed.

(** For a positive width, a price lies in the bin with left edge [b]
    exactly when its bin value is [b]. *)
Lemma in_bin_floor_multiple (w b x : Q) :
  0 < w -> bin_edge w b ->
  in_bin w b x = Qeq_bool b (floor_multiple w x).
Proof.
  intros Hw (k & Hk).
  destruct (cost_group_left_edge x Hw) as [G1 G2].
  destruct (Qeq_bool b (floor_multiple w x)) eqn:E.
  - apply Qeq_bool_iff in E. apply in_bin_spec. rewrite E. auto.
  - destruct (in_bin w b x) eqn:F; [| reflexivity].
    apply in_bin_spec in F. destruct F as [F1 F2].
    assert (K : Qfloor (x / w) = k).
    { apply floor_unique.
      - apply Qle_shift_div_l; [exact Hw |]. rewrite <- Hk. exact F1.
      - apply Qlt_shift_div_r; [exact Hw |].
        setoid_replace ((inject_Z k + 1) * w) with (inject_Z k * w + w)
          by ring.
        rewrite <- Hk. exact F2. }
    assert (E' : b == floor_multiple w x)
      by (unfold floor_multiple; rewrite K; exact Hk).
    apply Qeq_bool_iff in E'. congruence.
Qed.

Lemma bin_count_occurrences (w b : Q) (costs : list Q) :
  0 < w -> bin_edge w b ->
  bin_count w b costs = occurrences b (map (floor_multiple w) costs).
Proof.
  intros Hw Hb. unfold bin_count.
  induction costs as [| x l IH]; [reflexivity |].
  cbn [map filter]. rewrite occurrences_cons, <- IH.
  rewrite (in_bin_floor_multiple x Hw Hb).
  destruct (Qeq_bool b (floor_multiple w x)); reflexivity.
Qed.

Lemma occurrences_pos (v : Q) (l : list Q) :
  (1 <= occurrences v l)%nat <-> exists y, In y l /\ v == y.
Proof.
  induction l as [| x l IH].
  - split; [cbn; lia | intros (y & [] & _)].
  - rewrite occurrences_cons. destruct (Qeq_bool v x) eqn:E.
    + apply Qeq_bool_iff in E. split; [| lia].
      intros _. exists x. split; [left; reflexivity | exact E].
    + split.
      * intros H. apply IH in H; [| lia..]. destruct H as (y & Hy & Ey).
        exists y. split; [right; exact Hy | exact Ey].
      * intros (y & [<- | Hy] & Ey).
        -- apply Qeq_bool_iff in Ey. congruence.
        -- assert (1 <= occurrences v l)%nat by (apply IH; eauto). lia.
Qed.

(** The bin chosen by the fallback for a positive width: a bin that
    holds a price, with the most prices, and the lowest of those. *)
Lemma most_populous_bin (w : Q) (costs : list Q) :
  0 < w -> costs <> [] ->
  exists b,
    idxmax (value_counts_sorted (map (floor_multiple w) costs)) = Some b
    /\ bin_edge w b
    /\ (1 <= bin_count w b costs)%nat
    /\ forall b', bin_edge w b' ->
         (bin_count w b' costs <= bin_count w b costs)%nat
         /\ (bin_count w b' costs = bin_count w b costs -> b <= b').
Proof.
  intros Hw Hne.
  assert (Hbins : map (floor_multiple w) costs <> [])
    by (destruct costs; [congruence | discriminate]).
  destruct (idxmax_value_counts Hbins) as (b & Hb & Hin & Hmax).
  assert (Hedge : bin_edge w b).
  { apply in_map_iff in Hin. destruct Hin as (x & <- & _).
    exists (Qfloor (x / w)). reflexivity. }
  assert (Hpos : (1 <= bin_count w b costs)%nat).
  { rewrite (bin_count_occurrences costs Hw Hedge).
    apply occurrences_pos. exists b. split; [exact Hin | reflexivity]. }
  exists b. split; [exact Hb |]. split; [exact Hedge |].
  split; [exact Hpos |].
  intros b' Hb'.
  rewrite (bin_count_occurrences costs Hw Hb') in *.
  rewrite (bin_count_occurrences costs Hw Hedge) in *.
  destruct (Nat.eq_dec (occurrences b' (map (floor_multiple w) costs)) 0)
    as [Z | NZ].
  - rewrite Z. split; [lia | intros; lia].
  - assert (P : (1 <= occurrences b' (map (floor_multiple w) costs))%nat)
      by lia.
    apply occurrences_pos in P. destruct P as (y & Hy & Ey).
    rewrite (occurrences_Qeq _ Ey). destruct (Hmax y Hy) as [M1 M2].
    split; [exact M1 |]. intros T. specialize (M2 T). lra.
Qed.

End BinChoiceFacts.

(* ================================================================== *)
(** * Properties of the price grid and of the spread *)
(* ================================================================== *)

Section GridFacts.

Import HighDensity.

Lemma of_nat_le (i j : nat) : (i <= j)%nat -> of_nat i <= of_nat j.
Proof.
  intros H. unfold of_nat. rewrite <- Zle_Qle. lia.
Qed.

Lemma of_nat_nonneg (i : nat) : 0 <= of_nat i.
Proof.
  change 0 with (of_nat 0). apply of_nat_le. lia.
Qed.

Lemma of_nat_pos (i : nat) : (0 < i)%nat -> 0 < of_nat i.
Proof.
  intros H. unfold of_nat. change 0 with (inject_Z 0).
  rewrite <- Zlt_Qlt. lia.
Qed.

Lemma linspace_length (a b : Q) (num : nat) :
  List.length (linspace a b num) = num.
Proof.
  unfold linspace. rewrite length_map. apply length_seq.
Qed.

Lemma linspace_nth (a b : Q) (num i : nat) :
  (i < num)%nat ->
  nth i (linspace a b num) 0 = of_nat i * ((b - a) / of_nat (num - 1)) + a.
Proof.
  intros H. unfold linspace.
  set (f := fun i => of_nat i * ((b - a) / of_nat (num - 1)) + a).
  rewrite (nth_indep _ 0 (f 0%nat)) by (rewrite length_map, length_seq; exact H).
  rewrite map_nth, seq_nth by exact H. reflexivity.
Qed.

Lemma linspace_In (a b : Q) (num : nat) (x : Q) :
  In x (linspace a b num) ->
  exists i, (i < num)%nat
            /\ x = of_nat i * ((b - a) / of_nat (num - 1)) + a.
Proof.
  unfold linspace. intros H. apply in_map_iff in H.
  destruct H as (i & <- & Hi). apply in_seq in Hi.
  exists i. split; [lia | reflexivity].
Qed.

Lemma step_nonneg (a b : Q) (n : nat) : a <= b -> 0 <= (b - a) / of_nat n.
Proof.
  intros H. destruct n as [| n].
  - unfold of_nat; simpl. unfold Qdiv, Qinv; simpl. lra.
  - apply Qle_shift_div_l; [apply of_nat_pos; lia | lra].
Qed.

(** The grid is increasing. *)
Lemma linspace_monotone (a b : Q) (num i j : nat) :
  a <= b -> (i <= j)%nat -> (j < num)%nat ->
  nth i (linspace a b num) 0 <= nth j (linspace a b num) 0.
Proof.
  intros Hab Hij Hj. rewrite !linspace_nth by lia.
  pose proof (step_nonneg (num - 1) Hab) as Hs.
  pose proof (of_nat_le Hij) as Hl.
  set (s := (b - a) / of_nat (num - 1)) in *.
  assert (of_nat i * s <= of_nat j * s)
    by (apply Qmult_le_compat_r; assumption).
  lra.
Qed.

(** The grid starts at the lower and ends at the upper bound. *)
Lemma linspace_range (a b : Q) (num : nat) (m M : Q) :
  a <= b -> (2 <= num)%nat ->
  col_min (linspace a b num) = Some m ->
  col_max (linspace a b num) = Some M ->
  m == a /\ M == b.
Proof.
  intros Hab Hn Hm HM.
  apply col_min_spec in Hm. apply col_max_spec in HM.
  destruct Hm as [Im Lm], HM as [IM LM].
  pose proof (step_nonneg (num - 1) Hab) as Hs.
  assert (Hend : of_nat (num - 1) * ((b - a) / of_nat (num - 1)) == b - a).
  { field. intros E. pose proof (@of_nat_pos (num - 1)) as P.
    specialize (P ltac:(lia)). lra. }
  set (s := (b - a) / of_nat (num - 1)) in *.
  assert (H0 : In (nth 0 (linspace a b num) 0) (linspace a b num))
    by (apply nth_In; rewrite linspace_length; lia).
  assert (H1 : In (nth (num - 1) (linspace a b num) 0) (linspace a b num))
    by (apply nth_In; rewrite linspace_length; lia).
  rewrite linspace_nth in H0, H1 by lia. fold s in H0, H1.
  apply Lm in H0. apply LM in H1.
  apply linspace_In in Im, IM. fold s in Im, IM.
  destruct Im as (i & Hi & ->), IM as (j & Hj & ->).
  pose proof (of_nat_nonneg i) as Pi.
  assert (Pj : of_nat j <= of_nat (num - 1)) by (apply of_nat_le; lia).
  assert (0 <= of_nat i * s) by (apply Qmult_le_0_compat; assumption).
  assert (of_nat j * s <= of_nat (num - 1) * s)
    by (apply Qmult_le_compat_r; assumption).
  change (of_nat 0) with 0 in H0.
  split; lra.
Qed.

(** ** Columns whose values are all equal *)

Lemma sorted_nth_all_equal (c : Q) (l : list Q) (i : nat) :
  all_equal c l -> (i < List.length l)%nat ->
  nth i (Frame.QSort.sort l) 0 == c.
Proof.
  intros H Hi. pose proof (Frame.QSort.Permuted_sort l) as P.
  apply H. eapply Permutation_in; [symmetry; exact P |].
  apply nth_In. rewrite <- (Permutation_length P). exact Hi.
Qed.

Lemma percentile_all_equal (c q : Q) (l : list Q) :
  l <> [] -> all_equal c l -> 0 <= q -> q <= 100 ->
  percentile l q == c.
Proof.
  intros Hne H Hq0 Hq1. unfold percentile.
  set (n := List.length l).
  assert (Hn : (0 < n)%nat)
    by (subst n; destruct l; [congruence | simpl; lia]).
  set (v := q / 100 * of_nat (n - 1)).
  pose proof (of_nat_nonneg (n - 1)) as P.
  assert (Hv0 : 0 <= v).
  { unfold v. apply Qmult_le_0_compat; [| exact P].
    apply Qle_shift_div_l; lra. }
  assert (Hv1 : v <= of_nat (n - 1)).
  { unfold v. setoid_replace (of_nat (n - 1)) with (1 * of_nat (n - 1)) at 2
      by ring.
    apply Qmult_le_compat_r; [| exact P].
    apply Qle_shift_div_r; lra. }
  assert (Hf : (Qfloor v <= Z.of_nat (n - 1))%Z).
  { rewrite <- (Qfloor_Z (Z.of_nat (n - 1))).
    apply Qfloor_resp_le. exact Hv1. }
  assert (Hlo : (Z.to_nat (Qfloor v) < n)%nat) by lia.
  assert (Hhi : (Nat.min (S (Z.to_nat (Qfloor v))) (n - 1) < n)%nat) by lia.
  rewrite (sorted_nth_all_equal H Hlo), (sorted_nth_all_equal H Hhi).
  ring.
Qed.

Lemma iqr_all_equal (c : Q) (l : list Q) :
  l <> [] -> all_equal c l -> iqr l == 0.
Proof.
  intros Hne H. unfold iqr.
  rewrite !(percentile_all_equal Hne H) by lra. ring.
Qed.

End GridFacts.

(* ================================================================== *)
(** * The density-peak estimator *)
(* ================================================================== *)

Section DensityFacts.

Import HighDensity.

Variable np_std : list Q -> Q.
Variable gaussian_kde : list Q -> Q -> Q -> option (Q -> Q).

Lemma identify_optimal_price_eq (df : list observation)
  (route_key vehicle_type : option string) (target_bandwidth : Q) :
  identify_optimal_price np_std gaussian_kde df route_key vehicle_type
    target_bandwidth
  = let costs := selected_costs df route_key vehicle_type in
    if (List.length costs <? 5)%nat then Returned None
    else if spread_is_zero (spread_of np_std costs) then Returned None
    else
      match gaussian_kde costs target_bandwidth (spread_of np_std costs) with
      | None => Raised
      | Some kde =>
      match col_min costs, col_max costs with
      | Some lo, Some hi =>
          let cost_range := linspace lo hi 1000 in
          let density := map kde cost_range in
          match col_min cost_range, col_max cost_range with
          | Some range_min, Some range_max =>
              match first_valid_peak density
                      (fdiv (Finite ((1 # 10) * of_nat (List.length costs)))
                            (Finite (range_max - range_min)))
                      (find_peaks density) with
              | Some idx => Returned (Some (nth idx cost_range 0))
              | None =>
                  Returned
                    (idxmax (value_counts_sorted
                               (cost_groups target_bandwidth df route_key
                                  vehicle_type)))
              end
          | _, _ => Returned None
          end
      | _, _ => Returned None
      end
      end.
Proof. reflexivity. Qed.

Lemma col_min_some (l : list Q) : l <> [] -> exists m, col_min l = Some m.
Proof. destruct l; [congruence | simpl; eauto]. Qed.

Lemma col_max_some (l : list Q) : l <> [] -> exists m, col_max l = Some m.
Proof. destruct l; [congruence | simpl; eauto]. Qed.

Lemma linspace_nonempty (a b : Q) : linspace a b 1000 <> [].
Proof.
  intros E. apply (f_equal (@List.length Q)) in E.
  rewrite linspace_length in E. discriminate.
Qed.

(** Past its two guards, and once the density curve is built, the
    estimator takes the first qualifying peak or, failing that, the most
    common bin. *)
Lemma identify_optimal_price_past_guards (df : list observation)
  (route_key vehicle_type : option string) (target_bandwidth : Q)
  (kde : Q -> Q) :
  let costs := selected_costs df route_key vehicle_type in
  (5 <= List.length costs)%nat ->
  spread_is_zero (spread_of np_std costs) = false ->
  gaussian_kde costs target_bandwidth (spread_of np_std costs) = Some kde ->
  exists lo hi,
    col_min costs = Some lo /\ col_max costs = Some hi /\ lo <= hi
    /\ identify_optimal_price np_std gaussian_kde df route_key vehicle_type
         target_bandwidth
       = let cost_range := linspace lo hi 1000 in
         let density := map kde cost_range in
         match first_valid_peak density
                 (fdiv (Finite ((1 # 10) * of_nat (List.length costs)))
                       (Finite (hi - lo)))
                 (find_peaks density) with
         | Some idx => Returned (Some (nth idx cost_range 0))
         | None =>
             Returned
               (idxmax (value_counts_sorted
                          (cost_groups target_bandwidth df route_key
                             vehicle_type)))
         end.
Proof.
  intros costs Hlen Hspread Hkde.
  assert (Hne : costs <> [])
    by (intros E; rewrite E in Hlen; simpl in Hlen; lia).
  destruct (col_min_some Hne) as (lo & Hlo).
  destruct (col_max_some Hne) as (hi & Hhi).
  destruct (col_min_some (@linspace_nonempty lo hi)) as (m & Hm).
  destruct (col_max_some (@linspace_nonempty lo hi)) as (M & HM).
  assert (Hle : lo <= hi).
  { apply col_min_spec in Hlo. apply col_max_spec in Hhi.
    destruct Hlo as [I _], Hhi as [_ U]. apply U. exact I. }
  exists lo, hi.
  split; [exact Hlo |]. split; [exact Hhi |]. split; [exact Hle |].
  rewrite identify_optimal_price_eq. cbv zeta. fold costs.
  apply Nat.ltb_ge in Hlen. rewrite Hlen, Hspread, Hkde, Hlo, Hhi, Hm, HM.
  destruct (@linspace_range lo hi 1000 m M Hle ltac:(lia) Hm HM) as [E1 E2].
  rewrite (@first_valid_peak_threshold _
             (fdiv (Finite ((1 # 10) * of_nat (List.length costs)))
                   (Finite (M - m)))
             (fdiv (Finite ((1 # 10) * of_nat (List.length costs)))
                   (Finite (hi - lo)))).
  - reflexivity.
  - intros v. apply reaches_fdiv. rewrite E1, E2. reflexivity.
Qed.

(** A finite threshold is reached when the price range is not zero and
    the value is at least the quotient. *)
Lemma reaches_threshold (a lo hi v : Q) :
  lo <= hi ->
  reaches (fdiv (Finite a) (Finite (hi - lo))) v = true
  <-> lo < hi /\ a / (hi - lo) <= v.
Proof.
  intros Hle. unfold fdiv.
  destruct (Qeq_bool (hi - lo) 0) eqn:E.
  - apply Qeq_bool_iff in E. simpl. split; [discriminate |].
    intros [H _]. lra.
  - simpl. rewrite Qle_bool_iff. split; [| tauto].
    intros H. split; [| exact H].
    destruct (Qlt_le_dec lo hi) as [L | L]; [exact L |].
    assert (K : hi - lo == 0) by lra.
    apply Qeq_bool_iff in K. congruence.
Qed.

(** C4. [identify_optimal_price] returns [None], and raises nothing,
    when fewer than five non-null carrier prices remain after the
    filters, whatever the other inputs are; and when the interquartile
    range is zero and the standard deviation that [np.std] computes is
    zero as well.  For identical prices the interquartile range is zero,
    so that the second case applies to them whenever the computed
    standard deviation is zero. *)
Theorem no_estimate_on_few_prices_or_zero_spread
  (df : list observation) (route_key vehicle_type : option string)
  (target_bandwidth : Q) :
  let costs := selected_costs df route_key vehicle_type in
  let result :=
    identify_optimal_price np_std gaussian_kde df route_key vehicle_type
      target_bandwidth in
  ((List.length costs < 5)%nat -> result = Returned None)
  /\ (iqr costs == 0 -> np_std costs == 0 -> result = Returned None)
  /\ (forall c, all_equal c costs -> np_std costs == 0 ->
      result = Returned None).
Proof.
  intros costs result.
  assert (Hfew : (List.length costs < 5)%nat -> result = Returned None).
  { intros H. subst result. rewrite identify_optimal_price_eq. cbv zeta.
    fold costs. apply Nat.ltb_lt in H. rewrite H. reflexivity. }
  assert (Hzero : iqr costs == 0 -> np_std costs == 0 ->
                  result = Returned None).
  { intros Hi Hs. subst result. rewrite identify_optimal_price_eq. cbv zeta.
    fold costs. destruct (List.length costs <? 5)%nat; [reflexivity |].
    unfold spread_of.
    assert (E : Qle_bool (iqr costs) 0 = true)
      by (apply Qle_bool_iff; lra).
    rewrite E. unfold spread_is_zero.
    apply Qeq_bool_iff in Hs. rewrite Hs. reflexivity. }
  split; [exact Hfew |]. split; [exact Hzero |].
  intros c Hc Hs. destruct (Nat.lt_ge_cases (List.length costs) 5) as [L | L].
  - apply Hfew. exact L.
  - assert (Hne : costs <> [])
      by (intros E; rewrite E in L; simpl in L; lia).
    apply Hzero; [apply (iqr_all_equal Hne Hc) | exact Hs].
Qed.

(** C3. Let the density curve [kde] exist: at least five prices, a
    spread that is not zero, a density estimate that was built; [lo] and
    [hi] are the smallest and the largest price.  The threshold is a
    tenth of the sample count divided by the price range [hi - lo]; for
    a price range of zero it is infinite and no maximum reaches it.

    If some local maximum of the curve reaches the threshold, the result
    is the grid price at the first such maximum: its index, and so its
    price, is the smallest among the local maxima that reach the
    threshold, however tall the others are.

    If no local maximum reaches it and the width [target_bandwidth] is
    positive, the prices are put into the bins [k * width <= price <
    (k + 1) * width] for the integers [k], and the result is the left
    edge of a bin that holds a price and holds at least as many prices
    as every other bin; of the bins that hold as many, it is the lowest.
    For a width of zero no price has a bin and the result is [None]. *)
Theorem first_peak_or_most_common_bin
  (df : list observation) (route_key vehicle_type : option string)
  (target_bandwidth lo hi : Q) (kde : Q -> Q) :
  let costs := selected_costs df route_key vehicle_type in
  let result :=
    identify_optimal_price np_std gaussian_kde df route_key vehicle_type
      target_bandwidth in
  let cost_range := linspace lo hi 1000 in
  let density := map kde cost_range in
  let threshold := (1 # 10) * of_nat (List.length costs) / (hi - lo) in
  let qualifies idx :=
    local_maximum density idx
    /\ lo < hi /\ threshold <= nth idx density 0 in
  (5 <= List.length costs)%nat ->
  spread_is_zero (spread_of np_std costs) = false ->
  gaussian_kde costs target_bandwidth (spread_of np_std costs) = Some kde ->
  col_min costs = Some lo ->
  col_max costs = Some hi ->
  ((exists idx, qualifies idx) ->
   exists idx,
     result = Returned (Some (nth idx cost_range 0))
     /\ qualifies idx
     /\ forall j, qualifies j ->
                  (idx <= j)%nat
                  /\ nth idx cost_range 0 <= nth j cost_range 0)
  /\ ((forall idx, ~ qualifies idx) ->
      0 < target_bandwidth ->
      exists b,
        result = Returned (Some b)
        /\ bin_edge target_bandwidth b
        /\ (1 <= bin_count target_bandwidth b costs)%nat
        /\ forall b', bin_edge target_bandwidth b' ->
             (bin_count target_bandwidth b' costs
              <= bin_count target_bandwidth b costs)%nat
             /\ (bin_count target_bandwidth b' costs
                 = bin_count target_bandwidth b costs -> b <= b'))
  /\ ((forall idx, ~ qualifies idx) ->
      target_bandwidth == 0 ->
      result = Returned None).
Proof.
  intros costs result cost_range density threshold qualifies
    Hlen Hspread Hkde Hlo Hhi.
  destruct (identify_optimal_price_past_guards df route_key vehicle_type
              Hlen Hspread Hkde)
    as (lo' & hi' & Hlo' & Hhi' & Hle & Hres).
  fold costs in Hlo', Hhi'.
  assert (lo' = lo) by congruence. assert (hi' = hi) by congruence.
  subst lo' hi'. cbv zeta in Hres. fold costs cost_range density result in Hres.
  set (thr := fdiv (Finite ((1 # 10) * of_nat (List.length costs)))
                   (Finite (hi - lo))) in *.
  assert (Hdl : List.length density = 1000%nat)
    by (unfold density, cost_range; rewrite length_map; apply linspace_length).
  assert (Q : forall idx,
             qualifies idx <->
             In idx (find_peaks density)
             /\ reaches thr (nth idx density 0) = true).
  { intros idx. unfold qualifies, thr.
    rewrite find_peaks_local_maximum, (reaches_threshold _ _ Hle).
    reflexivity. }
  assert (Hfallback :
            (forall idx, ~ qualifies idx) ->
            result
            = Returned
                (idxmax (value_counts_sorted
                           (cost_groups target_bandwidth df route_key
                              vehicle_type)))).
  { intros Hnone.
    assert (E : first_valid_peak density thr (find_peaks density) = None).
    { apply first_valid_peak_none. intros j Hj.
      destruct (reaches thr (nth j density 0)) eqn:R; [| reflexivity].
      exfalso. apply (Hnone j). apply Q. split; assumption. }
    rewrite E in Hres. exact Hres. }
  split; [| split].
  - intros (i0 & H0). apply Q in H0. destruct H0 as [Hi0 Hq0].
    destruct (first_valid_peak density thr (find_peaks density))
      as [idx|] eqn:E.
    + apply first_valid_peak_some in E.
      destruct E as (before & after & Hp & Hq & Hb).
      exists idx. split; [exact Hres |]. split.
      * apply Q. split; [| exact Hq]. rewrite Hp. apply in_app_iff.
        right. left. reflexivity.
      * intros j Hjq. apply Q in Hjq. destruct Hjq as [Hj Hjq].
        assert (Hij : (idx <= j)%nat).
        { pose proof (find_peaks_sorted density) as HS. rewrite Hp in HS, Hj.
          destruct (@sorted_split before after idx j HS Hj) as [K | K];
            [| exact K].
          exfalso. rewrite (Hb j K) in Hjq. discriminate. }
        split; [exact Hij |].
        rewrite Hp in Hj. rewrite <- Hp in Hj.
        apply find_peaks_range in Hj. rewrite Hdl in Hj.
        apply linspace_monotone; [exact Hle | exact Hij | lia].
    + exfalso.
      rewrite (proj1 (first_valid_peak_none density thr
                        (find_peaks density)) E i0 Hi0) in Hq0.
      discriminate.
  - intros Hnone Hw. rewrite (Hfallback Hnone).
    assert (Hw0 : ~ target_bandwidth == 0) by lra.
    rewrite (cost_groups_finite df route_key vehicle_type Hw0). fold costs.
    assert (Hne : costs <> [])
      by (intros E; rewrite E in Hlen; simpl in Hlen; lia).
    destruct (most_populous_bin Hw Hne) as (b & Hb & Hrest).
    exists b. rewrite Hb. split; [reflexivity | exact Hrest].
  - intros Hnone Hw. rewrite (Hfallback Hnone).
    rewrite (cost_groups_zero df route_key vehicle_type Hw). reflexivity.
Qed.

End DensityFacts.

(** C4 on three prices and on six identical prices. *)
Lemma no_estimate_on_few_prices_or_zero_spread_witness :
  HighDensity.identify_optimal_price Samples.variance Samples.box_kernel
    Samples.three_prices None None 5 = HighDensity.Returned None
  /\ HighDensity.identify_optimal_price Samples.variance Samples.box_kernel
       Samples.identical_prices None None 5 = HighDensity.Returned None.
Proof.
  split.
  - apply (proj1 (no_estimate_on_few_prices_or_zero_spread
                    Samples.variance Samples.box_kernel
                    Samples.three_prices None None 5)).
    simpl. lia.
  - apply (proj1 (proj2 (no_estimate_on_few_prices_or_zero_spread
                           Samples.variance Samples.box_kernel
                           Samples.identical_prices None None 5))).
    + vm_compute. reflexivity.
    + vm_compute. reflexivity.
Defined.

(** C3 on the two samples.  With clusters at 120 and at 180 the result
    is the grid price of a peak that comes no later than the peak at
    index 799, the tallest one.  With no inner maximum the result is
    the left edge of a bin of width 5 that holds a price. *)
Lemma first_peak_or_most_common_bin_witness :
  (exists idx,
      HighDensity.identify_optimal_price Samples.variance Samples.box_kernel
        Samples.two_modes None None 5
      = HighDensity.Returned
          (Some (nth idx (HighDensity.linspace 100 200 1000) 0))
      /\ (idx <= 799)%nat)
  /\ (exists b,
         HighDensity.identify_optimal_price Samples.variance
           Samples.box_kernel Samples.no_modes None None 5
         = HighDensity.Returned (Some b)
         /\ bin_edge 5 b
         /\ (1 <= bin_count 5 b
                    (selected_costs Samples.no_modes None None))%nat).
Proof.
  split.
  - assert (H1 : (5 <= List.length
                         (selected_costs Samples.two_modes None None))%nat)
      by (simpl; lia).
    assert (H2 : HighDensity.spread_is_zero
                   (spread_of Samples.variance
                      (selected_costs Samples.two_modes None None))
                 = false)
      by (vm_compute; reflexivity).
    assert (H3 : col_min (selected_costs Samples.two_modes None None)
                 = Some 100)
      by (vm_compute; reflexivity).
    assert (H4 : col_max (selected_costs Samples.two_modes None None)
                 = Some 200)
      by (vm_compute; reflexivity).
    destruct (@first_peak_or_most_common_bin Samples.variance
                Samples.box_kernel Samples.two_modes None None 5 100 200
                _ H1 H2 eq_refl H3 H4) as [HA _].
    destruct HA as (idx & Hres & _ & Hfirst).
    + exists 199%nat.
      split; [apply find_peaks_local_maximum; vm_compute; auto |].
      split; [reflexivity |]. vm_compute. discriminate.
    + exists idx. split; [exact Hres |].
      apply (Hfirst 799%nat).
      split; [apply find_peaks_local_maximum; vm_compute; auto |].
      split; [reflexivity |]. vm_compute. discriminate.
  - assert (H1 : (5 <= List.length
                         (selected_costs Samples.no_modes None None))%nat)
      by (simpl; lia).
    assert (H2 : HighDensity.spread_is_zero
                   (spread_of Samples.variance
                      (selected_costs Samples.no_modes None None))
                 = false)
      by (vm_compute; reflexivity).
    assert (H3 : col_min (selected_costs Samples.no_modes None None)
                 = Some 100)
      by (vm_compute; reflexivity).
    assert (H4 : col_max (selected_costs Samples.no_modes None None)
                 = Some 200)
      by (vm_compute; reflexivity).
    destruct (@first_peak_or_most_common_bin Samples.variance
                Samples.box_kernel Samples.no_modes None None 5 100 200
                _ H1 H2 eq_refl H3 H4) as (_ & HB & _).
    destruct HB as (b & Hres & Hedge & Hpos & _).
    + intros idx [Hin _]. apply find_peaks_local_maximum in Hin.
      vm_compute in Hin. exact Hin.
    + reflexivity.
    + exists b. auto.
Defined.

(* ================================================================== *)
(** * The geocoding lookup *)
(* ================================================================== *)

Section GeocodingFacts.

Import Geocoding.

Variable http : string -> option (Q * Q).

Lemma lookup_store (k k' : string) (v : Q * Q) (c : cache) :
  lookup k' (store k v c)
  = if String.eqb k' k then Some v else lookup k' c.
Proof. reflexivity. Qed.

Lemma to_upper_idem (c : ascii) : to_upper (to_upper c) = to_upper c.
Proof.
  destruct c as [[] [] [] [] [] [] [] []]; reflexivity.
Qed.

Lemma to_upper_space (c : ascii) :
  Ascii.eqb (to_upper c) " "%char = Ascii.eqb c " "%char.
Proof.
  destruct c as [[] [] [] [] [] [] [] []]; reflexivity.
Qed.

Lemma remove_spaces_upper (s : string) :
  remove_spaces (upper s) = upper (remove_spaces s).
Proof.
  induction s as [| c s IH]; [reflexivity |].
  simpl. rewrite to_upper_space.
  destruct (Ascii.eqb c " "%char); simpl; congruence.
Qed.

Lemma upper_idem (s : string) : upper (upper s) = upper s.
Proof.
  induction s as [| c s IH]; simpl; [reflexivity |].
  now rewrite to_upper_idem, IH.
Qed.

Lemma remove_spaces_idem (s : string) :
  remove_spaces (remove_spaces s) = remove_spaces s.
Proof.
  induction s as [| c s IH]; simpl; [reflexivity |].
  destruct (Ascii.eqb c " "%char) eqn:E; simpl; [exact IH |].
  now rewrite E, IH.
Qed.

Lemma clean_postcode_idem (s : string) :
  clean_postcode (clean_postcode s) = clean_postcode s.
Proof.
  unfold clean_postcode.
  now rewrite remove_spaces_upper, remove_spaces_idem, upper_idem.
Qed.

(** The two-stage fallback of the code, read as one pass through
    [attempts]. *)
Lemma get_lat_lon_from_api_miss (postcode : string) (w : world) :
  lookup (clean_postcode postcode) (postcode_cache w) = None ->
  get_lat_lon_from_api http postcode w
  = let p := clean_postcode postcode in
    let '(answer, asked) := try_urls http (attempts p) in
    match answer with
    | Some v =>
        (Return v,
         {| postcode_cache := store p v (postcode_cache w);
            requests := requests w ++ asked |})
    | None =>
        (Raise (not_found p),
         {| postcode_cache := postcode_cache w;
            requests := requests w ++ asked |})
    end.
Proof.
  intros Hmiss. unfold get_lat_lon_from_api. rewrite Hmiss.
  cbv zeta. unfold attempts, fetch_lat_lon.
  set (p := clean_postcode postcode).
  destruct (Nat.ltb_spec 4 (String.length p)) as [L4 | L4].
  - assert (E4 : (4 <=? String.length p)%nat = true)
      by (apply Nat.leb_le; lia).
    assert (E3 : (3 <=? String.length p)%nat = true)
      by (apply Nat.leb_le; lia).
    rewrite E4, E3. simpl.
    destruct (http (postcodes_url p)) as [v|]; simpl.
    + reflexivity.
    + destruct (http (outcodes_url (prefix 4 p))) as [v|]; simpl.
      * rewrite <- app_assoc. reflexivity.
      * destruct (http (outcodes_url (prefix 3 p))) as [v|]; simpl;
          rewrite <- !app_assoc; reflexivity.
  - destruct (3 <=? String.length p)%nat; simpl.
    + destruct (http (outcodes_url (prefix 3 p))) as [v|]; reflexivity.
    + rewrite app_nil_r. destruct w; reflexivity.
Qed.

Lemma try_urls_asked (urls : list string) :
  (List.length (snd (try_urls http urls)) <= List.length urls)%nat.
Proof.
  induction urls as [| u urls IH]; simpl; [lia |].
  destruct (http u); simpl; [lia |].
  destruct (try_urls http urls); simpl in *. lia.
Qed.

Lemma attempts_length (p : string) : (List.length (attempts p) <= 3)%nat.
Proof.
  unfold attempts.
  destruct (4 <? String.length p)%nat, (3 <=? String.length p)%nat;
    simpl; lia.
Qed.

(** X1. On a cache miss the lookup asks the service, in this order, for
    the full postcode and for the 4-character outcode (both only when
    the cleaned postcode has more than 4 characters) and for the
    3-character outcode (when it has at least 3), and stops at the first
    answer: at most three requests.  It returns that answer and caches
    it under the cleaned postcode; when no request is answered it raises
    the not-found error and leaves the cache as it was. *)
Theorem lookup_falls_back_in_order (postcode : string) (w : world) :
  lookup (clean_postcode postcode) (postcode_cache w) = None ->
  let p := clean_postcode postcode in
  let result := fst (get_lat_lon_from_api http postcode w) in
  let w' := snd (get_lat_lon_from_api http postcode w) in
  ((4 < String.length p)%nat ->
   attempts p = [postcodes_url p; outcodes_url (prefix 4 p);
                 outcodes_url (prefix 3 p)])
  /\ ((3 <= String.length p <= 4)%nat ->
      attempts p = [outcodes_url (prefix 3 p)])
  /\ ((String.length p < 3)%nat -> attempts p = [])
  /\ requests w' = requests w ++ snd (try_urls http (attempts p))
  /\ (List.length (requests w') <= List.length (requests w) + 3)%nat
  /\ (forall v, resolve http p = Some v ->
                result = Return v
                /\ postcode_cache w' = store p v (postcode_cache w))
  /\ (resolve http p = None ->
      result = Raise (not_found p)
      /\ postcode_cache w' = postcode_cache w).
Proof.
  intros Hmiss p result w'.
  split; [| split; [| split]].
  - intros H. unfold attempts.
    apply Nat.ltb_lt in H. rewrite H.
    assert (E : (3 <=? String.length p)%nat = true)
      by (apply Nat.leb_le; apply Nat.ltb_lt in H; lia).
    rewrite E. reflexivity.
  - intros [H3 H4]. unfold attempts.
    assert (E4 : (4 <? String.length p)%nat = false)
      by (apply Nat.ltb_ge; exact H4).
    apply Nat.leb_le in H3. rewrite E4, H3. reflexivity.
  - intros H. unfold attempts.
    assert (E4 : (4 <? String.length p)%nat = false)
      by (apply Nat.ltb_ge; lia).
    assert (E3 : (3 <=? String.length p)%nat = false)
      by (apply Nat.leb_gt; exact H).
    rewrite E4, E3. reflexivity.
  - subst result w'. rewrite (get_lat_lon_from_api_miss _ _ Hmiss).
    cbv zeta. fold p. unfold resolve.
    pose proof (try_urls_asked (attempts p)) as La.
    pose proof (attempts_length p) as Lb.
    destruct (try_urls http (attempts p)) as [[v|] asked]; simpl in *.
    + split; [reflexivity |]. split; [rewrite length_app; lia |].
      split; [| discriminate].
      intros v' E. injection E as <-. auto.
    + split; [reflexivity |]. split; [rewrite length_app; lia |].
      split; [discriminate | auto].
Qed.

(** X2. A resolved postcode stays resolved: after a call that returned
    coordinates, a call for any spelling of the same postcode (the same
    string once spaces are removed and letters are upper-cased) returns
    the same coordinates from the cache, makes no request and changes
    nothing. *)
Theorem resolved_postcode_is_served_from_cache
  (postcode again : string) (w w' : world) (v : Q * Q) :
  get_lat_lon_from_api http postcode w = (Return v, w') ->
  clean_postcode again = clean_postcode postcode ->
  get_lat_lon_from_api http again w' = (Return v, w').
Proof.
  intros Hcall Hsame.
  assert (Hhit : lookup (clean_postcode postcode) (postcode_cache w')
                 = Some v).
  { destruct (lookup (clean_postcode postcode) (postcode_cache w))
      as [v0|] eqn:E.
    - unfold get_lat_lon_from_api in Hcall. rewrite E in Hcall.
      injection Hcall as <- <-. exact E.
    - rewrite (get_lat_lon_from_api_miss _ _ E) in Hcall. cbv zeta in Hcall.
      destruct (try_urls http (attempts (clean_postcode postcode)))
        as [[v0|] asked]; [| discriminate].
      injection Hcall as <- <-. simpl.
      rewrite String.eqb_refl. reflexivity. }
  unfold get_lat_lon_from_api. rewrite Hsame, Hhit. reflexivity.
Qed.

(** X3. A postcode whose cleaned form has fewer than 3 characters is
    answered from the cache only: when it is not cached the call raises
    the not-found error without making a request, and the cache and the
    list of requests are left as they were. *)
Theorem short_postcode_is_never_requested (postcode : string) (w : world) :
  (String.length (clean_postcode postcode) < 3)%nat ->
  lookup (clean_postcode postcode) (postcode_cache w) = None ->
  get_lat_lon_from_api http postcode w
  = (Raise (not_found (clean_postcode postcode)), w).
Proof.
  intros Hshort Hmiss. rewrite (get_lat_lon_from_api_miss _ _ Hmiss).
  cbv zeta. unfold attempts.
  assert (E4 : (4 <? String.length (clean_postcode postcode))%nat = false)
    by (apply Nat.ltb_ge; lia).
  assert (E3 : (3 <=? String.length (clean_postcode postcode))%nat = false)
    by (apply Nat.leb_gt; exact Hshort).
  rewrite E4, E3. simpl. rewrite app_nil_r. destruct w; reflexivity.
Qed.

(** X4. The cache does not change answers.  When every cached entry is
    what the service says for its key, a lookup returns what the service
    says for the cleaned postcode (its first answer along the fallback
    chain, or the not-found error), whether or not the postcode is
    cached; and the cache it leaves still has that property. *)
Theorem coherent_cache_is_transparent (postcode : string) (w : world) :
  coherent http (postcode_cache w) ->
  fst (get_lat_lon_from_api http postcode w)
  = match resolve http (clean_postcode postcode) with
    | Some v => Return v
    | None => Raise (not_found (clean_postcode postcode))
    end
  /\ coherent http (postcode_cache (snd (get_lat_lon_from_api http postcode w))).
Proof.
  intros Hco.
  destruct (lookup (clean_postcode postcode) (postcode_cache w))
    as [v|] eqn:E.
  - unfold get_lat_lon_from_api. rewrite E. simpl.
    rewrite (Hco _ _ E). auto.
  - rewrite (get_lat_lon_from_api_miss _ _ E). cbv zeta. unfold resolve.
    destruct (try_urls http (attempts (clean_postcode postcode)))
      as [[v|] asked] eqn:T; simpl.
    + split; [reflexivity |].
      intros k v' Hk. simpl in Hk.
      destruct (String.eqb_spec k (clean_postcode postcode)) as [-> | Hne].
      * injection Hk as <-. unfold resolve. now rewrite T.
      * apply Hco. exact Hk.
    + split; [reflexivity | exact Hco].
Qed.

End GeocodingFacts.

(** X1 on the service that knows the outcode of "ab1 2cd" but not the
    full postcode: the second request is answered, and the answer is
    cached under "AB12CD". *)
Lemma lookup_falls_back_in_order_witness :
  fst (Geocoding.get_lat_lon_from_api Samples.service "ab1 2cd" Samples.fresh)
  = Geocoding.Return (57, -2)
  /\ Geocoding.postcode_cache
       (snd (Geocoding.get_lat_lon_from_api Samples.service "ab1 2cd"
               Samples.fresh))
     = [("AB12CD"%string, (57, -2))]
  /\ Geocoding.requests
       (snd (Geocoding.get_lat_lon_from_api Samples.service "ab1 2cd"
               Samples.fresh))
     = [Geocoding.postcodes_url "AB12CD"; Geocoding.outcodes_url "AB12"].
Proof.
  destruct (@lookup_falls_back_in_order Samples.service "ab1 2cd"
              Samples.fresh eq_refl)
    as (_ & _ & _ & Hreq & _ & Hsome & _).
  destruct (Hsome (57, -2) eq_refl) as [Hr Hc].
  split; [exact Hr |]. split; [exact Hc | exact Hreq].
Defined.

(** X2: after "ab1 2cd" was resolved, "AB12CD" is answered from the
    cache. *)
Lemma resolved_postcode_is_served_from_cache_witness :
  let w' := snd (Geocoding.get_lat_lon_from_api Samples.service "ab1 2cd"
                   Samples.fresh) in
  Geocoding.get_lat_lon_from_api Samples.service "AB12CD" w'
  = (Geocoding.Return (57, -2), w').
Proof.
  intros w'.
  apply (@resolved_postcode_is_served_from_cache Samples.service
           "ab1 2cd" "AB12CD" Samples.fresh w' (57, -2));
    reflexivity.
Defined.

(** X3 on the postcode "b 1". *)
Lemma short_postcode_is_never_requested_witness :
  Geocoding.get_lat_lon_from_api Samples.service "b 1" Samples.fresh
  = (Geocoding.Raise (Geocoding.not_found "B1"), Samples.fresh).
Proof.
  apply (@short_postcode_is_never_requested Samples.service "b 1"
           Samples.fresh).
  - simpl. lia.
  - reflexivity.
Defined.

(** X4 on the empty cache, which is coherent with any service. *)
Lemma coherent_cache_is_transparent_witness :
  fst (Geocoding.get_lat_lon_from_api Samples.service "EF3 4GH"
         Samples.fresh)
  = Geocoding.Return (51, 0)
  /\ coherent Samples.service
       (Geocoding.postcode_cache
          (snd (Geocoding.get_lat_lon_from_api Samples.service "EF3 4GH"
                  Samples.fresh))).
Proof.
  apply (@coherent_cache_is_transparent Samples.service "EF3 4GH"
           Samples.fresh).
  intros k v H. discriminate H.
Defined.

(* ================================================================== *)
(** * Further properties of the matching tiers *)
(* ================================================================== *)

Section SearchFacts.

Variable get_lat_lon_from_api : string -> option (Q * Q).
Variables radians sin cos asin sqrt : Q -> Q.

Local Abbreviation enrich := (SimilarRoutes.enrich radians sin cos asin sqrt).
Local Abbreviation find_similar_routes_by_postcode :=
  (SimilarRoutes.find_similar_routes_by_postcode
     get_lat_lon_from_api radians sin cos asin sqrt).

Lemma kor_comm (a b : kleene) : kor a b = kor b a.
Proof. destruct a as [[|]|], b as [[|]|]; reflexivity. Qed.

(** Two ways of enriching and filtering that agree row by row give the
    same tier. *)
Lemma tier_ext (vt1 vt2 : option string)
  (p1 p2 : SimilarRoutes.enriched -> kleene)
  (e1 e2 : shipment -> SimilarRoutes.enriched) (df : list shipment) :
  (forall r, In r df ->
     SimilarRoutes.source (e1 r) = SimilarRoutes.source (e2 r)
     /\ keeps (kand (SimilarRoutes.combined_filter vt1 (e1 r)) (p1 (e1 r)))
        = keeps (kand (SimilarRoutes.combined_filter vt2 (e2 r))
                   (p2 (e2 r)))) ->
  SimilarRoutes.tier vt1 p1 (map e1 df)
  = SimilarRoutes.tier vt2 p2 (map e2 df).
Proof.
  unfold SimilarRoutes.tier, filter_rows.
  induction df as [| r df IH]; intros H; [reflexivity |].
  simpl. destruct (H r (or_introl eq_refl)) as [Hs Hk]. rewrite Hk.
  assert (IH' := IH (fun x Hx => H x (or_intror Hx))).
  clear Hk H IH.
  destruct (keeps (kand (SimilarRoutes.combined_filter vt2 (e2 r))
                     (p2 (e2 r))));
    simpl; [| exact IH'].
  f_equal; [| exact IH'].
  unfold SimilarRoutes.select_required. now rewrite Hs.
Qed.

Lemma prefix_2_of_3 (a b : string) :
  prefix 3 a = prefix 3 b -> prefix 2 a = prefix 2 b.
Proof.
  unfold prefix.
  destruct a as [| a1 [| a2 [| a3 a]]], b as [| b1 [| b2 [| b3 b]]];
    simpl; intros H; inversion H; reflexivity.
Qed.

Lemma str_eq_prefix (n : nat) (column : option string) (target : string) :
  str_eq (omap (prefix n) column) (Some (prefix n target)) = Some true <->
  exists s, column = Some s /\ prefix n s = prefix n target.
Proof.
  destruct column as [s|]; simpl.
  - split.
    + intros H. injection H as H. apply String.eqb_eq in H. eauto.
    + intros (s' & E & H). injection E as <-.
      f_equal. now apply String.eqb_eq.
  - split; [discriminate | intros (s' & E & _); discriminate].
Qed.

(** A row that matches on 3-letter prefixes matches on 2-letter
    prefixes. *)
Lemma prefix_match_3_2 (target_origin target_dest : Q * Q)
  (origin dest : string) (r : shipment) :
  let e := enrich target_origin target_dest r in
  SimilarRoutes.prefix_match
    SimilarRoutes.origin_prefix_3 SimilarRoutes.dest_prefix_3
    (prefix 3 origin) (prefix 3 dest) e = Some true ->
  SimilarRoutes.prefix_match
    SimilarRoutes.origin_prefix_2 SimilarRoutes.dest_prefix_2
    (prefix 2 origin) (prefix 2 dest) e = Some true.
Proof.
  intros e. unfold SimilarRoutes.prefix_match; subst e; simpl.
  rewrite !kor_true, !kand_true, !str_eq_prefix.
  intros [[(s1 & E1 & H1) (s2 & E2 & H2)] | [(s1 & E1 & H1) (s2 & E2 & H2)]];
    [left | right]; split; eexists; (split; [eassumption |]);
    now apply prefix_2_of_3.
Qed.

(** X5. The search is undirected: swapping the origin and the
    destination postcode of the query gives the same four tiers, and
    fails in the same cases. *)
Theorem search_is_undirected (df : list shipment) (origin dest : string)
  (vehicle_type : option string) :
  find_similar_routes_by_postcode df origin dest vehicle_type
  = find_similar_routes_by_postcode df dest origin vehicle_type.
Proof.
  unfold SimilarRoutes.find_similar_routes_by_postcode.
  destruct (get_lat_lon_from_api (clean_postcode origin)) as [to|],
           (get_lat_lon_from_api (clean_postcode dest)) as [td|];
    try reflexivity.
  f_equal. f_equal; [f_equal; [f_equal |] |].
  - apply tier_ext. intros r _. split; [reflexivity |].
    unfold SimilarRoutes.prefix_match; simpl. now rewrite kor_comm.
  - apply tier_ext. intros r _. split; [reflexivity |].
    unfold SimilarRoutes.within; simpl. now rewrite kor_comm.
  - apply tier_ext. intros r _. split; [reflexivity |].
    unfold SimilarRoutes.within; simpl. now rewrite kor_comm.
  - apply tier_ext. intros r _. split; [reflexivity |].
    unfold SimilarRoutes.prefix_match; simpl. now rewrite kor_comm.
Qed.

(** X6. Every row of the 3-letter tier is a row of the 2-letter
    tier. *)
Theorem three_letter_tier_within_two_letter_tier
  (df : list shipment) (origin dest : string) (vehicle_type : option string)
  (m3 w10 w20 m2 : list match_row) :
  find_similar_routes_by_postcode df origin dest vehicle_type
  = Some (m3, w10, w20, m2) ->
  forall x, In x m3 -> In x m2.
Proof.
  intros H x.
  unfold SimilarRoutes.find_similar_routes_by_postcode in H.
  destruct (get_lat_lon_from_api (clean_postcode origin)) as [to|];
    [| discriminate].
  destruct (get_lat_lon_from_api (clean_postcode dest)) as [td|];
    [| discriminate].
  injection H as <- _ _ <-.
  unfold SimilarRoutes.tier, filter_rows. rewrite !in_map_iff.
  intros (e & He & Hin). exists e. split; [exact He |].
  apply filter_In in Hin. destruct Hin as [Hin Hk].
  apply filter_In. split; [exact Hin |].
  apply in_map_iff in Hin. destruct Hin as (r & <- & _).
  rewrite keeps_true, kand_true in *. destruct Hk as [Hc Hp].
  split; [exact Hc |]. now apply prefix_match_3_2.
Qed.

Lemma tier_In_inv (vt : option string) (p : SimilarRoutes.enriched -> kleene)
  (e : shipment -> SimilarRoutes.enriched) (df : list shipment)
  (x : match_row) :
  In x (SimilarRoutes.tier vt p (map e df)) ->
  exists r, In r df
            /\ x = SimilarRoutes.select_required (e r)
            /\ SimilarRoutes.combined_filter vt (e r) = Some true
            /\ p (e r) = Some true.
Proof.
  unfold SimilarRoutes.tier, filter_rows. rewrite in_map_iff.
  intros (y & <- & Hin). apply filter_In in Hin. destruct Hin as [Hin Hk].
  apply in_map_iff in Hin. destruct Hin as (r & <- & Hr).
  apply keeps_true, kand_true in Hk. destruct Hk as [Hc Hp].
  exists r. auto.
Qed.

Lemma combined_filter_true (vt : option string) (target_origin target_dest : Q * Q)
  (r : shipment) :
  SimilarRoutes.combined_filter vt (enrich target_origin target_dest r)
  = Some true ->
  (exists p, s_carrier_price r = Some p /\ ~ p == 0)
  /\ (forall v, vt = Some v -> s_vehicle_type r = Some v).
Proof.
  unfold SimilarRoutes.combined_filter, SimilarRoutes.carrier_price_filter,
    SimilarRoutes.vehicle_filter; simpl.
  rewrite !kand_true. intros [[_ Hp] Hv]. split.
  - destruct (s_carrier_price r) as [p|]; [| discriminate].
    exists p. split; [reflexivity |].
    simpl in Hp. injection Hp as Hp. apply negb_true_iff in Hp.
    now apply Qeq_bool_neq.
  - intros v ->. destruct (s_vehicle_type r) as [v'|]; [| discriminate].
    simpl in Hv. injection Hv as Hv. apply String.eqb_eq in Hv. now subst.
Qed.

(** X7. Every row of every tier is the projection of a row of the
    dataset that passed the base filter: it has the values of that row
    in all nine columns that the tiers keep, its carrier price is
    present and not zero, and when a vehicle type was asked for it has
    exactly that vehicle type. *)
Theorem tiers_hold_priced_rows_of_the_vehicle
  (df : list shipment) (origin dest : string) (vehicle : option string)
  (m3 w10 w20 m2 : list match_row) :
  find_similar_routes_by_postcode df origin dest vehicle
  = Some (m3, w10, w20, m2) ->
  forall x, In x m3 \/ In x w10 \/ In x w20 \/ In x m2 ->
    (exists p, carrier_price x = Some p /\ ~ p == 0)
    /\ (forall v, vehicle = Some v -> vehicle_type x = Some v)
    /\ exists r, In r df
                 /\ origin_postcode x = s_origin_postcode r
                 /\ destination_postcode x = s_destination_postcode r
                 /\ carrier_price x = s_carrier_price r
                 /\ vehicle_type x = s_vehicle_type r
                 /\ pickup_date x = s_pickup_date r
                 /\ contract_type x = s_contract_type r
                 /\ shipper_price x = s_shipper_price r
                 /\ carrier_name x = s_carrier_name r
                 /\ shipper_id x = s_shipper_id r.
Proof.
  intros H x Hx.
  unfold SimilarRoutes.find_similar_routes_by_postcode in H.
  destruct (get_lat_lon_from_api (clean_postcode origin)) as [to|];
    [| discriminate].
  destruct (get_lat_lon_from_api (clean_postcode dest)) as [td|];
    [| discriminate].
  injection H as <- <- <- <-.
  assert (G : exists r, In r df
                /\ x = SimilarRoutes.select_required (enrich to td r)
                /\ SimilarRoutes.combined_filter vehicle (enrich to td r)
                   = Some true).
  { destruct Hx as [Hx | [Hx | [Hx | Hx]]];
      apply tier_In_inv in Hx; destruct Hx as (r & Hr & E & Hc & _);
      exists r; auto. }
  destruct G as (r & Hr & -> & Hc).
  apply combined_filter_true in Hc. destruct Hc as [Hp Hv].
  split; [exact Hp |]. split; [exact Hv |].
  exists r. simpl. repeat split; [exact Hr | reflexivity..].
Qed.

Lemma keeps_kand3 (c k p : kleene) :
  keeps (kand (kand c k) p)
  = keeps k && keeps (kand (kand c (Some true)) p).
Proof.
  destruct c as [[|]|], k as [[|]|], p as [[|]|]; reflexivity.
Qed.

Lemma combined_filter_vehicle (v : string)
  (p : SimilarRoutes.enriched -> kleene) (e : SimilarRoutes.enriched) :
  keeps (kand (SimilarRoutes.combined_filter (Some v) e) (p e))
  = keeps (str_eq (s_vehicle_type (SimilarRoutes.source e)) (Some v))
    && keeps (kand (SimilarRoutes.combined_filter None e) (p e)).
Proof.
  unfold SimilarRoutes.combined_filter, SimilarRoutes.vehicle_filter.
  apply keeps_kand3.
Qed.

Lemma tier_prefilter (v : string) (p : SimilarRoutes.enriched -> kleene)
  (target_origin target_dest : Q * Q) (df : list shipment) :
  SimilarRoutes.tier None p
    (map (enrich target_origin target_dest)
       (filter_rows (fun r => str_eq (s_vehicle_type r) (Some v)) df))
  = SimilarRoutes.tier (Some v) p
      (map (enrich target_origin target_dest) df).
Proof.
  unfold SimilarRoutes.tier, filter_rows.
  induction df as [| r df IH]; [reflexivity |].
  cbn [filter map]. rewrite combined_filter_vehicle.
  change (SimilarRoutes.source (enrich target_origin target_dest r)) with r.
  destruct (keeps (str_eq (s_vehicle_type r) (Some v))).
  - cbn [filter map andb].
    destruct (keeps (kand (SimilarRoutes.combined_filter None
                             (enrich target_origin target_dest r))
                       (p (enrich target_origin target_dest r))));
      cbn [map]; now rewrite IH.
  - cbn [andb]. exact IH.
Qed.

(** X8. Filtering the dataset by the selected vehicle type before the
    search, as the page does, gives the same tiers as handing the
    vehicle type to the search; selecting "All vehicle types" searches
    the whole dataset without a vehicle filter. *)
Theorem vehicle_prefilter_is_vehicle_filter
  (df : list shipment) (origin dest selected : string) :
  find_similar_routes_by_postcode (App.df_filtered df selected)
    origin dest None
  = find_similar_routes_by_postcode df origin dest
      (if String.eqb selected App.all_vehicle_types then None
       else Some selected).
Proof.
  unfold App.df_filtered.
  destruct (String.eqb selected App.all_vehicle_types); [reflexivity |].
  unfold SimilarRoutes.find_similar_routes_by_postcode.
  destruct (get_lat_lon_from_api (clean_postcode origin)) as [to|];
    [| reflexivity].
  destruct (get_lat_lon_from_api (clean_postcode dest)) as [td|];
    [| reflexivity].
  now rewrite !tier_prefilter.
Qed.

End SearchFacts.

(** X6 on the sample search: the load without an origin latitude, a row
    of the 3-letter tier, is a row of the 2-letter tier. *)
Lemma three_letter_tier_within_two_letter_tier_witness :
  In Samples.unlocated_row [Samples.located_row; Samples.unlocated_row].
Proof.
  apply (@three_letter_tier_within_two_letter_tier
           Samples.two_places Samples.same Samples.same Samples.same
           Samples.same Samples.same
           [Samples.located; Samples.unlocated] "ab1 2cd" "EF3 4GH" None
           _ _ _ _ sample_search_tiers).
  right. left. reflexivity.
Defined.

(** X7 on the sample search: the rows of the 10 km tier carry a price. *)
Lemma tiers_hold_priced_rows_of_the_vehicle_witness :
  exists p, carrier_price Samples.located_row = Some p /\ ~ p == 0.
Proof.
  apply (@tiers_hold_priced_rows_of_the_vehicle
           Samples.two_places Samples.same Samples.same Samples.same
           Samples.same Samples.same
           [Samples.located; Samples.unlocated] "ab1 2cd" "EF3 4GH" None
           _ _ _ _ sample_search_tiers Samples.located_row).
  left. left. reflexivity.
Defined.

(* ================================================================== *)
(** * The weighted average of [estimate_price_from_df] *)
(* ================================================================== *)

Section WeightedAverageFacts.

Import PriceEstimator.

Lemma has_value_fadd (a b : f64) (x y : Q) :
  has_value a x -> has_value b y -> has_value (fadd a b) (x + y).
Proof.
  intros (a' & -> & Ha) (b' & -> & Hb). exists (a' + b'). split; [reflexivity |].
  now rewrite Ha, Hb.
Qed.

Lemma has_value_fmul (a b : f64) (x y : Q) :
  has_value a x -> has_value b y -> has_value (fmul a b) (x * y).
Proof.
  intros (a' & -> & Ha) (b' & -> & Hb). exists (a' * b'). split; [reflexivity |].
  now rewrite Ha, Hb.
Qed.

Lemma has_value_fdiv (a b : f64) (x y : Q) :
  has_value a x -> has_value b y -> ~ y == 0 -> has_value (fdiv a b) (x / y).
Proof.
  intros (a' & -> & Ha) (b' & -> & Hb) Hy. simpl.
  destruct (Qeq_bool b' 0) eqn:E.
  - apply Qeq_bool_iff in E. exfalso. apply Hy. now rewrite <- Hb.
  - exists (a' / b'). split; [reflexivity |]. now rewrite Ha, Hb.
Qed.

Lemma has_value_Qeq (a : f64) (x y : Q) :
  has_value a x -> x == y -> has_value a y.
Proof.
  intros (a' & -> & Ha) E. exists a'. split; [reflexivity |].
  now rewrite Ha.
Qed.

Lemma has_value_finite (q : Q) : has_value (Finite q) q.
Proof. exists q. split; reflexivity. Qed.

Lemma has_value_fold (l : list f64) (a : f64) (x : Q) :
  has_value a x ->
  Forall (fun b => exists q, b = Finite q) l ->
  has_value (fold_left fadd l a) (x + qsum (map value_of l)).
Proof.
  revert a x. induction l as [| b l IH]; intros a x Ha Hl; simpl.
  - apply (has_value_Qeq Ha). ring.
  - inversion Hl as [| ? ? (q & ->) Hl']; subst.
    apply (has_value_Qeq (x := (x + q) + qsum (map value_of l))).
    + apply IH; [| exact Hl'].
      apply has_value_fadd; [exact Ha | apply has_value_finite].
    + simpl. ring.
Qed.

(** The float sum of finite numbers is their sum. *)
Lemma has_value_fsum (l : list f64) :
  Forall (fun b => exists q, b = Finite q) l ->
  has_value (fsum l) (qsum (map value_of l)).
Proof.
  intros H. unfold fsum.
  apply (has_value_Qeq (x := 0 + qsum (map value_of l))).
  - apply has_value_fold; [apply has_value_finite | exact H].
  - ring.
Qed.

Lemma qsum_app (l1 l2 : list Q) : qsum (l1 ++ l2) == qsum l1 + qsum l2.
Proof.
  induction l1 as [| x l1 IH]; simpl; [ring |]. rewrite IH. ring.
Qed.

Lemma qsum_perm (l1 l2 : list Q) :
  Permutation l1 l2 -> qsum l1 == qsum l2.
Proof.
  induction 1; simpl; try ring.
  - now rewrite IHPermutation.
  - now rewrite IHPermutation1.
Qed.

(** ** The groups partition the rows *)

Lemma add_to_groups_rows (r : priced_row * f64) (gs : list members) :
  Permutation (List.concat (map rows_of (add_to_groups r gs)))
              (r :: List.concat (map rows_of gs)).
Proof.
  induction gs as [| g gs IH]; simpl; [reflexivity |].
  destruct (same_group (fst r) (fst (fst g))); simpl.
  - unfold rows_of at 1; simpl.
    change (fst g :: snd g ++ [r]) with ((fst g :: snd g) ++ [r]).
    rewrite <- app_assoc. simpl.
    symmetry.
    exact (Permutation_middle (fst g :: snd g)
             (List.concat (map rows_of gs)) r).
  - rewrite IH. symmetry.
    exact (Permutation_middle (rows_of g) (List.concat (map rows_of gs)) r).
Qed.

Lemma fold_add_rows (df : list (priced_row * f64)) (gs : list members) :
  Permutation
    (List.concat
       (map rows_of (fold_left (fun gs r => add_to_groups r gs) df gs)))
    (List.concat (map rows_of gs) ++ df).
Proof.
  revert gs. induction df as [| r df IH]; intros gs; simpl.
  - now rewrite app_nil_r.
  - rewrite IH, add_to_groups_rows. apply Permutation_middle.
Qed.

Lemma group_by_rows (df : list (priced_row * f64)) :
  Permutation (List.concat (map rows_of (group_by df))) df.
Proof.
  unfold group_by. rewrite fold_add_rows. reflexivity.
Qed.

Lemma add_to_groups_uniform (r : priced_row * f64) (gs : list members) :
  Forall uniform gs -> Forall uniform (add_to_groups r gs).
Proof.
  induction gs as [| g gs IH]; intros H; simpl.
  - constructor; [| constructor].
    intros x [<- | []]. apply same_group_refl.
  - inversion H as [| ? ? Hg Hgs]; subst.
    destruct (same_group (fst r) (fst (fst g))) eqn:E.
    + constructor; [| exact Hgs].
      intros x [<- | Hx]; simpl.
      * apply Hg. left. reflexivity.
      * apply in_app_iff in Hx. destruct Hx as [Hx | [<- | []]].
        -- apply Hg. right. exact Hx.
        -- exact E.
    + constructor; [exact Hg | now apply IH].
Qed.

Lemma group_by_uniform (df : list (priced_row * f64)) :
  Forall uniform (group_by df).
Proof.
  unfold group_by.
  assert (G : forall gs, Forall uniform gs ->
                Forall uniform
                  (fold_left (fun gs r => add_to_groups r gs) df gs)).
  { induction df as [| r df IH]; intros gs H; simpl; [exact H |].
    apply IH. now apply add_to_groups_uniform. }
  apply G. constructor.
Qed.

Lemma has_value_value_of (a : f64) (x : Q) :
  has_value a x -> value_of a == x.
Proof. intros (a' & -> & H). exact H. Qed.

Lemma has_value_is_finite (a : f64) (x : Q) :
  has_value a x -> exists q, a = Finite q.
Proof. intros (a' & -> & _). eauto. Qed.

(** A float sum taken group by group is the sum over all rows. *)
Lemma sum_over_groups (f : members -> f64) (h : Q * Q -> Q)
  (gs : list members) :
  (forall g, In g gs ->
     has_value (f g) (qsum (map h (map rated (rows_of g))))) ->
  has_value (fsum (map f gs))
    (qsum (map h (map rated (List.concat (map rows_of gs))))).
Proof.
  intros H.
  apply (has_value_Qeq (x := qsum (map value_of (map f gs)))).
  - apply has_value_fsum. apply Forall_forall. intros b Hb.
    apply in_map_iff in Hb. destruct Hb as (g & <- & Hg).
    exact (has_value_is_finite (H g Hg)).
  - induction gs as [| g gs IH]; [reflexivity |].
    simpl. rewrite !map_app, qsum_app.
    rewrite (has_value_value_of (H g (or_introl eq_refl))).
    rewrite IH; [unfold rows_of; simpl; ring |].
    intros g' Hg'. apply H. right. exact Hg'.
Qed.

Lemma of_nat_length_pos {A} (x : A) (l : list A) :
  0 < of_nat (List.length (x :: l)).
Proof. apply of_nat_pos. simpl. lia. Qed.

Lemma group_volume (g : members) :
  (forall x, In x (rows_of g) -> exists q, snd x = Finite q) ->
  has_value (adjusted_volume (agg g))
    (qsum (map snd (map rated (rows_of g)))).
Proof.
  intros Hfin. unfold adjusted_volume, agg.
  cbn [volume avg_time_weight g_carrier_price]. fold (rows_of g).
  set (n := of_nat (List.length (rows_of g))).
  set (S := qsum (map value_of (map snd (rows_of g)))).
  assert (Hn : 0 < n) by (apply of_nat_length_pos).
  apply (has_value_Qeq (x := n * (S / n))).
  - apply has_value_fmul; [apply has_value_finite |].
    unfold fmean. rewrite length_map.
    apply has_value_fdiv; [| apply has_value_finite | fold n; lra].
    apply has_value_fsum. apply Forall_forall. intros b Hb.
    apply in_map_iff in Hb. destruct Hb as (x & <- & Hx). now apply Hfin.
  - unfold S. rewrite !map_map. simpl.
    set (T := qsum (map (fun x => value_of (snd x)) (rows_of g))).
    field. lra.
Qed.

Lemma uniform_prices (g : members) :
  uniform g ->
  qsum (map (fun pw => fst pw * snd pw) (map rated (rows_of g)))
  == price (fst (fst g)) * qsum (map snd (map rated (rows_of g))).
Proof.
  intros Hu. unfold uniform in Hu.
  induction (rows_of g) as [| x l IH]; simpl; [ring |].
  assert (Hx : price (fst x) == price (fst (fst g))).
  { apply (same_group_spec (fst x) (fst (fst g))). apply Hu. left. reflexivity. }
  rewrite IH by (intros y Hy; apply Hu; right; exact Hy).
  rewrite Hx. ring.
Qed.

Lemma group_cost (g : members) :
  uniform g ->
  (forall x, In x (rows_of g) -> exists q, snd x = Finite q) ->
  has_value (adjusted_cost (agg g))
    (qsum (map (fun pw => fst pw * snd pw) (map rated (rows_of g)))).
Proof.
  intros Hu Hfin. unfold adjusted_cost, agg.
  cbn [volume avg_time_weight g_carrier_price]. fold (rows_of g).
  set (n := of_nat (List.length (rows_of g))).
  set (S := qsum (map value_of (map snd (rows_of g)))).
  set (p := price (fst (fst g))).
  assert (Hn : 0 < n) by (apply of_nat_length_pos).
  apply (has_value_Qeq (x := p * n * (S / n))).
  - apply has_value_fmul;
      [apply has_value_fmul; apply has_value_finite |].
    unfold fmean. rewrite length_map.
    apply has_value_fdiv; [| apply has_value_finite | fold n; lra].
    apply has_value_fsum. apply Forall_forall. intros b Hb.
    apply in_map_iff in Hb. destruct Hb as (x & <- & Hx). now apply Hfin.
  - rewrite (uniform_prices Hu). fold p.
    unfold S. rewrite !map_map. simpl.
    set (T := qsum (map (fun x => value_of (snd x)) (rows_of g))).
    field. lra.
Qed.

Lemma total_weight_pos (l : list (Q * Q)) :
  l <> [] -> (forall pw, In pw l -> 0 < snd pw) -> 0 < total_weight l.
Proof.
  unfold total_weight.
  destruct l as [| x l]; [congruence |]. intros _ H.
  assert (G : forall l' : list (Q * Q),
             (forall pw, In pw l' -> 0 < snd pw) ->
             0 <= qsum (map snd l')).
  { induction l' as [| y l' IH]; intros H'; simpl; [lra |].
    assert (0 < snd y) by (apply H'; left; reflexivity).
    assert (0 <= qsum (map snd l'))
      by (apply IH; intros z Hz; apply H'; right; exact Hz).
    lra. }
  simpl. assert (0 < snd x) by (apply H; left; reflexivity).
  assert (0 <= qsum (map snd l))
    by (apply G; intros z Hz; apply H; right; exact Hz).
  lra.
Qed.

(** With positive finite weights, the reported figure is the sum of the
    weighted prices of the rows divided by the sum of their weights:
    the grouping does not show in it. *)
Lemma weighted_average_value (tw : bool) (cy : Z) (rows : list priced_row) :
  rows <> [] ->
  (forall r, In r rows -> positive_weight (time_weight tw cy r)) ->
  let l := map rated (df_with_weight tw cy rows) in
  has_value
    (volume_time_weighted_avg_cost (select_stats (grouped tw cy rows)))
    (weighted_prices l / total_weight l)
  /\ 0 < total_weight l
  /\ forall pw, In pw l -> 0 < snd pw.
Proof.
  intros Hne Hpos l.
  set (df := df_with_weight tw cy rows) in *.
  assert (Hfin : forall x, In x df -> exists q, snd x = Finite q /\ 0 < q).
  { intros x Hx. unfold df, df_with_weight in Hx.
    apply in_map_iff in Hx. destruct Hx as (r & <- & Hr). simpl.
    exact (Hpos r Hr). }
  pose proof (group_by_rows df) as P.
  pose proof (group_by_uniform df) as U. rewrite Forall_forall in U.
  assert (Hg : forall g x, In g (group_by df) -> In x (rows_of g) ->
                           exists q, snd x = Finite q).
  { intros g x Hin Hx.
    assert (Hd : In x df).
    { eapply Permutation_in; [exact P |].
      apply in_concat. exists (rows_of g). split; [| exact Hx].
      now apply in_map. }
    destruct (Hfin x Hd) as (q & E & _). eauto. }
  assert (Hl : forall pw, In pw l -> 0 < snd pw).
  { intros pw Hpw. unfold l in Hpw. apply in_map_iff in Hpw.
    destruct Hpw as (x & <- & Hx). destruct (Hfin x Hx) as (q & E & Hq).
    unfold rated; simpl. now rewrite E. }
  assert (Hw : 0 < total_weight l).
  { apply total_weight_pos; [| exact Hl].
    unfold l, df, df_with_weight. destruct rows; [congruence | discriminate]. }
  split; [| split; [exact Hw | exact Hl]].
  unfold select_stats, grouped; simpl. fold df. rewrite !map_map.
  apply has_value_fdiv.
  - apply (has_value_Qeq
             (x := qsum (map (fun pw => fst pw * snd pw)
                       (map rated (List.concat
                                     (map rows_of (group_by df)))))));
      [| unfold weighted_prices, l; apply qsum_perm;
         now do 2 apply Permutation_map].
    apply (sum_over_groups (fun g => adjusted_cost (agg g))).
    intros g Hin. apply group_cost; [now apply U |].
    intros x Hx. exact (Hg g x Hin Hx).
  - apply (has_value_Qeq
             (x := qsum (map snd
                       (map rated (List.concat
                                     (map rows_of (group_by df)))))));
      [| unfold total_weight, l; apply qsum_perm;
         now do 2 apply Permutation_map].
    apply (sum_over_groups (fun g => adjusted_volume (agg g))).
    intros g Hin. apply group_volume.
    intros x Hx. exact (Hg g x Hin Hx).
  - lra.
Qed.

End WeightedAverageFacts.

Section AverageTheorems.

Import PriceEstimator.

Lemma estimate_price_from_df_rows (cy : Z) (df : list match_row) (tw : bool)
  (s : stats) :
  estimate_price_from_df cy df tw = Some s -> filtered_df df <> [].
Proof.
  unfold estimate_price_from_df. destruct df as [| r df]; [discriminate |].
  destruct (filtered_df (r :: df)); [discriminate | discriminate].
Qed.

Lemma recency_weight_positive (cy : Z) (r : priced_row) :
  (dt_year (pickup r) <= cy)%Z ->
  time_weight true cy r = Finite (1 / inject_Z (years_ago cy r + 1))
  /\ 0 < 1 / inject_Z (years_ago cy r + 1).
Proof.
  intros H. unfold time_weight, fdiv, years_ago.
  rewrite inject_Z_eq_bool_zero.
  destruct (Z.eqb_spec (cy - dt_year (pickup r) + 1) 0) as [E | E]; [lia |].
  split; [reflexivity |].
  apply Qlt_shift_div_l.
  - change 0 with (inject_Z 0). rewrite <- Zlt_Qlt. lia.
  - lra.
Qed.

Lemma weighted_bounds (l : list (Q * Q)) (m M : Q) :
  (forall pw, In pw l -> m <= fst pw /\ fst pw <= M /\ 0 < snd pw) ->
  m * total_weight l <= weighted_prices l
  /\ weighted_prices l <= M * total_weight l.
Proof.
  unfold total_weight, weighted_prices.
  induction l as [| [p q] l IH]; intros H; simpl; [lra |].
  destruct (H (p, q) (or_introl eq_refl)) as (Hm & HM & Hq). simpl in *.
  destruct IH as [I1 I2]; [intros pw Hpw; apply H; right; exact Hpw |].
  assert (0 <= (p - m) * q) by (apply Qmult_le_0_compat; lra).
  assert (0 <= (M - p) * q) by (apply Qmult_le_0_compat; lra).
  split; lra.
Qed.

(** X9. Without time weighting, [volume_time_weighted_avg_cost] is the
    plain mean of the carrier price over all qualifying rows, each row
    counting once: unlike [avg_cost], it is not affected by the
    grouping. *)
Theorem unweighted_average_is_the_row_mean
  (current_year : Z) (df : list match_row) (s : stats) :
  estimate_price_from_df current_year df false = Some s ->
  exists a,
    volume_time_weighted_avg_cost s = Finite a
    /\ opt_Qeq (Some a) (mean (map price (filtered_df df))).
Proof.
  intros H. pose proof (estimate_price_from_df_rows _ _ _ H) as Hne.
  apply estimate_price_from_df_some in H. subst s.
  set (rows := filtered_df df) in *.
  destruct (@weighted_average_value false current_year rows Hne)
    as ((a & Ha & Hv) & Hw & _).
  { intros r _. exists 1. split; [reflexivity | lra]. }
  exists a. split; [exact Ha |].
  assert (E : map rated (df_with_weight false current_year rows)
              = map (fun r => (price r, 1)) rows).
  { unfold df_with_weight. rewrite map_map. reflexivity. }
  rewrite E in Hv, Hw.
  assert (Ew : weighted_prices (map (fun r => (price r, 1)) rows)
               == qsum (map price rows)).
  { unfold weighted_prices. rewrite map_map. simpl.
    clear. induction rows as [| r rows IH]; simpl; [reflexivity |].
    rewrite IH. ring. }
  assert (Et : total_weight (map (fun r => (price r, 1)) rows)
               == of_nat (List.length (map price rows))).
  { unfold total_weight. rewrite map_map, length_map. simpl.
    clear. induction rows as [| r rows IH]; [reflexivity |].
    change (qsum (map (fun _ : priced_row => 1) (r :: rows)))
      with (1 + qsum (map (fun _ : priced_row => 1) rows)).
    rewrite IH. unfold of_nat.
    change (List.length (r :: rows)) with (S (List.length rows)).
    rewrite Nat2Z.inj_succ, <- Z.add_1_r, inject_Z_plus.
    change (inject_Z 1) with 1. ring. }
  unfold mean. destruct (map price rows) as [| p ps] eqn:Ep.
  - destruct rows; [congruence | discriminate].
  - simpl. rewrite Hv, Ew, Et. reflexivity.
Qed.

(** X10. With time weighting, when no qualifying row is picked up after
    the current year, [volume_time_weighted_avg_cost] is the sum of
    price times weight over all qualifying rows divided by the sum of
    the weights, the weight of a row being [1 / (years_ago + 1)]; it
    is a finite number between [min_cost] and [max_cost]. *)
Theorem time_weighted_average_between_min_and_max
  (current_year : Z) (df : list match_row) (s : stats) :
  estimate_price_from_df current_year df true = Some s ->
  (forall r, In r (filtered_df df) ->
             (dt_year (pickup r) <= current_year)%Z) ->
  let l :=
    map (fun r => (price r, 1 / inject_Z (years_ago current_year r + 1)))
        (filtered_df df) in
  exists a m M,
    volume_time_weighted_avg_cost s = Finite a
    /\ a == weighted_prices l / total_weight l
    /\ min_cost s = Some m /\ max_cost s = Some M
    /\ m <= a /\ a <= M.
Proof.
  intros H Hpast l. pose proof (estimate_price_from_df_rows _ _ _ H) as Hne.
  apply estimate_price_from_df_some in H. subst s.
  set (rows := filtered_df df) in *.
  destruct (@weighted_average_value true current_year rows Hne)
    as ((a & Ha & Hv) & Hw & Hq).
  { intros r Hr. destruct (@recency_weight_positive current_year r (Hpast r Hr))
      as [E P]. rewrite E. eexists. split; [reflexivity | exact P]. }
  assert (E : map rated (df_with_weight true current_year rows) = l).
  { unfold df_with_weight, l. rewrite map_map. apply map_ext_in.
    intros r Hr. unfold rated. cbn [fst snd].
    destruct (@recency_weight_positive current_year r (Hpast r Hr)) as [-> _].
    reflexivity. }
  rewrite E in Hv, Hw, Hq.
  destruct (grouped_keys true current_year rows) as (_ & K2 & K3).
  set (groups := grouped true current_year rows) in *.
  assert (Hg : map g_carrier_price groups <> []).
  { destruct rows as [| r rows']; [congruence |].
    destruct (K3 r (or_introl eq_refl)) as (g & Hin & _).
    destruct groups; [destruct Hin | discriminate]. }
  destruct (col_min (map g_carrier_price groups)) as [m|] eqn:Em;
    [| destruct (map g_carrier_price groups); [congruence | discriminate]].
  destruct (col_max (map g_carrier_price groups)) as [M|] eqn:EM;
    [| destruct (map g_carrier_price groups); [congruence | discriminate]].
  exists a, m, M.
  split; [exact Ha |]. split; [exact Hv |].
  split; [exact Em |]. split; [exact EM |].
  apply col_min_spec in Em. apply col_max_spec in EM.
  destruct Em as [_ Lm], EM as [_ LM].
  destruct (@weighted_bounds l m M) as [B1 B2].
  { intros pw Hpw. split; [| split; [| now apply Hq]].
    - unfold l in Hpw. apply in_map_iff in Hpw.
      destruct Hpw as (r & <- & Hr). simpl.
      destruct (K3 r Hr) as (g & Hin & _ & Hp). rewrite <- Hp.
      apply Lm. now apply in_map.
    - unfold l in Hpw. apply in_map_iff in Hpw.
      destruct Hpw as (r & <- & Hr). simpl.
      destruct (K3 r Hr) as (g & Hin & _ & Hp). rewrite <- Hp.
      apply LM. now apply in_map. }
  rewrite Hv. split.
  - apply Qle_shift_div_l; assumption.
  - apply Qle_shift_div_r; assumption.
Qed.

End AverageTheorems.

(** X9 on the lane with two loads at 100 and one at 200: the figure is
    400/3, where [avg_cost] is 150. *)
Lemma unweighted_average_is_the_row_mean_witness :
  exists s a,
    PriceEstimator.estimate_price_from_df 2026 Samples.lane false = Some s
    /\ PriceEstimator.volume_time_weighted_avg_cost s = Finite a
    /\ a == 400 # 3.
Proof.
  destruct (@unweighted_average_is_the_row_mean 2026 Samples.lane _ eq_refl)
    as (a & Ha & Hm).
  eexists. exists a. split; [reflexivity |]. split; [exact Ha |].
  simpl in Hm. rewrite Hm. reflexivity.
Defined.

(** X10 on the same lane, picked up the year before the current one. *)
Lemma time_weighted_average_between_min_and_max_witness :
  exists s a,
    PriceEstimator.estimate_price_from_df 2026 Samples.lane true = Some s
    /\ PriceEstimator.volume_time_weighted_avg_cost s = Finite a
    /\ 100 <= a /\ a <= 200.
Proof.
  destruct (@time_weighted_average_between_min_and_max 2026 Samples.lane _
              eq_refl)
    as (a & m & M & Ha & _ & Hm & HM & L & U).
  { intros r Hr. simpl in Hr.
    repeat (destruct Hr as [<- | Hr]; [simpl; lia |]). destruct Hr. }
  eexists. exists a. split; [reflexivity |]. split; [exact Ha |].
  injection Hm as <-. injection HM as <-. split; assumption.
Defined.

(* ================================================================== *)
(** * Further properties of the statistics *)
(* ================================================================== *)

Section OrderFacts.

Import PriceEstimator.

Lemma qsum_bounds (l : list Q) (m M : Q) :
  (forall x, In x l -> m <= x /\ x <= M) ->
  of_nat (List.length l) * m <= qsum l
  /\ qsum l <= of_nat (List.length l) * M.
Proof.
  induction l as [| x l IH]; intros H.
  - change (0 * m <= 0 /\ 0 <= 0 * M). lra.
  - destruct (H x (or_introl eq_refl)) as [Hm HM].
    destruct IH as [I1 I2]; [intros y Hy; apply H; right; exact Hy |].
    change (qsum (x :: l)) with (x + qsum l).
    assert (E : of_nat (List.length (x :: l)) == of_nat (List.length l) + 1).
    { unfold of_nat. change (List.length (x :: l)) with (S (List.length l)).
      rewrite Nat2Z.inj_succ, <- Z.add_1_r, inject_Z_plus. reflexivity. }
    rewrite E. split; lra.
Qed.

(** The mean of a column lies between its minimum and its maximum. *)
Lemma mean_between (l : list Q) (m M a : Q) :
  col_min l = Some m -> col_max l = Some M -> mean l = Some a ->
  m <= a /\ a <= M.
Proof.
  intros Hm HM Ha. apply col_min_spec in Hm. apply col_max_spec in HM.
  destruct Hm as [_ Lm], HM as [_ LM].
  destruct l as [| x l]; [discriminate |].
  injection Ha as <-.
  destruct (@qsum_bounds (x :: l) m M) as [B1 B2];
    [intros y Hy; split; auto |].
  pose proof (of_nat_length_pos x l) as Hn.
  set (n := of_nat (List.length (x :: l))) in *.
  set (t := qsum (x :: l)) in *.
  split.
  - apply Qle_shift_div_l; [exact Hn | change (m * n <= t); lra].
  - apply Qle_shift_div_r; [exact Hn | change (t <= M * n); lra].
Qed.

Lemma sorted_nth_In (l : list Q) (i : nat) :
  (i < List.length l)%nat -> In (nth i (QSort.sort l) 0) l.
Proof.
  intros Hi. pose proof (QSort.Permuted_sort l) as P.
  eapply Permutation_in; [symmetry; exact P |].
  apply nth_In. now rewrite <- (Permutation_length P).
Qed.

(** The median of a column lies between its minimum and its maximum. *)
Lemma median_between (l : list Q) (m M d : Q) :
  col_min l = Some m -> col_max l = Some M -> median l = Some d ->
  m <= d /\ d <= M.
Proof.
  intros Hm HM Hd. apply col_min_spec in Hm. apply col_max_spec in HM.
  destruct Hm as [_ Lm], HM as [_ LM].
  destruct l as [| x l]; [discriminate |].
  unfold median in Hd.
  set (n := List.length (x :: l)) in *.
  assert (Hn : (0 < n)%nat) by (subst n; simpl; lia).
  assert (Hhalf : (n / 2 < n)%nat) by (apply Nat.div_lt; lia).
  destruct (Nat.even n) eqn:E.
  - assert (H1 : In (nth (n / 2 - 1) (QSort.sort (x :: l)) 0) (x :: l))
      by (apply sorted_nth_In; fold n; lia).
    assert (H2 : In (nth (n / 2) (QSort.sort (x :: l)) 0) (x :: l))
      by (apply sorted_nth_In; fold n; lia).
    set (u := nth (n / 2 - 1) (QSort.sort (x :: l)) 0) in *.
    set (v := nth (n / 2) (QSort.sort (x :: l)) 0) in *.
    assert (E' : d = (u + v) / 2) by congruence. rewrite E'.
    pose proof (Lm _ H1). pose proof (Lm _ H2).
    pose proof (LM _ H1). pose proof (LM _ H2).
    split.
    + apply Qle_shift_div_l; lra.
    + apply Qle_shift_div_r; lra.
  - assert (H2 : In (nth (n / 2) (QSort.sort (x :: l)) 0) (x :: l))
      by (apply sorted_nth_In; fold n; lia).
    assert (E' : d = nth (n / 2) (QSort.sort (x :: l)) 0) by congruence.
    rewrite E'. split; [apply Lm | apply LM]; exact H2.
Qed.

(** X11. Every returned statistic has a minimum, a mean, a median and a
    maximum, and both the mean and the median lie between the minimum
    and the maximum. *)
Theorem mean_and_median_between_min_and_max
  (current_year : Z) (df : list match_row) (use_time_weighting : bool)
  (s : stats) :
  estimate_price_from_df current_year df use_time_weighting = Some s ->
  exists m a d M,
    min_cost s = Some m /\ avg_cost s = Some a
    /\ median_cost s = Some d /\ max_cost s = Some M
    /\ m <= a /\ a <= M /\ m <= d /\ d <= M.
Proof.
  intros H. pose proof (estimate_price_from_df_rows _ _ _ H) as Hne.
  apply estimate_price_from_df_some in H. subst s.
  destruct (grouped_keys use_time_weighting current_year (filtered_df df))
    as (_ & _ & K3).
  unfold select_stats; simpl.
  set (prices := map g_carrier_price
                   (grouped use_time_weighting current_year (filtered_df df)))
    in *.
  assert (Hp : prices <> []).
  { destruct (filtered_df df) as [| r rows]; [congruence |].
    destruct (K3 r (or_introl eq_refl)) as (g & Hin & _).
    unfold prices.
    destruct (grouped use_time_weighting current_year (r :: rows));
      [destruct Hin | discriminate]. }
  destruct prices as [| p ps] eqn:E; [congruence |]. rewrite <- E in *.
  destruct (col_min prices) as [m|] eqn:Em; [| rewrite E in Em; discriminate].
  destruct (col_max prices) as [M|] eqn:EM; [| rewrite E in EM; discriminate].
  destruct (mean prices) as [a|] eqn:Ea; [| rewrite E in Ea; discriminate].
  destruct (median prices) as [d|] eqn:Ed.
  2:{ rewrite E in Ed. unfold median in Ed.
      destruct (Nat.even (List.length (p :: ps))); discriminate. }
  exists m, a, d, M.
  destruct (mean_between _ Em EM Ea). destruct (median_between _ Em EM Ed).
  repeat split; auto.
Qed.

(** X12. The standard deviation is missing exactly when all qualifying
    rows have the same route key and the same price, so that there is a
    single group. *)
Theorem stddev_missing_iff_one_group
  (current_year : Z) (df : list match_row) (use_time_weighting : bool)
  (s : stats) :
  estimate_price_from_df current_year df use_time_weighting = Some s ->
  (stddev_cost s = None <->
   forall r1 r2, In r1 (filtered_df df) -> In r2 (filtered_df df) ->
     route_key r1 = route_key r2 /\ price r1 == price r2).
Proof.
  intros H. apply estimate_price_from_df_some in H. subst s.
  destruct (grouped_keys use_time_weighting current_year (filtered_df df))
    as (K1 & K2 & K3).
  unfold select_stats; simpl. unfold std. rewrite length_map.
  set (groups := grouped use_time_weighting current_year (filtered_df df))
    in *.
  split.
  - intros Hnone r1 r2 H1 H2.
    destruct (List.length groups <=? 1)%nat eqn:E; [| discriminate].
    apply Nat.leb_le in E.
    destruct (K3 r1 H1) as (g1 & G1 & A1 & B1).
    destruct (K3 r2 H2) as (g2 & G2 & A2 & B2).
    assert (g1 = g2).
    { destruct groups as [| g [| g' gs]]; simpl in E; [destruct G1 | | lia].
      destruct G1 as [<- | []], G2 as [<- | []]. reflexivity. }
    subst g2. split; [congruence |]. rewrite <- B1, <- B2. reflexivity.
  - intros Hall.
    destruct groups as [| g1 [| g2 gs]]; try reflexivity.
    exfalso. inversion K1 as [| ? ? F _]; subst.
    inversion F as [| ? ? Hn _]; subst. apply Hn.
    destruct (K2 g1 (or_introl eq_refl)) as (r1 & R1 & A1 & B1).
    destruct (K2 g2 (or_intror (or_introl eq_refl))) as (r2 & R2 & A2 & B2).
    destruct (Hall r1 r2 R1 R2) as [Hk Hp].
    split; [congruence |]. rewrite B1, B2. exact Hp.
Qed.

End OrderFacts.

(** X11 on the lane with two loads at 100 and one at 200. *)
Lemma mean_and_median_between_min_and_max_witness :
  exists s m a d M,
    PriceEstimator.estimate_price_from_df 2026 Samples.lane true = Some s
    /\ PriceEstimator.min_cost s = Some m
    /\ PriceEstimator.avg_cost s = Some a
    /\ PriceEstimator.median_cost s = Some d
    /\ PriceEstimator.max_cost s = Some M
    /\ m <= a /\ a <= M /\ m <= d /\ d <= M.
Proof.
  destruct (@mean_and_median_between_min_and_max 2026 Samples.lane true _
              eq_refl) as (m & a & d & M & H).
  eexists. exists m, a, d, M. split; [reflexivity | exact H].
Defined.

(** X12 on two loads of one lane at one price, in opposite directions:
    one group, no standard deviation. *)
Lemma stddev_missing_iff_one_group_witness :
  exists s,
    PriceEstimator.estimate_price_from_df 2026
      [Samples.load "AB1 2CD" "EF3 4GH" 100 2025;
       Samples.load "EF3 4GH" "AB1 2CD" 100 2024] true = Some s
    /\ PriceEstimator.stddev_cost s = None.
Proof.
  eexists. split; [reflexivity |].
  apply (proj2 (@stddev_missing_iff_one_group 2026
                  [Samples.load "AB1 2CD" "EF3 4GH" 100 2025;
                   Samples.load "EF3 4GH" "AB1 2CD" 100 2024] true _
                  eq_refl)).
  intros r1 r2 H1 H2. simpl in H1, H2.
  destruct H1 as [<- | [<- | []]], H2 as [<- | [<- | []]];
    split; reflexivity.
Defined.

(* ================================================================== *)
(** * Further properties of the tiered fallback *)
(* ================================================================== *)

Section ThresholdFacts.

Import PriceEstimator.

(** Later pools hold at least the qualifying rows of earlier ones. *)
Lemma pools_grow (m3 w10 w20 m2 : list match_row) (j k : nat)
  (dfj dfk : list match_row) (lj lk : string) :
  nth_error (combinations m3 w10 w20 m2) j = Some (dfj, lj) ->
  nth_error (combinations m3 w10 w20 m2) k = Some (dfk, lk) ->
  (j <= k)%nat ->
  (List.length (kept m3) <= List.length (kept dfj)
   <= List.length (kept dfk))%nat
  /\ (List.length (kept dfk)
      <= List.length (kept (m3 ++ w10 ++ w20 ++ m2)))%nat.
Proof.
  unfold combinations.
  destruct j as [| [| [| [| j]]]], k as [| [| [| [| k]]]]; simpl;
    intros Hj Hk Hle; try lia;
    try (destruct j; discriminate); try (destruct k; discriminate);
    injection Hj as <- _; injection Hk as <- _;
    rewrite ?kept_app; lia.
Qed.

(** X13. An estimate returned by [estimate_price] rests on at least
    [min_count] loads; it carries an explanation; and its count lies
    between the number of qualifying 3-letter rows and the number of
    qualifying rows of the four tiers taken together. *)
Theorem estimate_rests_on_enough_loads
  (current_year : Z) (m3 w10 w20 m2 : list match_row)
  (min_count : Z) (use_time_weighting : bool) (r : stats) :
  estimate_price current_year m3 w10 w20 m2 min_count use_time_weighting
  = Some r ->
  (min_count <= Z.of_nat (valid_count r))%Z
  /\ explanation r <> None
  /\ (List.length (kept m3) <= valid_count r
      <= List.length (kept (m3 ++ w10 ++ w20 ++ m2)))%nat.
Proof.
  rewrite estimate_price_first_tier. intros H.
  apply first_tier_some in H.
  destruct H as (k & df & label & s & Hk & _ & Hs & Hle & ->).
  simpl. split; [exact Hle |]. split; [discriminate |].
  rewrite (valid_count_kept _ _ _ Hs).
  destruct (pools_grow m3 w10 w20 m2 (j := k) (k := k) Hk Hk (Nat.le_refl k))
    as [[A _] B].
  lia.
Qed.

(** X14. Lowering the minimum count never loses the estimate and never
    widens the pool: if [estimate_price] returns an estimate for
    [min_count], it returns one for every smaller minimum count, resting
    on no more loads. *)
Theorem lower_threshold_keeps_the_estimate
  (current_year : Z) (m3 w10 w20 m2 : list match_row)
  (min_count lower : Z) (use_time_weighting : bool) (r : stats) :
  estimate_price current_year m3 w10 w20 m2 min_count use_time_weighting
  = Some r ->
  (lower <= min_count)%Z ->
  exists r',
    estimate_price current_year m3 w10 w20 m2 lower use_time_weighting
    = Some r'
    /\ (valid_count r' <= valid_count r)%nat.
Proof.
  rewrite !estimate_price_first_tier. intros H Hlow.
  apply first_tier_some in H.
  destruct H as (k & df & label & s & Hk & _ & Hs & Hle & ->).
  assert (Hmeets : meets_threshold current_year lower use_time_weighting df)
    by (exists s; split; [exact Hs | lia]).
  destruct (first_tier current_year lower use_time_weighting
              (combinations m3 w10 w20 m2)) as [r'|] eqn:E.
  - exists r'. split; [reflexivity |].
    apply first_tier_some in E.
    destruct E as (k' & df' & label' & s' & Hk' & Hfirst & Hs' & _ & ->).
    simpl. rewrite (valid_count_kept _ _ _ Hs), (valid_count_kept _ _ _ Hs').
    destruct (Nat.le_gt_cases k' k) as [L | L].
    + destruct (pools_grow m3 w10 w20 m2 (j := k') (k := k) Hk' Hk L)
        as [[_ A] _].
      exact A.
    + exfalso. exact (Hfirst k df label L Hk Hmeets).
  - exfalso.
    apply (proj1 (first_tier_none current_year lower use_time_weighting
                    (combinations m3 w10 w20 m2)) E df label);
      [| exact Hmeets].
    eapply nth_error_In. exact Hk.
Qed.

End ThresholdFacts.

(** X13 on the lane whose three rows are in the 3-letter and in the
    10 km tier. *)
Lemma estimate_rests_on_enough_loads_witness :
  exists r,
    PriceEstimator.estimate_price 2026 Samples.lane Samples.lane [] []
      5 false = Some r
    /\ (5 <= Z.of_nat (PriceEstimator.valid_count r))%Z
    /\ PriceEstimator.explanation r <> None.
Proof.
  eexists. split; [reflexivity |].
  destruct (@estimate_rests_on_enough_loads 2026 Samples.lane Samples.lane
              [] [] 5 false _ eq_refl) as (H1 & H2 & _).
  split; [exact H1 | exact H2].
Defined.

(** X14 on the same lane: with a minimum count of 3 the 3-letter rows
    alone suffice. *)
Lemma lower_threshold_keeps_the_estimate_witness :
  exists r',
    PriceEstimator.estimate_price 2026 Samples.lane Samples.lane [] []
      3 false = Some r'
    /\ (PriceEstimator.valid_count r' <= 6)%nat.
Proof.
  apply (@lower_threshold_keeps_the_estimate 2026 Samples.lane Samples.lane
           [] [] 5 3 false _ eq_refl).
  lia.
Defined.

(* ================================================================== *)
(** * Further properties of the density-peak estimator *)
(* ================================================================== *)

Section EstimateFacts.

Import HighDensity.

Variable np_std : list Q -> Q.
Variable gaussian_kde : list Q -> Q -> Q -> option (Q -> Q).

(** Past the guards the estimator raises when the density estimate
    cannot be built. *)
Lemma identify_optimal_price_raises (df : list observation)
  (route_key vehicle_type : option string) (target_bandwidth : Q) :
  let costs := selected_costs df route_key vehicle_type in
  (5 <= List.length costs)%nat ->
  spread_is_zero (spread_of np_std costs) = false ->
  gaussian_kde costs target_bandwidth (spread_of np_std costs) = None ->
  identify_optimal_price np_std gaussian_kde df route_key vehicle_type
    target_bandwidth = Raised.
Proof.
  intros costs Hlen Hspread Hkde.
  rewrite identify_optimal_price_eq. cbv zeta. fold costs.
  apply Nat.ltb_ge in Hlen. rewrite Hlen, Hspread, Hkde. reflexivity.
Qed.

(** Past the guards, with the density curve built and a bandwidth that
    is not zero, the estimator returns a price: a grid price at a peak
    or the bin value of one of the prices. *)
Lemma identify_optimal_price_returns (df : list observation)
  (route_key vehicle_type : option string) (target_bandwidth : Q)
  (kde : Q -> Q) :
  let costs := selected_costs df route_key vehicle_type in
  (5 <= List.length costs)%nat ->
  spread_is_zero (spread_of np_std costs) = false ->
  gaussian_kde costs target_bandwidth (spread_of np_std costs) = Some kde ->
  ~ target_bandwidth == 0 ->
  exists lo hi,
    col_min costs = Some lo /\ col_max costs = Some hi /\ lo <= hi
    /\ ((exists idx,
           (0 < idx < 999)%nat
           /\ identify_optimal_price np_std gaussian_kde df route_key
                vehicle_type target_bandwidth
              = Returned (Some (nth idx (linspace lo hi 1000) 0)))
        \/ (exists x,
              In x costs
              /\ identify_optimal_price np_std gaussian_kde df route_key
                   vehicle_type target_bandwidth
                 = Returned (Some (floor_multiple target_bandwidth x)))).
Proof.
  intros costs Hlen Hspread Hkde Hw.
  destruct (@identify_optimal_price_past_guards np_std gaussian_kde
              df route_key vehicle_type target_bandwidth kde
              Hlen Hspread Hkde)
    as (lo & hi & Hlo & Hhi & Hle & Hres).
  fold costs in Hlo, Hhi.
  exists lo, hi.
  split; [exact Hlo |]. split; [exact Hhi |]. split; [exact Hle |].
  cbv zeta in Hres. fold costs in Hres.
  set (cost_range := linspace lo hi 1000) in *.
  set (density := map kde cost_range) in *.
  assert (Hdl : List.length density = 1000%nat)
    by (unfold density, cost_range; rewrite length_map;
        apply linspace_length).
  destruct (first_valid_peak density _ (find_peaks density))
    as [idx|] eqn:E.
  - left. exists idx. split; [| exact Hres].
    apply first_valid_peak_some in E.
    destruct E as (before & after & Hp & _ & _).
    assert (Hin : In idx (find_peaks density))
      by (rewrite Hp; apply in_app_iff; right; left; reflexivity).
    apply find_peaks_range in Hin. rewrite Hdl in Hin. lia.
  - right.
    rewrite (cost_groups_finite df route_key vehicle_type Hw) in Hres.
    fold costs in Hres.
    assert (Hne : map (floor_multiple target_bandwidth) costs <> []).
    { destruct costs; [simpl in Hlen; lia | discriminate]. }
    destruct (idxmax_value_counts Hne) as (b & Hb & Hin & _).
    apply in_map_iff in Hin. destruct Hin as (x & Ex & Hx).
    exists x. split; [exact Hx |]. rewrite Hres, Hb, Ex. reflexivity.
Qed.

(** X15. For a bandwidth that is not zero, the estimator returns [None]
    only at its two guards: fewer than five non-null prices, or a spread
    of zero.  In every other case it returns a price, whatever the
    density curve looks like, or raises with the density estimate. *)
Theorem no_estimate_only_at_the_guards (df : list observation)
  (route_key vehicle_type : option string) (target_bandwidth : Q) :
  let costs := selected_costs df route_key vehicle_type in
  ~ target_bandwidth == 0 ->
  (identify_optimal_price np_std gaussian_kde df route_key vehicle_type
     target_bandwidth = Returned None
   <-> (List.length costs < 5)%nat
       \/ spread_is_zero (spread_of np_std costs) = true).
Proof.
  intros costs Hw. split.
  - intros Hnone.
    destruct (Nat.lt_ge_cases (List.length costs) 5) as [L | L];
      [left; exact L |].
    destruct (spread_is_zero (spread_of np_std costs)) eqn:E;
      [right; reflexivity |].
    exfalso.
    destruct (gaussian_kde costs target_bandwidth (spread_of np_std costs))
      as [kde|] eqn:Hkde.
    + destruct (identify_optimal_price_returns df route_key vehicle_type
                  L E Hkde Hw)
        as (lo & hi & _ & _ & _ & [(idx & _ & Hres) | (x & _ & Hres)]);
        rewrite Hres in Hnone; discriminate Hnone.
    + rewrite (identify_optimal_price_raises df route_key vehicle_type
                 L E Hkde) in Hnone.
      discriminate Hnone.
  - rewrite identify_optimal_price_eq. cbv zeta. fold costs.
    intros [L | Z].
    + apply Nat.ltb_lt in L. rewrite L. reflexivity.
    + rewrite Z. destruct (List.length costs <? 5)%nat; reflexivity.
Qed.

(** X16. For a positive bandwidth, a returned estimate is never above
    the largest price and less than one bandwidth below the smallest
    price. *)
Theorem estimate_within_price_range (df : list observation)
  (route_key vehicle_type : option string) (target_bandwidth lo hi r : Q) :
  let costs := selected_costs df route_key vehicle_type in
  0 < target_bandwidth ->
  col_min costs = Some lo ->
  col_max costs = Some hi ->
  identify_optimal_price np_std gaussian_kde df route_key vehicle_type
    target_bandwidth = Returned (Some r) ->
  lo - target_bandwidth < r /\ r <= hi.
Proof.
  intros costs Hw Hlo Hhi Hr.
  assert (Hguards : (5 <= List.length costs)%nat
                    /\ spread_is_zero (spread_of np_std costs) = false).
  { rewrite identify_optimal_price_eq in Hr. cbv zeta in Hr. fold costs in Hr.
    destruct (Nat.ltb_spec (List.length costs) 5) as [L | L];
      [discriminate |].
    destruct (spread_is_zero (spread_of np_std costs));
      [discriminate | auto]. }
  destruct Hguards as [L Z].
  destruct (gaussian_kde costs target_bandwidth (spread_of np_std costs))
    as [kde|] eqn:Hkde.
  2:{ rewrite (identify_optimal_price_raises df route_key vehicle_type
                 L Z Hkde) in Hr.
      discriminate Hr. }
  assert (Hw0 : ~ target_bandwidth == 0) by lra.
  destruct (identify_optimal_price_returns df route_key vehicle_type
              L Z Hkde Hw0)
    as (lo' & hi' & Hlo' & Hhi' & Hle & Hres).
  fold costs in Hlo', Hhi'.
  assert (lo' = lo) by congruence. assert (hi' = hi) by congruence.
  subst lo' hi'.
  destruct Hres as [(idx & Hidx & Hres) | (x & Hx & Hres)];
    rewrite Hres in Hr.
  - assert (Ev : nth idx (linspace lo hi 1000) 0 = r)
      by (injection Hr; auto).
    pose proof (@linspace_monotone lo hi 1000 0 idx Hle ltac:(lia) ltac:(lia))
      as B1.
    pose proof (@linspace_monotone lo hi 1000 idx 999 Hle ltac:(lia)
                  ltac:(lia)) as B2.
    assert (E0 : nth 0 (linspace lo hi 1000) 0 == lo).
    { rewrite linspace_nth by lia. change (of_nat 0) with 0. ring. }
    assert (E9 : nth 999 (linspace lo hi 1000) 0 == hi).
    { rewrite linspace_nth by lia.
      change (1000 - 1)%nat with 999%nat. field.
      intros K. pose proof (@of_nat_pos 999 ltac:(lia)). lra. }
    rewrite Ev in B1, B2.
    set (v0 := nth 0 (linspace lo hi 1000) 0) in *.
    set (v9 := nth 999 (linspace lo hi 1000) 0) in *.
    clearbody v0 v9. lra.
  - assert (Ev : floor_multiple target_bandwidth x = r)
      by (injection Hr; auto).
    rewrite <- Ev.
    destruct (cost_group_left_edge x Hw) as [G1 G2].
    apply col_min_spec in Hlo. apply col_max_spec in Hhi.
    destruct Hlo as [_ Llo], Hhi as [_ Lhi].
    pose proof (Llo x Hx). pose proof (Lhi x Hx). lra.
Qed.

End EstimateFacts.

(** X15 on the sample with clusters at 120 and 180: nine prices that
    are not all equal pass both guards, so the result is not [None]. *)
Lemma no_estimate_only_at_the_guards_witness :
  HighDensity.identify_optimal_price Samples.variance Samples.box_kernel
    Samples.two_modes None None 5 <> HighDensity.Returned None.
Proof.
  intros H.
  apply (proj1 (@no_estimate_only_at_the_guards Samples.variance
                  Samples.box_kernel Samples.two_modes None None 5
                  ltac:(discriminate))) in H.
  destruct H as [L | Z].
  - simpl in L. lia.
  - vm_compute in Z. discriminate Z.
Defined.

(** X16 on the same sample: the estimate 119800/999 lies between
    100 - 5 and 200. *)
Lemma estimate_within_price_range_witness :
  100 - 5 < 119800 # 999 /\ 119800 # 999 <= 200.
Proof.
  apply (@estimate_within_price_range Samples.variance Samples.box_kernel
           Samples.two_modes None None 5 100 200 (119800 # 999)).
  - reflexivity.
  - vm_compute. reflexivity.
  - vm_compute. reflexivity.
  - vm_compute. reflexivity.
Defined.

(* ================================================================== *)
(** * Filling in postcodes on loading *)
(* ================================================================== *)

Section LoadingFacts.

Variable postcode_cache : Q * Q -> option string.
Variable round : Q -> nat -> Q.

Local Abbreviation fill := (DataLoader._fill_missing_postcodes postcode_cache round).
Local Abbreviation updated := (DataLoader.updated_postcode postcode_cache round 2).
Local Abbreviation cached := (cached_postcode postcode_cache round).
Local Abbreviation fill_row := (filled_row postcode_cache round).

Lemma fill_rows (df : list shipment) : fill df = map fill_row df.
Proof.
  unfold DataLoader._fill_missing_postcodes,
    DataLoader.fill_postcodes_from_cache_polars.
  rewrite map_map. reflexivity.
Qed.

Lemma updated_long (lat lon : option Q) (p : option string) :
  long_postcode p -> updated lat lon p = p.
Proof.
  intros (s & -> & H). unfold DataLoader.updated_postcode.
  apply Nat.ltb_lt in H. now rewrite H.
Qed.

Lemma updated_short (lat lon : option Q) (p : option string) :
  ~ long_postcode p -> updated lat lon p = cached lat lon.
Proof.
  intros H. unfold DataLoader.updated_postcode, cached_postcode.
  destruct p as [s|]; [| now destruct lat, lon].
  destruct (Nat.ltb_spec 3 (String.length s)) as [L | L].
  - exfalso. apply H. exists s. auto.
  - now destruct lat, lon.
Qed.

Lemma long_postcode_dec (p : option string) :
  long_postcode p \/ ~ long_postcode p.
Proof.
  destruct p as [s|].
  - destruct (Nat.ltb_spec 3 (String.length s)) as [L | L].
    + left. exists s. auto.
    + right. intros (s' & E & H). injection E as <-. lia.
  - right. intros (s' & E & _). discriminate.
Qed.

Lemma updated_idem (lat lon : option Q) (p : option string) :
  updated lat lon (updated lat lon p) = updated lat lon p.
Proof.
  destruct (long_postcode_dec p) as [H | H].
  - now rewrite !(updated_long _ _ H).
  - rewrite (updated_short _ _ H).
    destruct (long_postcode_dec (cached lat lon)) as [K | K].
    + now apply updated_long.
    + now apply updated_short.
Qed.

Lemma fill_row_idem (r : shipment) : fill_row (fill_row r) = fill_row r.
Proof.
  unfold filled_row. destruct r; cbn -[DataLoader.updated_postcode].
  now rewrite !updated_idem.
Qed.

(** X17. Filling in postcodes a second time changes nothing. *)
Theorem filling_postcodes_is_idempotent (df : list shipment) :
  fill (fill df) = fill df.
Proof.
  rewrite !fill_rows, map_map. apply map_ext. exact fill_row_idem.
Qed.

(** X18. Filling in postcodes keeps the number of rows and their order,
    changes no column but the two postcode columns, and leaves every
    postcode of more than three characters as it is. *)
Theorem filling_keeps_long_postcodes_and_other_columns
  (df : list shipment) (i : nat) (r : shipment) :
  nth_error df i = Some r ->
  List.length (fill df) = List.length df
  /\ exists r',
       nth_error (fill df) i = Some r'
       /\ same_but_postcodes r r'
       /\ (long_postcode (s_origin_postcode r) ->
           s_origin_postcode r' = s_origin_postcode r)
       /\ (long_postcode (s_destination_postcode r) ->
           s_destination_postcode r' = s_destination_postcode r).
Proof.
  intros H. rewrite fill_rows, length_map. split; [reflexivity |].
  exists (fill_row r). split; [now apply map_nth_error |].
  split; [unfold same_but_postcodes; destruct r; cbn; tauto |].
  split; intros L; destruct r; cbn in *; now apply updated_long.
Qed.

(** X19. A postcode of three characters or fewer is treated like a
    missing one: it is replaced by the cache entry for the row's
    coordinates rounded to two places, and by null when a coordinate is
    missing or the cache has no entry. *)
Theorem filling_replaces_short_postcodes
  (df : list shipment) (i : nat) (r : shipment) :
  nth_error df i = Some r ->
  exists r',
    nth_error (fill df) i = Some r'
    /\ (~ long_postcode (s_origin_postcode r) ->
        s_origin_postcode r' = cached (s_origin_lat r) (s_origin_lon r))
    /\ (~ long_postcode (s_destination_postcode r) ->
        s_destination_postcode r' = cached (s_dest_lat r) (s_dest_lon r)).
Proof.
  intros H. rewrite fill_rows.
  exists (fill_row r). split; [now apply map_nth_error |].
  split; intros L; destruct r; cbn in *; now apply updated_short.
Qed.

End LoadingFacts.

(** X18 on two loads, the second with full postcodes. *)
Lemma filling_keeps_long_postcodes_and_other_columns_witness :
  List.length
    (DataLoader._fill_missing_postcodes Samples.one_place Samples.nearest
       [Samples.outcode_known; Samples.located])
  = 2%nat
  /\ exists r',
       nth_error
         (DataLoader._fill_missing_postcodes Samples.one_place
            Samples.nearest [Samples.outcode_known; Samples.located])
         1
       = Some r'
       /\ same_but_postcodes Samples.located r'
       /\ s_origin_postcode r' = Some "AB1 2CD"%string
       /\ s_destination_postcode r' = Some "EF3 4GH"%string.
Proof.
  destruct (@filling_keeps_long_postcodes_and_other_columns
              Samples.one_place Samples.nearest
              [Samples.outcode_known; Samples.located] 1%nat Samples.located
              eq_refl)
    as (Hlen & r' & E & Hsame & Ho & Hd).
  split; [exact Hlen |]. exists r'. split; [exact E |].
  split; [exact Hsame |]. split.
  - apply Ho. eexists. split; [reflexivity | simpl; lia].
  - apply Hd. eexists. split; [reflexivity | simpl; lia].
Defined.

(** X19 on two loads whose origin postcode is the outcode "AB1": the
    one with coordinates gets the cached postcode, the one without
    loses its postcode. *)
Lemma filling_replaces_short_postcodes_witness :
  (exists r',
      nth_error
        (DataLoader._fill_missing_postcodes Samples.one_place Samples.nearest
           [Samples.outcode_known; Samples.outcode_unlocated])
        0
      = Some r'
      /\ s_origin_postcode r' = Some "AB1 2CD"%string)
  /\ (exists r',
         nth_error
           (DataLoader._fill_missing_postcodes Samples.one_place
              Samples.nearest
              [Samples.outcode_known; Samples.outcode_unlocated])
           1
         = Some r'
         /\ s_origin_postcode r' = None).
Proof.
  assert (Hshort : ~ long_postcode (Some "AB1"%string)).
  { intros (s & E & L). injection E as <-. simpl in L. lia. }
  split.
  - destruct (@filling_replaces_short_postcodes
                Samples.one_place Samples.nearest
                [Samples.outcode_known; Samples.outcode_unlocated] 0%nat
                Samples.outcode_known eq_refl)
      as (r' & E & Ho & _).
    exists r'. split; [exact E |]. rewrite (Ho Hshort). reflexivity.
  - destruct (@filling_replaces_short_postcodes
                Samples.one_place Samples.nearest
                [Samples.outcode_known; Samples.outcode_unlocated] 1%nat
                Samples.outcode_unlocated eq_refl)
      as (r' & E & Ho & _).
    exists r'. split; [exact E |]. rewrite (Ho Hshort). reflexivity.
Defined.

(* ================================================================== *)
(** * What the page shows *)
(* ================================================================== *)

Section PageFacts.

Variable get_lat_lon_from_api : string -> option (Q * Q).
Variables radians sin cos asin sqrt : Q -> Q.
Variable np_std : list Q -> Q.
Variable gaussian_kde : list Q -> Q -> Q -> option (Q -> Q).

Local Abbreviation on_submit :=
  (App.on_submit get_lat_lon_from_api radians sin cos asin sqrt
     np_std gaussian_kde).
Local Abbreviation find_similar_routes_by_postcode :=
  (SimilarRoutes.find_similar_routes_by_postcode
     get_lat_lon_from_api radians sin cos asin sqrt).

(** A shown result is the recent part of the 3-letter tier of the
    search over the prefiltered dataset, with the density-peak estimate
    over it. *)
Lemma on_submit_results (df : list shipment) (one_year_ago : datetime)
  (origin dest selected : string) (recent : list match_row)
  (optimal : option Q) :
  on_submit df one_year_ago origin dest selected = App.Results recent optimal ->
  exists m3 w10 w20 m2,
    find_similar_routes_by_postcode (App.df_filtered df selected)
      origin dest None = Some (m3, w10, w20, m2)
    /\ recent = filter_rows (App.since one_year_ago) m3
    /\ (25 <= List.length recent)%nat
    /\ HighDensity.identify_optimal_price np_std gaussian_kde
         (App.to_pandas recent) None None App.default_target_bandwidth
       = HighDensity.Returned optimal.
Proof.
  unfold App.on_submit. intros H.
  destruct origin as [| o origin]; [discriminate |].
  destruct dest as [| d dest]; [discriminate |].
  destruct (find_similar_routes_by_postcode (App.df_filtered df selected)
              (String o origin) (String d dest) None)
    as [[[[m3 w10] w20] m2] |]; [| discriminate].
  exists m3, w10, w20, m2. split; [reflexivity |].
  cbv zeta in H.
  destruct (Nat.leb_spec 25
              (List.length (filter_rows (App.since one_year_ago) m3)))
    as [L | L].
  - destruct (HighDensity.identify_optimal_price np_std gaussian_kde
                (App.to_pandas (filter_rows (App.since one_year_ago) m3))
                None None App.default_target_bandwidth)
      as [| price] eqn:E; [discriminate |].
    injection H as <- <-. auto.
  - destruct (0 <? _)%nat; discriminate.
Qed.

(** The rows of the 3-letter tier come from rows of the dataset that
    pass the base filter. *)
Lemma three_letter_rows (df : list shipment) (origin dest : string)
  (vehicle : option string) (m3 w10 w20 m2 : list match_row) (x : match_row) :
  find_similar_routes_by_postcode df origin dest vehicle
  = Some (m3, w10, w20, m2) ->
  In x m3 ->
  exists r, In r df
            /\ carrier_price x = s_carrier_price r
            /\ vehicle_type x = s_vehicle_type r
            /\ exists p, s_carrier_price r = Some p /\ ~ p == 0.
Proof.
  intros H Hx.
  unfold SimilarRoutes.find_similar_routes_by_postcode in H.
  destruct (get_lat_lon_from_api (clean_postcode origin)) as [to|];
    [| discriminate].
  destruct (get_lat_lon_from_api (clean_postcode dest)) as [td|];
    [| discriminate].
  injection H as <- _ _ _.
  apply tier_In_inv in Hx. destruct Hx as (r & Hr & -> & Hc & _).
  apply combined_filter_true in Hc. destruct Hc as [Hp _].
  exists r. simpl. auto.
Qed.

Lemma df_filtered_vehicle (df : list shipment) (selected : string)
  (r : shipment) :
  In r (App.df_filtered df selected) ->
  In r df
  /\ (selected <> App.all_vehicle_types -> s_vehicle_type r = Some selected).
Proof.
  unfold App.df_filtered.
  destruct (String.eqb_spec selected App.all_vehicle_types) as [E | E].
  - intros H. split; [exact H | intros K; contradiction].
  - unfold filter_rows. intros H. apply filter_In in H.
    destruct H as [H K]. split; [exact H |]. intros _.
    apply keeps_true in K.
    destruct (s_vehicle_type r) as [v|]; [| discriminate].
    simpl in K. injection K as K. apply String.eqb_eq in K. now subst.
Qed.

Lemma dropna_all_present (A : Type) (f : A -> option Q) (l : list A) :
  (forall x, In x l -> exists p, f x = Some p) ->
  List.length (HighDensity.dropna (map f l)) = List.length l.
Proof.
  unfold HighDensity.dropna.
  induction l as [| a l IH]; intros H; [reflexivity |].
  simpl. destruct (H a (or_introl eq_refl)) as (p & ->). simpl.
  f_equal. apply IH. intros x Hx. apply H. now right.
Qed.

Lemma selected_costs_to_pandas (rows : list match_row) :
  selected_costs (App.to_pandas rows) None None
  = HighDensity.dropna (map carrier_price rows).
Proof.
  unfold selected_costs, App.to_pandas. simpl.
  rewrite map_map. reflexivity.
Qed.

(** X20. When the page shows results, they are at least 25 rows, and
    each of them has a pickup date on or after the day one year ago, a
    carrier price that is present and not zero, and, unless all vehicle
    types were selected, the selected vehicle type. *)
Theorem results_are_recent_priced_loads_of_the_vehicle
  (df : list shipment) (one_year_ago : datetime)
  (origin dest selected : string) (recent : list match_row)
  (optimal : option Q) :
  on_submit df one_year_ago origin dest selected = App.Results recent optimal ->
  (25 <= List.length recent)%nat
  /\ forall x, In x recent ->
       (exists d, pickup_date x = Some d
                  /\ App.date_leb one_year_ago d = true)
       /\ (exists p, carrier_price x = Some p /\ ~ p == 0)
       /\ (selected <> App.all_vehicle_types ->
           vehicle_type x = Some selected).
Proof.
  intros H. apply on_submit_results in H.
  destruct H as (m3 & w10 & w20 & m2 & Hs & -> & L & _).
  split; [exact L |]. intros x Hx.
  unfold filter_rows in Hx. apply filter_In in Hx. destruct Hx as [Hx Hk].
  split.
  - apply keeps_true in Hk. unfold App.since in Hk.
    destruct (pickup_date x) as [d|]; [| discriminate].
    exists d. split; [reflexivity |]. simpl in Hk. now injection Hk.
  - pose proof (@three_letter_rows) as T. specialize T with (1 := Hs) (2 := Hx).
    destruct T as (r & Hr & Ep & Ev & Hp).
    apply df_filtered_vehicle in Hr. destruct Hr as [_ Hv].
    split; [now rewrite Ep |]. intros K. rewrite Ev. now apply Hv.
Qed.

(** X21. On the page the five-price guard of the estimator never
    applies: every shown row contributes its price, so the estimate is
    missing exactly when the spread of the shown prices is zero. *)
Theorem shown_estimate_missing_iff_zero_spread
  (df : list shipment) (one_year_ago : datetime)
  (origin dest selected : string) (recent : list match_row)
  (optimal : option Q) :
  on_submit df one_year_ago origin dest selected = App.Results recent optimal ->
  List.length (HighDensity.dropna (map carrier_price recent))
  = List.length recent
  /\ (optimal = None <->
      HighDensity.spread_is_zero
        (spread_of np_std (HighDensity.dropna (map carrier_price recent)))
      = true).
Proof.
  intros H. apply on_submit_results in H.
  destruct H as (m3 & w10 & w20 & m2 & Hs & Hrec & L & Hopt).
  assert (Hlen : List.length (HighDensity.dropna (map carrier_price recent))
                 = List.length recent).
  { apply dropna_all_present. intros x Hx. rewrite Hrec in Hx.
    unfold filter_rows in Hx. apply filter_In in Hx. destruct Hx as [Hx _].
    pose proof (@three_letter_rows) as T. specialize T with (1 := Hs) (2 := Hx).
    destruct T as (r & _ & Ep & _ & p & Hp & _).
    exists p. now rewrite Ep. }
  split; [exact Hlen |].
  rewrite <- selected_costs_to_pandas in *.
  assert (Hw : ~ App.default_target_bandwidth == 0) by discriminate.
  set (costs := selected_costs (App.to_pandas recent) None None) in *.
  assert (L5 : (5 <= List.length costs)%nat) by lia.
  split.
  - intros ->.
    destruct (HighDensity.spread_is_zero (spread_of np_std costs)) eqn:E;
      [reflexivity |].
    exfalso.
    destruct (gaussian_kde costs App.default_target_bandwidth
                (spread_of np_std costs)) as [kde|] eqn:Hkde.
    + destruct (@identify_optimal_price_returns np_std gaussian_kde
                  (App.to_pandas recent) None None
                  App.default_target_bandwidth kde L5 E Hkde Hw)
        as (lo & hi & _ & _ & _ & [(idx & _ & Hres) | (x & _ & Hres)]);
        rewrite Hres in Hopt; discriminate Hopt.
    + rewrite (@identify_optimal_price_raises np_std gaussian_kde
                 (App.to_pandas recent) None None
                 App.default_target_bandwidth L5 E Hkde) in Hopt.
      discriminate Hopt.
  - intros Z. rewrite identify_optimal_price_eq in Hopt.
    cbv zeta in Hopt. fold costs in Hopt. rewrite Z in Hopt.
    destruct (List.length costs <? 5)%nat; now injection Hopt.
Qed.

End PageFacts.

(** The page for the sample of twenty-five loads, searched for vans on
    the day one year after which all of them were picked up. *)
Lemma busy_page :
  App.on_submit Samples.two_places Samples.same Samples.same Samples.same
    Samples.same Samples.same Samples.variance Samples.box_kernel
    Samples.busy (Samples.on_day 2025) "AB1 2CD" "EF3 4GH" "Van"
  = App.Results Samples.busy_rows (Some (149800 # 999)).
Proof. vm_compute. reflexivity. Qed.

(** X20 on the sample of twenty-five loads. *)
Lemma results_are_recent_priced_loads_of_the_vehicle_witness :
  (25 <= List.length Samples.busy_rows)%nat
  /\ forall x, In x Samples.busy_rows ->
       (exists d, pickup_date x = Some d
                  /\ App.date_leb (Samples.on_day 2025) d = true)
       /\ (exists p, carrier_price x = Some p /\ ~ p == 0)
       /\ ("Van"%string <> App.all_vehicle_types ->
           vehicle_type x = Some "Van"%string).
Proof.
  exact (@results_are_recent_priced_loads_of_the_vehicle
           Samples.two_places Samples.same Samples.same Samples.same
           Samples.same Samples.same Samples.variance Samples.box_kernel
           Samples.busy (Samples.on_day 2025) "AB1 2CD" "EF3 4GH"
           "Van" Samples.busy_rows (Some (149800 # 999))
           busy_page).
Defined.

(** X21 on the same sample: all twenty-five prices count, and the
    spread of the prices is not zero. *)
Lemma shown_estimate_missing_iff_zero_spread_witness :
  List.length (HighDensity.dropna (map carrier_price Samples.busy_rows))
  = 25%nat
  /\ HighDensity.spread_is_zero
       (spread_of Samples.variance
          (HighDensity.dropna (map carrier_price Samples.busy_rows)))
     <> true.
Proof.
  destruct (@shown_estimate_missing_iff_zero_spread
              Samples.two_places Samples.same Samples.same Samples.same
              Samples.same Samples.same Samples.variance Samples.box_kernel
              Samples.busy (Samples.on_day 2025) "AB1 2CD" "EF3 4GH"
              "Van" Samples.busy_rows (Some (149800 # 999))
              busy_page)
    as [Hlen Hiff].
  split; [exact Hlen |].
  intros Z. apply Hiff in Z. discriminate Z.
Defined.
